(** * Verification of the product-catalog deduplication pipeline

    A shallow embedding of [backend/services/dedup_logic.py].

    - The pandas DataFrame is a list of rows together with the list of its
      column names, so that ['c' in df.columns], the [KeyError] of a missing
      column and the creation of a column by an assignment are all visible.
    - A row carries its index label [name].  Assignments through
      [df.loc[labels, col]] go by label, as in pandas; the theorems that
      follow a single row through such assignments assume that labels are
      unique, as they are for the range index of a freshly loaded table.
    - Python floats and numpy float64 are binary64 primitive floats; a missing
      confidence is NaN.
    - Strings are ASCII strings; characters outside [a-z0-9] and whitespace
      are the "special characters" of [normalize_text].
    - Python sets are [gset]s.
    - The external collaborators (embedding model, generative models), the
      parser [float()] and the entries of sklearn's cosine-similarity matrix
      are section variables; a call that raises is modelled by [None]. *)

From Stdlib Require Import Floats Ascii String DecimalString.
From stdpp Require Import base list gmap strings sorting.

Set Warnings "-inexact-float".



(** ** Python strings (ASCII fragment) *)

Module Py.

(** [str.isspace] on code points below 128: TAB, LF, VT, FF, CR, the four
    separators FS GS RS US, and SPACE.  These are also the characters the
    regular expression class [\s] accepts. *)
Definition isspace (c : ascii) : bool :=
  let n := nat_of_ascii c in
  (((9 <=? n) && (n <=? 13)) || ((28 <=? n) && (n <=? 32)))%nat.

Definition isupper (c : ascii) : bool :=
  let n := nat_of_ascii c in ((65 <=? n) && (n <=? 90))%nat.

Definition islower (c : ascii) : bool :=
  let n := nat_of_ascii c in ((97 <=? n) && (n <=? 122))%nat.

Definition isdigit (c : ascii) : bool :=
  let n := nat_of_ascii c in ((48 <=? n) && (n <=? 57))%nat.

Definition lower_char (c : ascii) : ascii :=
  if isupper c then ascii_of_nat (nat_of_ascii c + 32) else c.

(** [text.lower()] *)
Fixpoint lower (s : string) : string :=
  match s with
  | EmptyString => EmptyString
  | String c s' => String (lower_char c) (lower s')
  end.

(** [re.sub(r'[^a-z0-9\s]', ' ', text)] *)
Fixpoint sub_special (s : string) : string :=
  match s with
  | EmptyString => EmptyString
  | String c s' =>
      String (if islower c || isdigit c || isspace c then c else " "%char)
             (sub_special s')
  end.

(** [text.split()]: maximal runs of non-whitespace characters.  [cur] is
    the word being read, reversed. *)
Fixpoint split_go (cur : option string) (s : string) : list string :=
  match s with
  | EmptyString => option_list (String.rev <$> cur)
  | String c s' =>
      if isspace c
      then option_list (String.rev <$> cur) ++ split_go None s'
      else split_go (Some (String c (default EmptyString cur))) s'
  end.

Definition split (s : string) : list string := split_go None s.

(** [' '.join(parts)] *)
Fixpoint join_space (parts : list string) : string :=
  match parts with
  | [] => ""
  | [p] => p
  | p :: ps => p +:+ " " +:+ join_space ps
  end.

(** [str(n)] for a non-negative integer. *)
Definition str_of_nat (n : nat) : string :=
  NilEmpty.string_of_uint (Nat.to_uint n).

(** [needle in haystack] for strings. *)
Fixpoint prefix (p s : string) : bool :=
  match p, s with
  | EmptyString, _ => true
  | String a p', String b s' => bool_decide (a = b) && prefix p' s'
  | String _ _, EmptyString => false
  end.

Fixpoint contains (needle s : string) : bool :=
  prefix needle s ||
  match s with
  | EmptyString => false
  | String _ s' => contains needle s'
  end.

(** The formatting of a nullable text cell inside an f-string. *)
Definition fmt (o : option string) : string := default "None" o.

Definition nl : string := String "010" "".

(** [s.strip()] *)
Fixpoint lstrip (s : string) : string :=
  match s with
  | String c s' => if isspace c then lstrip s' else s
  | EmptyString => EmptyString
  end.

Definition strip (s : string) : string :=
  String.rev (lstrip (String.rev (lstrip s))).

(** [l.unique()]: the distinct values in order of first appearance. *)
Fixpoint unique (l : list string) : list string :=
  match l with
  | [] => []
  | x :: l' => x :: filter (λ y, y ≠ x) (unique l')
  end.

End Py.

(** [normalize_text], lines 7-19. *)
Definition normalize_text (text : string) : string :=
  if bool_decide (text = "") then ""
  else Py.join_space (Py.split (Py.sub_special (Py.lower text))).

(** ** Data model: the DataFrame *)

(** One row of the frame.  [name] is the row's index label.  A missing cell
    is [None]; the float column [confidence] holds NaN where it is missing,
    as pandas stores it.  The key fields are kept as the text that an
    f-string prints for them. *)
Record Row := mkRow {
  name : nat;
  item_code : option string;
  barcode : option string;
  DESCR : option string;
  DESCR60 : option string;
  group_id : option string;
  match_type : option string;
  confidence : float;
  review_required : option bool;
}.

Record DataFrame := mkDF {
  columns : list string;
  rows : list Row;
}.

Definition set_group_id (v : option string) (r : Row) : Row :=
  mkRow (name r) (item_code r) (barcode r) (DESCR r) (DESCR60 r)
        v (match_type r) (confidence r) (review_required r).

Definition set_match_type (v : option string) (r : Row) : Row :=
  mkRow (name r) (item_code r) (barcode r) (DESCR r) (DESCR60 r)
        (group_id r) v (confidence r) (review_required r).

Definition set_confidence (v : float) (r : Row) : Row :=
  mkRow (name r) (item_code r) (barcode r) (DESCR r) (DESCR60 r)
        (group_id r) (match_type r) v (review_required r).

Definition set_review_required (v : option bool) (r : Row) : Row :=
  mkRow (name r) (item_code r) (barcode r) (DESCR r) (DESCR60 r)
        (group_id r) (match_type r) (confidence r) v.

(** ['c' in df.columns] *)
Definition has_col (c : string) (df : DataFrame) : bool :=
  bool_decide (c ∈ columns df).

(** A column that springs into existence: pandas appends the name; the cells
    are filled by [fill]. *)
Definition add_col (c : string) (fill : Row → Row) (df : DataFrame) : DataFrame :=
  if has_col c df then df
  else mkDF (columns df ++ [c]) (fill <$> rows df).

(** [df.loc[labels, col] = v]: every row whose label is listed is updated;
    a column that does not exist yet is created first. *)
Definition loc_set (labels : list nat) (c : string) (fill upd : Row → Row)
    (df : DataFrame) : DataFrame :=
  let df' := add_col c fill df in
  mkDF (columns df')
       ((λ r, if bool_decide (name r ∈ labels) then upd r else r) <$> rows df').

(** [df.loc[mask, col] = v] for a boolean mask computed beforehand and
    aligned with the rows. *)
Definition mask_set (mask : list bool) (c : string) (fill upd : Row → Row)
    (df : DataFrame) : DataFrame :=
  let df' := add_col c fill df in
  mkDF (columns df')
       (zip_with (λ (b : bool) r, if b then upd r else r) mask (rows df')).

(** [df[sel]]: the selected rows, in order. *)
Definition select (sel : Row → bool) (df : DataFrame) : list Row :=
  filter (λ r, sel r = true) (rows df).

(** [l.duplicated(key, keep=False)]: the row's key value occurs at least twice
    in [l]; missing values count as equal to each other. *)
Definition duplicated (key : Row → option string) (l : list Row) (r : Row) : bool :=
  bool_decide (2 ≤ length (filter (λ r', key r' = key r) l))%nat.

(** [l.groupby(key)]: the distinct non-null keys in ascending order, each
    with its rows; rows whose key is missing belong to no group.  (The
    [sort_values] that precedes it in the source only permutes the rows, and
    a group is used through the set of its labels.) *)
Definition groupby (key : Row → option string) (l : list Row)
    : list (string * list Row) :=
  (λ k, (k, filter (λ r, key r = Some k) l))
    <$> merge_sort String.le (remove_dups (omap key l)).

(** ** Exceptions *)

Inductive Exception :=
  | KeyError (col : string)
  | IndexError
  | CollaboratorError.

Inductive Result (A : Type) :=
  | Ok (a : A)
  | Raise (e : Exception).
Arguments Ok {A} a.
Arguments Raise {A} e.

#[global] Instance Result_bind : MBind Result := λ A B k m,
  match m with
  | Ok a => k a
  | Raise e => Raise e
  end.

#[global] Instance Result_ret : MRet Result := @Ok.

#[global] Instance Result_fmap : FMap Result := λ A B f m,
  match m with
  | Ok a => Ok (f a)
  | Raise e => Raise e
  end.

(** A [for] loop whose body may raise. *)
Fixpoint for_each {A S} (body : S → A → Result S) (s : S) (l : list A) : Result S :=
  match l with
  | [] => Ok s
  | a :: l' => s' ← body s a; for_each body s' l'
  end.

(** ** Step 1: [ExactMatchStep], lines 26-54 *)

Module ExactMatchStep.

(** One [for key, group in dupes.groupby(col)] loop: lines 40-43 and 49-52. *)
Definition assign_groups (pfx mt : string) (groups : list (string * list Row))
    (df : DataFrame) : DataFrame :=
  fold_left
    (λ df '(k, group),
       let idx := name <$> group in
       let df := loc_set idx "group_id" (set_group_id None)
                   (set_group_id (Some (pfx +:+ k))) df in
       loc_set idx "match_type" (set_match_type None)
                   (set_match_type (Some mt)) df)
    groups df.

Definition item_pass (df : DataFrame) : DataFrame :=
  if has_col "item_code" df then
    let dupes := filter (λ r, duplicated item_code (rows df) r = true) (rows df) in
    assign_groups "exact_item_" "exact_item_code" (groupby item_code dupes) df
  else df.

Definition barcode_pass (df : DataFrame) : DataFrame :=
  if has_col "barcode" df then
    let remaining := select (λ r, bool_decide (group_id r = None)) df in
    let dupes := filter (λ r, duplicated barcode remaining r = true) remaining in
    assign_groups "exact_barcode_" "exact_barcode" (groupby barcode dupes) df
  else df.

(** Lines 32-35. *)
Definition ensure_columns (df : DataFrame) : DataFrame :=
  let df := add_col "group_id" (set_group_id None) df in
  add_col "match_type" (set_match_type None) df.

Definition process (df : DataFrame) : DataFrame :=
  barcode_pass (item_pass (ensure_columns df)).

End ExactMatchStep.

(** ** Numeric helpers *)

(** [range(0, stop, step)] for a positive step: [0, step, 2*step, ...] below
    [stop].  (The steps of the source are the constants 250 and 5000.) *)
Definition range_step (stop step : nat) : list nat :=
  (λ k, k * step) <$> seq 0 ((stop + step - 1) / step).

(** The float of a small non-negative integer (a [len]). *)
Definition float_of_nat (n : nat) : float :=
  PrimFloat.of_uint63 (Uint63.of_Z (Z.of_nat n)).

(** [np.where(p(row))[0]]: the positions of [row] that satisfy [p], ascending. *)
Definition np_where (p : float → bool) (row : list float) : list nat :=
  omap id (imap (λ j x, if p x then Some j else None) row).

(** [l[i]] raising [IndexError] outside the list. *)
Definition at_index {A} (l : list A) (i : nat) : Result A :=
  match l !! i with
  | Some a => Ok a
  | None => Raise IndexError
  end.

(** ** Step 2: [FuzzyMatchStep], lines 57-143 *)

Module FuzzyMatchStep.

(** The loop state of [process]: the frame being annotated and the
    [visited] set.  [confirmed] is a ghost trace, absent from the source:
    it records, in order, every pair (anchor, partner) for which the branch
    at line 133 is taken. *)
Record State := mkState {
  df : DataFrame;
  visited : gset nat;
  confirmed : list (nat * nat);
}.

(** Lines 125-128: word overlap of two normalized texts. *)
Definition overlap (text1 text2 : string) : float :=
  let set1 : gset string := list_to_set (Py.split text1) in
  let set2 : gset string := list_to_set (Py.split text2) in
  if bool_decide (set1 = ∅) || bool_decide (set2 = ∅) then 0%float
  else (float_of_nat (size (set1 ∩ set2))
        / float_of_nat (size set1 `min` size set2))%float.

(** Line 131: 70% vector + 30% keyword. *)
Definition final_score (sim ov : float) : float :=
  ((0.7 * sim) + (0.3 * ov))%float.

(** Lines 137-139: the three assignments to the partner's row. *)
Definition assign (label : nat) (group_id : string) (score : float)
    (d : DataFrame) : DataFrame :=
  let d := loc_set [label] "group_id" (set_group_id None)
             (set_group_id (Some group_id)) d in
  let d := loc_set [label] "match_type" (set_match_type None)
             (set_match_type (Some "fuzzy_hybrid")) d in
  loc_set [label] "confidence" (set_confidence nan) (set_confidence score) d.

(** Line 93: the text that is embedded for a row. *)
Definition norm_descr (r : Row) : string :=
  normalize_text (default "" (DESCR r) +:+ " " +:+ default "" (DESCR60 r)).

Section Step.
Context {Embedding : Type}.
(** [self.model.get_embeddings(inputs)] for one batch; [None] when the
    call raises. *)
Variable model_get_embeddings : list string → option (list Embedding).
(** One entry of sklearn's [cosine_similarity] matrix. *)
Variable cosine : Embedding → Embedding → float.
(** [self.threshold]; 0.90 unless the caller chooses otherwise. *)
Variable threshold : float.

(** Lines 63-79. *)
Definition _get_embeddings (texts : list string) : Result (list Embedding) :=
  for_each
    (λ all_embeddings i,
       match model_get_embeddings (take 250 (drop i texts)) with
       | Some embeddings => Ok (all_embeddings ++ embeddings)%list
       | None => Raise CollaboratorError
       end)
    [] (range_step (length texts) 250).

Definition cosine_similarity (X Y : list Embedding) : list (list float) :=
  (λ x, cosine x <$> Y) <$> X.

Section Loop.
Variable remaining : list Row.
Variable texts : list string.

(** Lines 121-139: the body of [for sim_idx in candidate_indices].  The
    embedding collaborator returns one vector per text, which keeps every
    index in range; a lookup outside its list raises [IndexError]. *)
Definition candidate (actual_idx : nat) (sim_row : list float)
    (st : State) (sim_idx : nat) : Result State :=
  if bool_decide (sim_idx = actual_idx) then Ok st
  else
    text1 ← at_index texts actual_idx;
    text2 ← at_index texts sim_idx;
    sim ← at_index sim_row sim_idx;
    let score := final_score sim (overlap text1 text2) in
    if (threshold <? score)%float then
      anchor ← at_index remaining actual_idx;
      partner ← at_index remaining sim_idx;
      let group_id := "fuzzy_" +:+ Py.str_of_nat (name anchor) in
      Ok (mkState (assign (name partner) group_id score (df st))
                  ({[actual_idx]} ∪ ({[sim_idx]} ∪ visited st))
                  (confirmed st ++ [(actual_idx, sim_idx)]))
    else Ok st.

(** Lines 113-139: one row of the chunk. *)
Definition anchor_row (st : State) (actual_idx : nat) (sim_row : list float)
    : Result State :=
  if bool_decide (actual_idx ∈ visited st) then Ok st
  else
    let candidate_indices :=
      np_where (λ x, (threshold - 0.15 <? x)%float) sim_row in
    for_each (candidate actual_idx sim_row) st candidate_indices.

Variable embeddings : list Embedding.
Variable chunk_size : nat.

(** Lines 105-139: one chunk. *)
Definition chunk (st : State) (i : nat) : Result State :=
  let end_idx := (i + chunk_size) `min` length remaining in
  let chunk_embeddings := take (end_idx - i) (drop i embeddings) in
  let sim_chunk := cosine_similarity chunk_embeddings embeddings in
  for_each
    (λ st chunk_row_idx,
       sim_row ← at_index sim_chunk chunk_row_idx;
       anchor_row st (i + chunk_row_idx) sim_row)
    st (seq 0 (length sim_chunk)).

Definition chunks (st : State) : Result State :=
  for_each chunk st (range_step (length remaining) chunk_size).
End Loop.

(** Lines 81-143, with the chunk size (5000 in the source) as a
    parameter and the ghost trace kept. *)
Definition process_chunked (chunk_size : nat) (d : DataFrame) : Result State :=
  let remaining := select (λ r, bool_decide (group_id r = None)) d in
  if bool_decide (remaining = []) then Ok (mkState d ∅ [])
  else if negb (has_col "DESCR" d) then Raise (KeyError "DESCR")
  else if negb (has_col "DESCR60" d) then Raise (KeyError "DESCR60")
  else
    let texts := norm_descr <$> remaining in
    embeddings ← _get_embeddings texts;
    chunks remaining texts embeddings chunk_size (mkState d ∅ []).

Definition process (d : DataFrame) : Result DataFrame :=
  df <$> process_chunked 5000 d.
End Step.

End FuzzyMatchStep.

(** [row.get(col, dflt)] inside an f-string. *)
Definition row_get (d : DataFrame) (c : string) (cell : Row → option string)
    (dflt : string) (r : Row) : string :=
  if has_col c d then Py.fmt (cell r) else dflt.

(** ** Step 3: [CrossEncoderRerankerStep], lines 146-213 *)

Module CrossEncoderRerankerStep.

Definition prompt_head : string :=
  "Evaluate if these items are EXACTLY the same product. " +:+ Py.nl +:+
  "            Pay close attention to differences in:" +:+ Py.nl +:+
  "            - Flavor or Scent (e.g., Lavender vs Cherry)" +:+ Py.nl +:+
  "            - Size or Volume (e.g., 700ML vs 1L)" +:+ Py.nl +:+
  "            - Material or Color" +:+ Py.nl +:+
  "            - Pack Size (e.g., Pack 1 vs Pack 12)" +:+ Py.nl +:+
  "            " +:+ Py.nl +:+
  "            If any of these attributes differ, they are DIFFERENT products." +:+ Py.nl +:+
  "            Respond with a single number from 0 to 1 representing your confidence that they are the same." +:+ Py.nl +:+
  "            " +:+ Py.nl +:+
  "            Items:" +:+ Py.nl +:+
  "            ".

Definition prompt_tail : string :=
  Py.nl +:+ "            Confidence score:".

Section Step.
(** [self.model.generate_content(prompt, ...)] followed by
    [response.text]; [None] when either raises. *)
Variable generate_content : string → option string.
(** Python's [float(s)]; [None] when it raises [ValueError]. *)
Variable parse_float : string → option float.

(** Lines 175-191. *)
Definition prompt (d : DataFrame) (group : list Row) : string :=
  let items_info :=
    fold_left
      (λ acc row,
         acc +:+ "Description: " +:+ row_get d "DESCR" DESCR "" row
             +:+ " | Spec: " +:+ row_get d "DESCR60" DESCR60 "" row +:+ Py.nl)
      group "" in
  prompt_head +:+ items_info +:+ prompt_tail.

(** Lines 201-207: what a parsed score does to the group's rows. *)
Definition apply_score (idx : list nat) (score : float) (d : DataFrame) : DataFrame :=
  let d := loc_set idx "confidence" (set_confidence nan) (set_confidence score) d in
  if (score <? 0.8)%float then
    let d := loc_set idx "group_id" (set_group_id None) (set_group_id None) d in
    loc_set idx "match_type" (set_match_type None)
            (set_match_type (Some "rerank_discarded")) d
  else
    loc_set idx "match_type" (set_match_type None)
            (set_match_type (Some "rerank_verified")) d.

(** Lines 171-211: the body of [for group_id, group in ...]. *)
Definition group_body (d0 : DataFrame) (d : DataFrame) (g : string * list Row)
    : DataFrame :=
  let group := g.2 in
  if bool_decide (length group < 2)%nat then d
  else
    match generate_content (prompt d0 group) with
    | None => d
    | Some text =>
        match parse_float (Py.strip text) with
        | None => d
        | Some score => apply_score (name <$> group) score d
        end
    end.

Definition mask (r : Row) : bool :=
  bool_decide (match_type r = Some "fuzzy_hybrid")
  && (confidence r <? 0.95)%float.

Definition process (d : DataFrame) : Result DataFrame :=
  if negb (has_col "group_id" d) || negb (has_col "match_type" d) then Ok d
  else if negb (has_col "confidence" d) then Raise (KeyError "confidence")
  else
    let candidates := select mask d in
    if bool_decide (candidates = []) then Ok d
    else Ok (fold_left (group_body d) (groupby group_id candidates) d).
End Step.

End CrossEncoderRerankerStep.

(** ** Step 3b: [LLMAssistedStep], lines 215-271 *)

Module LLMAssistedStep.

Definition prompt_head : string :=
  "Are these items the same product? " +:+ Py.nl +:+
  "            Check for differences in flavor, scent, size, or pack quantity." +:+ Py.nl +:+
  "            For example, 'MONIN LAVENDER' and 'MONIN CHERRY' are DIFFERENT." +:+ Py.nl +:+
  "            Answer 'yes' or 'no' only." +:+ Py.nl +:+
  "            " +:+ Py.nl +:+
  "            Items:" +:+ Py.nl +:+
  "            ".

Section Step.
Variable generate_content : string → option string.

(** Lines 245-255. *)
Definition prompt (d : DataFrame) (group : list Row) : string :=
  let items_info :=
    fold_left
      (λ acc row,
         acc +:+ "Item: " +:+ row_get d "DESCR" DESCR "N/A" row
             +:+ " (" +:+ row_get d "DESCR60" DESCR60 "N/A" row +:+ ")" +:+ Py.nl)
      group "" in
  prompt_head +:+ items_info.

(** Lines 262-266. *)
Definition apply_answer (idx : list nat) (text : string) (d : DataFrame) : DataFrame :=
  if Py.contains "yes" (Py.lower text) then
    loc_set idx "match_type" (set_match_type None)
            (set_match_type (Some "llm_matched")) d
  else
    let d := loc_set idx "group_id" (set_group_id None) (set_group_id None) d in
    loc_set idx "match_type" (set_match_type None)
            (set_match_type (Some "llm_discarded")) d.

(** Lines 240-269: the body of [for group_id in ambiguous_group_ids]. *)
Definition group_body (d : DataFrame) (gid : string) : DataFrame :=
  let group := select (λ r, bool_decide (group_id r = Some gid)) d in
  if bool_decide (length group < 2)%nat then d
  else
    match generate_content (prompt d group) with
    | Some text => apply_answer (name <$> group) text d
    | None => d
    end.

Definition mask (r : Row) : bool :=
  bool_decide (match_type r = Some "fuzzy_embedding")
  && (confidence r <? 0.9)%float && (0.7 <? confidence r)%float.

Definition process (d : DataFrame) : Result DataFrame :=
  if negb (has_col "group_id" d) || negb (has_col "confidence" d) then Ok d
  else if negb (has_col "match_type" d) then Raise (KeyError "match_type")
  else
    let ambiguous_group_ids := Py.unique (omap group_id (select mask d)) in
    if bool_decide (ambiguous_group_ids = []) then Ok d
    else Ok (fold_left group_body ambiguous_group_ids d).
End Step.

End LLMAssistedStep.

(** ** Step 4: [HumanReviewStep], lines 273-282 *)

Module HumanReviewStep.

Definition mask (r : Row) : bool :=
  bool_decide (match_type r = Some "fuzzy_embedding")
  && (confidence r <? 0.8)%float.

Definition process (d : DataFrame) : Result DataFrame :=
  if negb (has_col "match_type" d) then Raise (KeyError "match_type")
  else if negb (has_col "confidence" d) then Raise (KeyError "confidence")
  else
    Ok (mask_set (mask <$> rows d) "review_required"
          (set_review_required None) (set_review_required (Some true)) d).

End HumanReviewStep.

(** ** The driver: [DedupAgent], lines 284-309 *)

Module DedupAgent.

(** [df['group_id'].value_counts()] at one key. *)
Definition value_count (d : DataFrame) (g : string) : nat :=
  length (filter (λ r, group_id r = Some g) (rows d)).

(** Lines 299-307. *)
Definition final_cleanup (d : DataFrame) : DataFrame :=
  if has_col "group_id" d then
    let mask :=
      (λ r, match group_id r with
            | Some g => bool_decide (value_count d g = 1%nat)
            | None => false
            end) <$> rows d in
    if existsb id mask then
      let d := mask_set mask "group_id" (set_group_id None) (set_group_id None) d in
      mask_set mask "match_type" (set_match_type None) (set_match_type None) d
    else d
  else d.

Section Agent.
Context {Embedding : Type}.
Variable model_get_embeddings : list string → option (list Embedding).
Variable cosine : Embedding → Embedding → float.
Variable rerank_generate : string → option string.
Variable parse_float : string → option float.
Variable llm_generate : string → option string.

(** Lines 295-297: the five steps, with their default parameters. *)
Definition steps (d : DataFrame) : Result DataFrame :=
  let d := ExactMatchStep.process d in
  d ← FuzzyMatchStep.process model_get_embeddings cosine 0.90%float d;
  d ← CrossEncoderRerankerStep.process rerank_generate parse_float d;
  d ← LLMAssistedStep.process llm_generate d;
  HumanReviewStep.process d.

Definition run (d : DataFrame) : Result DataFrame :=
  final_cleanup <$> steps d.
End Agent.

End DedupAgent.

(** * Specification vocabulary

    Definitions used to state the properties below. *)

(** Every assignment of the pipeline rewrites rows in place: it never adds,
    drops or reorders rows. *)
Definition map_rows (f : Row → Row) (d : DataFrame) : DataFrame :=
  mkDF (columns d) (f <$> rows d).

(** The row holds a [group_id] that occurs exactly once in the frame. *)
Definition singleton_in (d : DataFrame) (r : Row) : bool :=
  match group_id r with
  | Some g => bool_decide (DedupAgent.value_count d g = 1%nat)
  | None => false
  end.

(** What the cleanup does to one row of a frame that has a [group_id]
    column. *)
Definition cleaned (d : DataFrame) (r : Row) : Row :=
  let r1 := if singleton_in d r then set_group_id None r else r in
  let r2 := (if has_col "match_type" d then id else set_match_type None) r1 in
  if singleton_in d r then set_match_type None r2 else r2.

(** What a matching stage may do to a row: it rewrites the annotations
    [group_id], [match_type] and [confidence] only, and never introduces the
    label [fuzzy_embedding]. *)
Definition row_step (r r' : Row) : Prop :=
  name r' = name r ∧ item_code r' = item_code r ∧ barcode r' = barcode r ∧
  DESCR r' = DESCR r ∧ DESCR60 r' = DESCR60 r ∧
  review_required r' = review_required r ∧
  (match_type r ≠ Some "fuzzy_embedding" → match_type r' ≠ Some "fuzzy_embedding").

(** What a matching stage may do to a frame: columns are only added, rows
    are rewritten in place. *)
Definition frame_step (d d' : DataFrame) : Prop :=
  (∀ c, has_col c d = true → has_col c d' = true) ∧
  Forall2 row_step (rows d) (rows d').

(** The effect on one row (with label [n]) of a loop that, for each entry
    [e], rewrites with [u e] the rows whose label is listed in [idx e]. *)
Definition apply_hits {E} (idx : E → list nat) (u : E → Row → Row)
    (es : list E) (n : nat) (r : Row) : Row :=
  fold_left (λ r' e, if bool_decide (n ∈ idx e) then u e r' else r') es r.

(** The annotation written by an exact-match pass. *)
Definition exact_upd (pfx mt k : string) (r : Row) : Row :=
  set_match_type (Some mt) (set_group_id (Some (pfx +:+ k)) r).

(** What an exact-match pass over the rows selected by [P] does to one row. *)
Definition exact_row (key : Row → option string) (pfx mt : string)
    (P : Row → bool) (d : DataFrame) (r : Row) : Row :=
  match key r with
  | Some k =>
      if P r && duplicated key (filter (λ r, P r = true) (rows d)) r
      then exact_upd pfx mt k r else r
  | None => r
  end.

(** Row [i] of the frame carries the given [group_id] and [match_type]. *)
Definition in_group (d : DataFrame) (i : nat) (gid mt : string) : Prop :=
  ∃ r, rows d !! i = Some r ∧ group_id r = Some gid ∧ match_type r = Some mt.

(** The whitespace-split token set of a normalized text. *)
Definition tokens (text : string) : gset string := list_to_set (Py.split text).

(** The pair (anchor [a], record [j]) passes the tests of lines 119-133:
    [j] is another record, its cosine similarity to the anchor exceeds
    [threshold - 0.15], and the fused score exceeds [threshold]. *)
Definition confirms (threshold : float) (texts : list string) (a : nat)
    (sim_row : list float) (j : nat) : bool :=
  match texts !! a, texts !! j, sim_row !! j with
  | Some text1, Some text2, Some sim =>
      negb (bool_decide (j = a))
      && (threshold - 0.15 <? sim)%float
      && (threshold
          <? FuzzyMatchStep.final_score sim (FuzzyMatchStep.overlap text1 text2))%float
  | _, _, _ => false
  end.

(** Every record named in the trace has been marked visited. *)
Definition trace_closed (st : FuzzyMatchStep.State) : Prop :=
  ∀ a j, (a, j) ∈ FuzzyMatchStep.confirmed st →
         a ∈ FuzzyMatchStep.visited st ∧ j ∈ FuzzyMatchStep.visited st.

(** No record acts as an anchor after it was confirmed as a partner. *)
Definition no_reanchor (tr : list (nat * nat)) : Prop :=
  ∀ p q a j a' j', (p < q)%nat → tr !! p = Some (a, j) → tr !! q = Some (a', j') →
                   a' ≠ j.

(** The rows [lo .. hi-1] of the similarity matrix, each with its row number. *)
Definition sim_rows_between {Embedding} (cosine : Embedding → Embedding → float)
    (embeddings : list Embedding) (lo hi : nat) : list (nat * list float) :=
  imap (λ r x, ((lo + r)%nat, cosine x <$> embeddings))
       (take (hi - lo) (drop lo embeddings)).

(** The members of group [g] that the Reranker looks at: the rows labelled
    [fuzzy_hybrid] with confidence below 0.95 that carry [g]. *)
Definition rerank_group (d : DataFrame) (g : string) : list Row :=
  filter (λ r, group_id r = Some g) (select CrossEncoderRerankerStep.mask d).

(** What a parsed score does to a member of the group. *)
Definition scored (score : float) (r : Row) : Row :=
  if (score <? 0.8)%float
  then set_match_type (Some "rerank_discarded")
         (set_group_id None (set_confidence score r))
  else set_match_type (Some "rerank_verified") (set_confidence score r).

(** The score obtained for group [g], if the group qualifies, the call
    succeeds and the response parses. *)
Definition rerank_response (generate_content : string → option string)
    (parse_float : string → option float) (d : DataFrame) (g : string)
    : option float :=
  if bool_decide (length (rerank_group d g) < 2)%nat then None
  else
    text ← generate_content (CrossEncoderRerankerStep.prompt d (rerank_group d g));
    parse_float (Py.strip text).

(** The Reranker, row by row. *)
Definition rerank_row (generate_content : string → option string)
    (parse_float : string → option float) (d : DataFrame) (r : Row) : Row :=
  if CrossEncoderRerankerStep.mask r then
    match group_id r with
    | Some g =>
        match rerank_response generate_content parse_float d g with
        | Some score => scored score r
        | None => r
        end
    | None => r
    end
  else r.

(** The scoring call for the group raised, or its response does not parse. *)
Definition rerank_fails (generate_content : string → option string)
    (parse_float : string → option float) (d : DataFrame) (g : string) : Prop :=
  let p := CrossEncoderRerankerStep.prompt d (rerank_group d g) in
  generate_content p = None ∨
  ∃ text, generate_content p = Some text ∧ parse_float (Py.strip text) = None.

(** All rows that carry group [g]. *)
Definition llm_group (d : DataFrame) (g : string) : list Row :=
  select (λ r, bool_decide (group_id r = Some g)) d.

(** The groups that the ambiguity resolver examines. *)
Definition ambiguous_ids (d : DataFrame) : list string :=
  Py.unique (omap group_id (select LLMAssistedStep.mask d)).

(** What a binary answer does to a member of the group. *)
Definition answered (text : string) (r : Row) : Row :=
  if Py.contains "yes" (Py.lower text)
  then set_match_type (Some "llm_matched") r
  else set_match_type (Some "llm_discarded") (set_group_id None r).

(** The ambiguity resolver over the groups [ids], row by row. *)
Definition llm_row (generate_content : string → option string)
    (ids : list string) (d : DataFrame) (r : Row) : Row :=
  match group_id r with
  | Some g =>
      if bool_decide (g ∈ ids) && bool_decide (2 ≤ length (llm_group d g))%nat then
        match generate_content (LLMAssistedStep.prompt d (llm_group d g)) with
        | Some text => answered text r
        | None => r
        end
      else r
  | None => r
  end.

(** * Concrete frames and collaborators used in the examples *)

Module Examples.

(** A catalogue row with a description and no annotations yet. *)
Definition item (n : nat) (code : option string) (descr : string) : Row :=
  mkRow n code None (Some descr) None None None nan None.

(** An embedding collaborator that returns each text as its own vector. *)
Definition text_embeddings (texts : list string) : option (list string) :=
  Some texts.

(** A similarity that only recognises identical texts. *)
Definition same_text (a b : string) : float :=
  if bool_decide (a = b) then 1%float else 0%float.

(** Two records whose descriptions normalize to the same text. *)
Definition pair_frame : DataFrame :=
  mkDF ["item_code"; "DESCR"; "DESCR60"]
       [item 0 (Some "A1") "Monin Lavender 700ML";
        item 1 (Some "B2") "MONIN  lavender, 700ml"].

(** Three records: the middle one resembles both others, which do not
    resemble each other. *)
Definition chain_frame : DataFrame :=
  mkDF ["item_code"; "DESCR"; "DESCR60"]
       [item 0 (Some "A1") "red apple";
        item 1 (Some "B2") "red apple pie";
        item 2 (Some "C3") "apple pie"].

Definition chain_cosine (a b : string) : float :=
  if bool_decide (a = b) then 1%float
  else if bool_decide (a = "red apple pie" ∨ b = "red apple pie") then 0.95%float
  else 0.5%float.

(** Adjudicators. *)
Definition silent : string → option string := λ _, None.
Definition says (answer : string) : string → option string := λ _, Some answer.

(** A stand-in for Python's [float] on the few responses used here. *)
Definition parse_score (s : string) : option float :=
  if bool_decide (s = "0.6") then Some 0.6%float
  else if bool_decide (s = "0.97") then Some 0.97%float
  else None.

(** An annotated row, as the earlier stages leave it. *)
Definition annotated (n : nat) (descr gid mt : string) (conf : float) : Row :=
  mkRow n None None (Some descr) None (Some gid) (Some mt) conf None.

(** Two borderline [fuzzy_hybrid] groups, and two groups carrying the label
    that the ambiguity resolver and the review step look for. *)
Definition mixed_frame : DataFrame :=
  mkDF ["DESCR"; "DESCR60"; "group_id"; "match_type"; "confidence"]
       [annotated 0 "MONIN LAVENDER 700ML" "fuzzy_0" "fuzzy_hybrid" 0.92;
        annotated 1 "MONIN LAVENDER SYRUP 700ML" "fuzzy_0" "fuzzy_hybrid" 0.92;
        annotated 2 "COLA CAN 330ML" "fuzzy_2" "fuzzy_hybrid" 0.93;
        annotated 3 "COLA CAN 33CL" "fuzzy_2" "fuzzy_hybrid" 0.93;
        annotated 4 "OAT MILK 1L" "emb_4" "fuzzy_embedding" 0.8;
        annotated 5 "OAT DRINK 1L" "emb_4" "fuzzy_embedding" 0.8;
        annotated 6 "SEA SALT 500G" "emb_6" "fuzzy_embedding" 0.85;
        annotated 7 "SEA SALT FINE 500G" "emb_6" "fuzzy_embedding" 0.85].

(** The frame above without the last four rows: only labels that the
    earlier stages produce. *)
Definition produced_frame : DataFrame :=
  mkDF (columns mixed_frame) (take 4 (rows mixed_frame)).

(** An adjudicator whose call raises for one prompt and answers otherwise. *)
Definition fails_on (p answer : string) : string → option string :=
  λ q, if String.eqb q p then None else Some answer.

(** A frame for the exact matcher: a shared item code, a shared barcode
    among records without item code, and a record without keys. *)
Definition keyed_frame : DataFrame :=
  mkDF ["item_code"; "barcode"; "DESCR"; "DESCR60"]
       [mkRow 0 (Some "A7") (Some "590") (Some "tea") None None None nan None;
        mkRow 1 (Some "A7") None (Some "tea bags") None None None nan None;
        mkRow 2 None (Some "401") (Some "salt") None None None nan None;
        mkRow 3 None (Some "401") (Some "sea salt") None None None nan None;
        mkRow 4 None None (Some "rice") None None None nan None].

(** The prompts sent for the first group of each kind. *)
Definition rerank_prompt_0 : string :=
  CrossEncoderRerankerStep.prompt mixed_frame (rerank_group mixed_frame "fuzzy_0").

Definition llm_prompt_4 : string :=
  LLMAssistedStep.prompt mixed_frame (llm_group mixed_frame "emb_4").

End Examples.

(** * Further vocabulary *)

(** The source fields of a record: label, keys and descriptions. *)
Definition same_record (r r' : Row) : Prop :=
  name r' = name r ∧ item_code r' = item_code r ∧ barcode r' = barcode r ∧
  DESCR r' = DESCR r ∧ DESCR60 r' = DESCR60 r.

(** The record keeps its group or loses it; it never enters another one. *)
Definition group_kept_or_cleared (r r' : Row) : Prop :=
  group_id r' = group_id r ∨ group_id r' = None.

(** The stages that follow the similarity stage, with the final cleanup. *)
Definition adjudicate (rerank_generate : string → option string)
    (parse_float : string → option float) (llm_generate : string → option string)
    (d : DataFrame) : Result DataFrame :=
  d ← CrossEncoderRerankerStep.process rerank_generate parse_float d;
  d ← LLMAssistedStep.process llm_generate d;
  d ← HumanReviewStep.process d;
  Ok (DedupAgent.final_cleanup d).

(** The ungrouped rows that the similarity stage works on (line 86). *)
Definition ungrouped (d : DataFrame) : list Row :=
  select (λ r, bool_decide (group_id r = None)) d.

(** The label of row [j] of [remaining] is the label of [r]. *)
Definition partner_label (remaining : list Row) (j : nat) (r : Row) : Prop :=
  ∃ rj, remaining !! j = Some rj ∧ name rj = name r.

(** No confirmed pair of the trace has a partner carrying the label of [r]. *)
Definition never_partner (remaining : list Row) (tr : list (nat * nat)) (r : Row)
    : Prop :=
  ∀ a j, (a, j) ∈ tr → ¬ partner_label remaining j r.

(** What the similarity stage may do to a row, given the final trace: the
    label stays, and a row that is never a partner keeps its [group_id] and
    [match_type]. *)
Definition written_only_as_partner (remaining : list Row) (tr : list (nat * nat))
    (r r' : Row) : Prop :=
  name r' = name r ∧
  (never_partner remaining tr r →
   group_id r' = group_id r ∧ match_type r' = match_type r).

(** A row labelled [fuzzy_hybrid] is in a group, with a confidence above the
    threshold. *)
Definition fuzzy_label_sound (threshold : float) (r : Row) : Prop :=
  match_type r = Some "fuzzy_hybrid" →
  (threshold <? confidence r)%float = true ∧ is_Some (group_id r).


(** ** Normal forms of [normalize_text] *)

(** Every character of the string satisfies [p]. *)
Fixpoint all_chars (p : ascii → bool) (s : string) : bool :=
  match s with
  | EmptyString => true
  | String c s' => p c && all_chars p s'
  end.

(** The characters that [normalize_text] keeps inside a word. *)
Definition word_char (c : ascii) : bool := Py.islower c || Py.isdigit c.

(** A non-empty run of lower-case letters and digits. *)
Definition is_word (w : string) : Prop :=
  w ≠ EmptyString ∧ all_chars word_char w = true.

(** The texts that the similarity stage embeds (lines 86-95). *)
Definition embedded_texts (d : DataFrame) : list string :=
  FuzzyMatchStep.norm_descr <$> ungrouped d.

(** Every non-null [group_id] of the frame is carried by at least two rows. *)
Definition no_singleton_group (d : DataFrame) : Prop :=
  ∀ r g, r ∈ rows d → group_id r = Some g → (2 ≤ DedupAgent.value_count d g)%nat.

(** A record that is in a group at the left keeps that group and its
    label at the right. *)
Definition group_final (r r' : Row) : Prop :=
  is_Some (group_id r) →
  group_id r' = group_id r ∧ match_type r' = match_type r.

(** The same for the records that the Reranker does not look at. *)
Definition exact_kept (r r' : Row) : Prop :=
  name r' = name r ∧
  (is_Some (group_id r) → match_type r ≠ Some "fuzzy_hybrid" →
   group_id r' = group_id r ∧ match_type r' = match_type r).

(** * The HTTP service

    [backend/services/bigquery_service.py] and the endpoint
    [/api/dedup/trigger] of [backend/main.py].  The BigQuery client is an
    external collaborator: a call that raises is modelled by [None], and the
    exception it raises by [CollaboratorError].  The load jobs that the
    service submits are recorded in a log. *)

Module BigQueryService.

(** Line 8: [project_id or os.getenv("GOOGLE_CLOUD_PROJECT",
    "crown-cdw-intelia-dev")]; [env] is the value of the environment
    variable, if it is set. *)
Definition resolve_project (project_id env : option string) : string :=
  let from_env := default "crown-cdw-intelia-dev" env in
  match project_id with
  | Some p => if bool_decide (p = EmptyString) then from_env else p
  | None => from_env
  end.

Definition table_path (project dataset_id table_id : string) : string :=
  project +:+ "." +:+ dataset_id +:+ "." +:+ table_id.

(** The load jobs submitted so far: destination and content. *)
Definition Loads : Type := list (string * DataFrame).

Section Client.
(** [self.client.query(query).to_dataframe()] *)
Variable client_query : string → option DataFrame.
(** [self.client.load_table_from_dataframe(df, path, job_config=None)]
    followed by [.result()] *)
Variable client_load : DataFrame → string → option unit.

(** Lines 12-15. *)
Definition fetch_data (project dataset_id table_id : string) (limit : option nat)
    : Result DataFrame :=
  let limit_clause :=
    match limit with
    | Some n => if bool_decide (n = 0%nat) then EmptyString
                else " LIMIT " +:+ Py.str_of_nat n
    | None => EmptyString
    end in
  let query :=
    "SELECT * FROM `" +:+ table_path project dataset_id table_id +:+ "`"
      +:+ limit_clause in
  match client_query query with
  | Some df => Ok df
  | None => Raise CollaboratorError
  end.

(** Lines 17-32. *)
Definition update_dedup_results (project dataset_id table_id : string)
    (results_df : DataFrame) : Loads * Result string :=
  let output_table_id := table_id +:+ "_dedup_results" in
  let full_table_path := table_path project dataset_id output_table_id in
  ([(full_table_path, results_df)],
   match client_load results_df full_table_path with
   | Some _ => Ok full_table_path
   | None => Raise CollaboratorError
   end).
End Client.

End BigQueryService.

Module Api.

(** Lines 38-40. *)
Record DedupRequest := mkDedupRequest {
  dataset_id : string;
  table_id : string;
}.

(** What the endpoint answers: the success body of lines 57-62 (its
    constant fields [status] and [v] left out), or the [HTTPException] of
    line 69, whose detail is the text of the exception caught. *)
Inductive Response :=
  | Success (processed_count : nat) (output_table : string)
  | HTTPException (status_code : nat) (detail : Exception).

Section Endpoint.
Context {Embedding : Type}.
(** The environment variable [GOOGLE_CLOUD_PROJECT]. *)
Variable env_project : option string.
(** [bigquery.Client(project=...)] in the constructor of the service. *)
Variable client_connect : string → option unit.
Variable client_query : string → option DataFrame.
Variable client_load : DataFrame → string → option unit.
Variable model_get_embeddings : list string → option (list Embedding).
Variable cosine : Embedding → Embedding → float.
Variable rerank_generate : string → option string.
Variable parse_float : string → option float.
Variable llm_generate : string → option string.

(** Lines 43-69. *)
Definition trigger_dedup (request : DedupRequest)
    : BigQueryService.Loads * Response :=
  let project := BigQueryService.resolve_project None env_project in
  match client_connect project with
  | None => ([], HTTPException 500 CollaboratorError)
  | Some _ =>
      match BigQueryService.fetch_data client_query project
              (dataset_id request) (table_id request) None with
      | Raise e => ([], HTTPException 500 e)
      | Ok df =>
          match DedupAgent.run model_get_embeddings cosine rerank_generate
                  parse_float llm_generate df with
          | Raise e => ([], HTTPException 500 e)
          | Ok result_df =>
              let '(loads, written) :=
                BigQueryService.update_dedup_results client_load project
                  (dataset_id request) (table_id request) result_df in
              match written with
              | Ok output_table =>
                  (loads, Success (length (rows result_df)) output_table)
              | Raise e => (loads, HTTPException 500 e)
              end
          end
      end
  end.
End Endpoint.

End Api.

(** * More concrete frames and collaborators *)

Module MoreExamples.

(** Two records that have nothing in common. *)
Definition distinct_frame : DataFrame :=
  mkDF ["item_code"; "DESCR"; "DESCR60"]
       [Examples.item 0 (Some "A1") "red apple";
        Examples.item 1 (Some "B2") "green pear"].

(** Two records sharing an item code, and two records whose descriptions
    normalize to the same text. *)
Definition keys_and_names_frame : DataFrame :=
  mkDF ["item_code"; "DESCR"; "DESCR60"]
       [Examples.item 0 (Some "A7") "tea";
        Examples.item 1 (Some "A7") "tea bags";
        Examples.item 2 (Some "B1") "Monin Lavender 700ML";
        Examples.item 3 (Some "B2") "MONIN  lavender, 700ml"].

(** An embedding collaborator that answers each text with its length. *)
Definition text_lengths (texts : list string) : option (list nat) :=
  Some (String.length <$> texts).

(** A similarity matrix for two texts. *)
Definition two_by_two : list (list float) :=
  [[1%float; 0.95%float]; [0.95%float; 1%float]].

(** An embedding collaborator that is down. *)
Definition no_embeddings (texts : list string) : option (list string) := None.

(** A warehouse that holds one table and accepts every load. *)
Definition one_table (df : DataFrame) (query : string) : option DataFrame :=
  if bool_decide (query = "SELECT * FROM `crown-cdw-intelia-dev.fnb.items`")
  then Some df else None.

Definition accept_load (df : DataFrame) (path : string) : option unit := Some ().

Definition connect (project : string) : option unit := Some ().

Definition request : Api.DedupRequest := Api.mkDedupRequest "fnb" "items".

End MoreExamples.
(** * Properties *)

(** ** Frames as row maps *)

Lemma has_col_map_rows c f d : has_col c (map_rows f d) = has_col c d.
Proof. reflexivity. Qed.

Lemma map_rows_compose f g d : map_rows f (map_rows g d) = map_rows (f ∘ g) d.
Proof. unfold map_rows; simpl. by rewrite <- list_fmap_compose. Qed.

Lemma add_col_has c fill d : has_col c d = true → add_col c fill d = d.
Proof. unfold add_col. by intros ->. Qed.

Lemma has_col_add_col c fill d : has_col c (add_col c fill d) = true.
Proof.
  unfold add_col. destruct (has_col c d) eqn:E; [done|].
  unfold has_col; simpl. apply bool_decide_eq_true. set_solver.
Qed.

Lemma has_col_add_col_mono c c' fill d :
  has_col c d = true → has_col c (add_col c' fill d) = true.
Proof.
  unfold add_col. destruct (has_col c' d); [done|].
  unfold has_col; simpl. rewrite !bool_decide_eq_true. set_solver.
Qed.

Lemma rows_add_col c fill d :
  rows (add_col c fill d) = (if has_col c d then id else fill) <$> rows d.
Proof.
  unfold add_col. destruct (has_col c d); simpl; [|done].
  by rewrite list_fmap_id.
Qed.

Lemma loc_set_has idx c fill upd d :
  has_col c d = true →
  loc_set idx c fill upd d
  = map_rows (λ r, if bool_decide (name r ∈ idx) then upd r else r) d.
Proof. intros H. unfold loc_set. by rewrite add_col_has. Qed.

Lemma has_col_loc_set_mono c idx c' fill upd d :
  has_col c d = true → has_col c (loc_set idx c' fill upd d) = true.
Proof. intros H. unfold loc_set, has_col; simpl. by apply has_col_add_col_mono. Qed.

Lemma zip_with_fmap_same {A B C D} (g : B → C → D) (f : A → B) (h : A → C) l :
  zip_with g (f <$> l) (h <$> l) = (λ a, g (f a) (h a)) <$> l.
Proof. induction l; simpl; [done|]. by f_equal. Qed.

Lemma rows_mask_set (m : Row → bool) l c fill upd d :
  rows d = l →
  rows (mask_set (m <$> l) c fill upd d)
  = (λ r, let r' := (if has_col c d then id else fill) r in
          if m r then upd r' else r') <$> l.
Proof.
  intros <-. unfold mask_set; simpl. rewrite rows_add_col.
  by rewrite zip_with_fmap_same.
Qed.

Lemma has_col_mask_set_mono c mask c' fill upd d :
  has_col c d = true → has_col c (mask_set mask c' fill upd d) = true.
Proof. intros H. unfold mask_set, has_col; simpl. by apply has_col_add_col_mono. Qed.

Lemma for_each_app {A S} (body : S → A → Result S) s l1 l2 :
  for_each body s (l1 ++ l2) = (s' ← for_each body s l1; for_each body s' l2).
Proof.
  revert s. induction l1 as [|a l1 IH]; intros s; simpl; [done|].
  destruct (body s a); simpl; [apply IH|done].
Qed.

Lemma for_each_ext {A S} (f g : S → A → Result S) s l :
  (∀ s a, a ∈ l → f s a = g s a) → for_each f s l = for_each g s l.
Proof.
  revert s. induction l as [|a l IH]; intros s H; simpl; [done|].
  rewrite H by set_solver. destruct (g s a); simpl; [|done].
  apply IH. intros; apply H; set_solver.
Qed.

(** ** The final cleanup (GroupSanitizer) *)

Lemma rows_final_cleanup d :
  has_col "group_id" d = true →
  existsb id (singleton_in d <$> rows d) = true →
  rows (DedupAgent.final_cleanup d) = cleaned d <$> rows d.
Proof.
  intros Hg Hex. unfold DedupAgent.final_cleanup. rewrite Hg.
  change (λ r, match group_id r with
               | Some g => bool_decide (DedupAgent.value_count d g = 1%nat)
               | None => false end) with (singleton_in d).
  rewrite Hex.
  set (d1 := mask_set _ "group_id" _ _ d).
  assert (Hr1 : rows d1 = (λ r, if singleton_in d r then set_group_id None r else r)
                          <$> rows d).
  { unfold d1. rewrite (rows_mask_set (singleton_in d) (rows d)) by done.
    rewrite Hg. done. }
  unfold mask_set at 1. cbn [rows]. rewrite rows_add_col, Hr1.
  rewrite <- list_fmap_compose.
  rewrite zip_with_fmap_same. apply list_fmap_ext. intros i r _.
  unfold cleaned; simpl.
  replace (has_col "match_type" d1) with (has_col "match_type" d); [done|].
  unfold d1, mask_set. by rewrite add_col_has.
Qed.

Lemma existsb_singleton_false d r :
  existsb id (singleton_in d <$> rows d) = false →
  r ∈ rows d → singleton_in d r = false.
Proof.
  intros H Hr. destruct (singleton_in d r) eqn:E; [|done].
  assert (existsb id (singleton_in d <$> rows d) = true); [|congruence].
  apply existsb_exists. exists true. split; [|done].
  apply list_elem_of_In, list_elem_of_fmap. eauto.
Qed.

Lemma group_id_cleaned d r :
  group_id (cleaned d r) = if singleton_in d r then None else group_id r.
Proof.
  unfold cleaned. destruct (singleton_in d r), (has_col "match_type" d); done.
Qed.

Lemma value_count_fmap (f : Row → Row) l g :
  (∀ r, r ∈ l → group_id r = Some g → group_id (f r) = Some g) →
  (∀ r, r ∈ l → group_id (f r) = Some g → group_id r = Some g) →
  length (filter (λ r, group_id r = Some g) (f <$> l))
  = length (filter (λ r, group_id r = Some g) l).
Proof.
  induction l as [|r l IH]; intros H1 H2; simpl; [done|].
  rewrite !filter_cons.
  destruct (decide (group_id (f r) = Some g)) as [E|E],
           (decide (group_id r = Some g)) as [E'|E']; simpl.
  - f_equal. apply IH; intros; [apply H1|apply H2]; set_solver.
  - exfalso. apply E', H2; set_solver.
  - exfalso. apply E, H1; set_solver.
  - apply IH; intros; [apply H1|apply H2]; set_solver.
Qed.

Lemma value_count_pos d r g :
  r ∈ rows d → group_id r = Some g → (1 ≤ DedupAgent.value_count d g)%nat.
Proof.
  intros Hr Hg. unfold DedupAgent.value_count.
  assert (r ∈ filter (λ r, group_id r = Some g) (rows d)) as Hin
    by (apply list_elem_of_filter; done).
  destruct (filter _ (rows d)); [set_solver|simpl; lia].
Qed.
(** ** Stages rewrite annotations in place *)

Lemma row_step_refl r : row_step r r.
Proof. by repeat split. Qed.

Lemma row_step_trans r1 r2 r3 : row_step r1 r2 → row_step r2 r3 → row_step r1 r3.
Proof.
  intros (?&?&?&?&?&?&?) (?&?&?&?&?&?&?).
  repeat split; try congruence; auto.
Qed.

Lemma frame_step_refl d : frame_step d d.
Proof. split; [done|]. apply Forall2_same_length_lookup_2; [done|].
  intros i r r' ? ?. simplify_eq. apply row_step_refl. Qed.

Lemma frame_step_trans d1 d2 d3 : frame_step d1 d2 → frame_step d2 d3 → frame_step d1 d3.
Proof.
  intros [H1 F1] [H2 F2]. split; [auto|].
  eapply Forall2_trans; [|done..]. apply row_step_trans.
Qed.

Lemma row_step_set_group_id v r : row_step r (set_group_id v r).
Proof. by repeat split. Qed.

Lemma row_step_set_confidence v r : row_step r (set_confidence v r).
Proof. by repeat split. Qed.

Lemma row_step_set_match_type v r :
  v ≠ Some "fuzzy_embedding" → row_step r (set_match_type v r).
Proof. by repeat split. Qed.

Lemma frame_step_fmap (f : Row → Row) cs cs' l :
  (∀ c, c ∈ cs → c ∈ cs') → (∀ r, row_step r (f r)) →
  frame_step (mkDF cs l) (mkDF cs' (f <$> l)).
Proof.
  intros Hc Hf. split.
  - intros c. unfold has_col; simpl. rewrite !bool_decide_eq_true. auto.
  - simpl. apply Forall2_fmap_r, Forall2_same_length_lookup_2; [done|].
    intros i r r' ? ?. simplify_eq. apply Hf.
Qed.

Lemma frame_step_add_col c fill d :
  (∀ r, row_step r (fill r)) → frame_step d (add_col c fill d).
Proof.
  intros Hf. unfold add_col. destruct (has_col c d); [apply frame_step_refl|].
  destruct d as [cs l]. apply frame_step_fmap; [set_solver|done].
Qed.

Lemma frame_step_loc_set idx c fill upd d :
  (∀ r, row_step r (fill r)) → (∀ r, row_step r (upd r)) →
  frame_step d (loc_set idx c fill upd d).
Proof.
  intros Hf Hu. eapply frame_step_trans; [apply (frame_step_add_col c fill), Hf|].
  unfold loc_set. destruct (add_col c fill d) as [cs l]. simpl.
  apply frame_step_fmap; [done|]. intros r. case_bool_decide; [apply Hu|apply row_step_refl].
Qed.

Lemma frame_step_fold_left {A} (body : DataFrame → A → DataFrame) l d :
  (∀ d a, frame_step d (body d a)) → frame_step d (fold_left body l d).
Proof.
  intros H. revert d. induction l as [|a l IH]; intros d; simpl.
  - apply frame_step_refl.
  - eapply frame_step_trans; [apply H|apply IH].
Qed.

Lemma for_each_invariant {A S} (R : S → S → Prop) (body : S → A → Result S) l s s' :
  (∀ s, R s s) → (∀ s1 s2 s3, R s1 s2 → R s2 s3 → R s1 s3) →
  (∀ s a s', body s a = Ok s' → R s s') →
  for_each body s l = Ok s' → R s s'.
Proof.
  intros Hrefl Htrans Hbody. revert s. induction l as [|a l IH]; intros s; simpl.
  - intros [= <-]. apply Hrefl.
  - destruct (body s a) as [s1|] eqn:E; simpl; [|done].
    intros H. eapply Htrans; [by eapply Hbody|by apply IH].
Qed.

Local Ltac solve_row_step :=
  first [ apply row_step_set_group_id | apply row_step_set_confidence
        | apply row_step_set_match_type; discriminate ].

Lemma frame_step_assign_groups pfx mt groups d :
  mt ≠ "fuzzy_embedding" →
  frame_step d (ExactMatchStep.assign_groups pfx mt groups d).
Proof.
  intros Hmt. unfold ExactMatchStep.assign_groups.
  apply frame_step_fold_left. intros d' [k g].
  eapply frame_step_trans; apply frame_step_loc_set; intros r;
    try solve_row_step. apply row_step_set_match_type. congruence.
Qed.

Lemma frame_step_item_pass d : frame_step d (ExactMatchStep.item_pass d).
Proof.
  unfold ExactMatchStep.item_pass.
  destruct (has_col "item_code" d); [|apply frame_step_refl].
  by apply frame_step_assign_groups.
Qed.

Lemma frame_step_barcode_pass d : frame_step d (ExactMatchStep.barcode_pass d).
Proof.
  unfold ExactMatchStep.barcode_pass.
  destruct (has_col "barcode" d); [|apply frame_step_refl].
  by apply frame_step_assign_groups.
Qed.

Lemma frame_step_ensure_columns d : frame_step d (ExactMatchStep.ensure_columns d).
Proof.
  unfold ExactMatchStep.ensure_columns.
  eapply frame_step_trans; apply frame_step_add_col; intros; solve_row_step.
Qed.

Lemma has_col_ensure_columns d :
  has_col "group_id" (ExactMatchStep.ensure_columns d) = true ∧
  has_col "match_type" (ExactMatchStep.ensure_columns d) = true.
Proof.
  unfold ExactMatchStep.ensure_columns. split.
  - apply has_col_add_col_mono, has_col_add_col.
  - apply has_col_add_col.
Qed.

Lemma frame_step_exact d : frame_step d (ExactMatchStep.process d).
Proof.
  unfold ExactMatchStep.process.
  eapply frame_step_trans; [|apply frame_step_barcode_pass].
  eapply frame_step_trans; [|apply frame_step_item_pass].
  apply frame_step_ensure_columns.
Qed.

Lemma has_col_exact d :
  has_col "group_id" (ExactMatchStep.process d) = true ∧
  has_col "match_type" (ExactMatchStep.process d) = true.
Proof.
  unfold ExactMatchStep.process.
  destruct (has_col_ensure_columns d) as [H1 H2].
  assert (F : frame_step (ExactMatchStep.ensure_columns d)
                (ExactMatchStep.barcode_pass
                   (ExactMatchStep.item_pass (ExactMatchStep.ensure_columns d)))).
  { eapply frame_step_trans; [apply frame_step_item_pass|apply frame_step_barcode_pass]. }
  split; by apply F.
Qed.

Section FuzzyFrame.
  Context {Embedding : Type}.
  Variable model_get_embeddings : list string → option (list Embedding).
  Variable cosine : Embedding → Embedding → float.
  Variable threshold : float.

Lemma frame_step_candidate remaining texts a sim_row st j st' :
  FuzzyMatchStep.candidate threshold remaining texts a sim_row st j = Ok st' →
  frame_step (FuzzyMatchStep.df st) (FuzzyMatchStep.df st').
Proof.
  unfold FuzzyMatchStep.candidate. case_bool_decide.
  { intros [= <-]. apply frame_step_refl. }
  unfold at_index.
  destruct (texts !! a); simpl; [|done].
  destruct (texts !! j); simpl; [|done].
  destruct (sim_row !! j); simpl; [|done].
  destruct (PrimFloat.ltb _ _).
  2:{ intros [= <-]. apply frame_step_refl. }
  destruct (remaining !! a); simpl; [|done].
  destruct (remaining !! j); simpl; [|done].
  intros [= <-]. simpl. unfold FuzzyMatchStep.assign.
  eapply frame_step_trans; [|apply frame_step_loc_set; intros; solve_row_step].
  eapply frame_step_trans; apply frame_step_loc_set; intros; solve_row_step.
Qed.

Lemma frame_step_anchor_row remaining texts st a sim_row st' :
  FuzzyMatchStep.anchor_row threshold remaining texts st a sim_row = Ok st' →
  frame_step (FuzzyMatchStep.df st) (FuzzyMatchStep.df st').
Proof.
  unfold FuzzyMatchStep.anchor_row. case_bool_decide.
  { intros [= <-]. apply frame_step_refl. }
  apply (for_each_invariant
           (λ s s', frame_step (FuzzyMatchStep.df s) (FuzzyMatchStep.df s'))).
  - intros; apply frame_step_refl.
  - intros; by eapply frame_step_trans.
  - intros; by eapply frame_step_candidate.
Qed.

Lemma frame_step_chunks remaining texts embeddings chunk_size st st' :
  FuzzyMatchStep.chunks cosine threshold remaining texts embeddings chunk_size st = Ok st' →
  frame_step (FuzzyMatchStep.df st) (FuzzyMatchStep.df st').
Proof.
  unfold FuzzyMatchStep.chunks.
  apply (for_each_invariant
           (λ s s', frame_step (FuzzyMatchStep.df s) (FuzzyMatchStep.df s'))).
  - intros; apply frame_step_refl.
  - intros; by eapply frame_step_trans.
  - intros s i s'. unfold FuzzyMatchStep.chunk.
    apply (for_each_invariant
             (λ s s', frame_step (FuzzyMatchStep.df s) (FuzzyMatchStep.df s'))).
    + intros; apply frame_step_refl.
    + intros; by eapply frame_step_trans.
    + intros s1 r s2. destruct (at_index _ r); simpl; [|done].
      apply frame_step_anchor_row.
Qed.

Lemma frame_step_fuzzy_chunked c d st :
  FuzzyMatchStep.process_chunked model_get_embeddings cosine threshold c d = Ok st →
  frame_step d (FuzzyMatchStep.df st).
Proof.
  unfold FuzzyMatchStep.process_chunked. case_bool_decide.
  { intros [= <-]. apply frame_step_refl. }
  destruct (has_col "DESCR" d); simpl; [|done].
  destruct (has_col "DESCR60" d); simpl; [|done].
  destruct (FuzzyMatchStep._get_embeddings _ _); simpl; [|done].
  intros Hc. by apply frame_step_chunks in Hc.
Qed.

Lemma frame_step_fuzzy d d' :
  FuzzyMatchStep.process model_get_embeddings cosine threshold d = Ok d' →
  frame_step d d'.
Proof.
  unfold FuzzyMatchStep.process.
  destruct (FuzzyMatchStep.process_chunked _ _ _ _ _) as [st|] eqn:E; simpl; [|done].
  intros [= <-]. by eapply frame_step_fuzzy_chunked.
Qed.
End FuzzyFrame.

Lemma frame_step_rerank gc pf d d' :
  CrossEncoderRerankerStep.process gc pf d = Ok d' → frame_step d d'.
Proof.
  unfold CrossEncoderRerankerStep.process.
  destruct (_ || _). { intros [= <-]. apply frame_step_refl. }
  destruct (has_col "confidence" d); simpl; [|done].
  case_bool_decide. { intros [= <-]. apply frame_step_refl. }
  intros [= <-]. apply frame_step_fold_left. intros d1 g.
  unfold CrossEncoderRerankerStep.group_body.
  case_bool_decide; [apply frame_step_refl|].
  destruct (gc _); [|apply frame_step_refl].
  destruct (pf _); [|apply frame_step_refl].
  unfold CrossEncoderRerankerStep.apply_score.
  destruct (PrimFloat.ltb _ _).
  - eapply frame_step_trans; [|apply frame_step_loc_set; intros; solve_row_step].
    eapply frame_step_trans; apply frame_step_loc_set; intros; solve_row_step.
  - eapply frame_step_trans; apply frame_step_loc_set; intros; solve_row_step.
Qed.

Lemma frame_step_llm gc d d' :
  LLMAssistedStep.process gc d = Ok d' → frame_step d d'.
Proof.
  unfold LLMAssistedStep.process.
  destruct (_ || _). { intros [= <-]. apply frame_step_refl. }
  destruct (has_col "match_type" d); simpl; [|done].
  case_bool_decide. { intros [= <-]. apply frame_step_refl. }
  intros [= <-]. apply frame_step_fold_left. intros d1 g.
  unfold LLMAssistedStep.group_body.
  case_bool_decide; [apply frame_step_refl|].
  destruct (gc _); [|apply frame_step_refl].
  unfold LLMAssistedStep.apply_answer.
  destruct (Py.contains _ _).
  - apply frame_step_loc_set; intros; solve_row_step.
  - eapply frame_step_trans; apply frame_step_loc_set; intros; solve_row_step.
Qed.

Lemma cleanup_lookup d i r :
  has_col "group_id" d = true → rows d !! i = Some r →
  ∃ r', rows (DedupAgent.final_cleanup d) !! i = Some r' ∧
        group_id r' = (if singleton_in d r then None else group_id r) ∧
        (singleton_in d r = true → match_type r' = None).
Proof.
  intros Hg Hi.
  destruct (existsb id (singleton_in d <$> rows d)) eqn:Hex.
  - exists (cleaned d r). rewrite rows_final_cleanup by done.
    rewrite list_lookup_fmap, Hi. split; [done|]. split; [apply group_id_cleaned|].
    intros Hs. unfold cleaned. by rewrite Hs.
  - assert (DedupAgent.final_cleanup d = d) as ->.
    { unfold DedupAgent.final_cleanup. rewrite Hg.
      change (λ r, match group_id r with
                   | Some g => bool_decide (DedupAgent.value_count d g = 1%nat)
                   | None => false end) with (singleton_in d).
      by rewrite Hex. }
    exists r. split; [done|].
    rewrite (existsb_singleton_false d r Hex); [done|].
    by eapply list_elem_of_lookup_2.
Qed.

Lemma cleanup_no_singletons d r g :
  has_col "group_id" d = true →
  r ∈ rows (DedupAgent.final_cleanup d) → group_id r = Some g →
  (2 ≤ DedupAgent.value_count (DedupAgent.final_cleanup d) g)%nat.
Proof.
  intros Hg Hr Hgid.
  assert (Hcount : ∀ r0, r0 ∈ rows d → group_id r0 = Some g →
                         singleton_in d r0 = false →
                         (2 ≤ DedupAgent.value_count d g)%nat).
  { intros r0 Hr0 Hg0 Hs. pose proof (value_count_pos d r0 g Hr0 Hg0).
    unfold singleton_in in Hs. rewrite Hg0 in Hs.
    apply bool_decide_eq_false in Hs. lia. }
  destruct (existsb id (singleton_in d <$> rows d)) eqn:Hex.
  - pose proof (rows_final_cleanup d Hg Hex) as Hrows.
    rewrite Hrows in Hr. apply list_elem_of_fmap in Hr as (r0 & -> & Hr0).
    rewrite group_id_cleaned in Hgid.
    destruct (singleton_in d r0) eqn:Hs; [done|].
    pose proof (Hcount r0 Hr0 Hgid Hs) as H2.
    unfold DedupAgent.value_count at 1. rewrite Hrows.
    rewrite value_count_fmap; [done|..].
    + intros r1 Hr1 Hg1. rewrite group_id_cleaned.
      destruct (singleton_in d r1) eqn:Hs1; [|done]. exfalso.
      unfold singleton_in in Hs1. rewrite Hg1 in Hs1.
      apply bool_decide_eq_true in Hs1. lia.
    + intros r1 Hr1. rewrite group_id_cleaned.
      by destruct (singleton_in d r1).
  - assert (DedupAgent.final_cleanup d = d) as Heq.
    { unfold DedupAgent.final_cleanup. rewrite Hg.
      change (λ r, match group_id r with
                   | Some g => bool_decide (DedupAgent.value_count d g = 1%nat)
                   | None => false end) with (singleton_in d).
      by rewrite Hex. }
    rewrite Heq in *. apply (Hcount r); [done..|].
    by apply existsb_singleton_false.
Qed.

Lemma has_col_human_review c d d' :
  HumanReviewStep.process d = Ok d' → has_col c d = true → has_col c d' = true.
Proof.
  unfold HumanReviewStep.process.
  destruct (has_col "match_type" d); simpl; [|done].
  destruct (has_col "confidence" d); simpl; [|done].
  intros [= <-] Hc. by apply has_col_mask_set_mono.
Qed.

Section Run.
  Context {Embedding : Type}.
  Variable model_get_embeddings : list string → option (list Embedding).
  Variable cosine : Embedding → Embedding → float.
  Variable rerank_generate : string → option string.
  Variable parse_float : string → option float.
  Variable llm_generate : string → option string.

Local Abbreviation steps :=
    (DedupAgent.steps model_get_embeddings cosine rerank_generate parse_float llm_generate).
Local Abbreviation run :=
    (DedupAgent.run model_get_embeddings cosine rerank_generate parse_float llm_generate).

(** The frames between the stages of a run that reaches the review step. *)
Lemma steps_inv d pre :
  steps d = Ok pre →
  ∃ d2 d3 d4,
    FuzzyMatchStep.process model_get_embeddings cosine 0.90%float
      (ExactMatchStep.process d) = Ok d2 ∧
    CrossEncoderRerankerStep.process rerank_generate parse_float d2 = Ok d3 ∧
    LLMAssistedStep.process llm_generate d3 = Ok d4 ∧
    HumanReviewStep.process d4 = Ok pre.
Proof.
  unfold DedupAgent.steps.
  destruct (FuzzyMatchStep.process _ _ _ _) as [d2|]; simpl; [|done].
  destruct (CrossEncoderRerankerStep.process _ _ _) as [d3|] eqn:E3; simpl; [|done].
  destruct (LLMAssistedStep.process _ _) as [d4|] eqn:E4; simpl; [|done].
  intros H. by exists d2, d3, d4.
Qed.

Lemma steps_frame_step d pre :
  steps d = Ok pre →
  ∃ d4, frame_step d d4 ∧ HumanReviewStep.process d4 = Ok pre ∧
        has_col "group_id" d4 = true.
Proof.
  intros (d2 & d3 & d4 & H2 & H3 & H4 & H5)%steps_inv.
  apply frame_step_fuzzy in H2. apply frame_step_rerank in H3.
  apply frame_step_llm in H4.
  assert (F : frame_step (ExactMatchStep.process d) d4)
    by (eapply frame_step_trans; [|done]; by eapply frame_step_trans).
  exists d4. split; [|split; [done|]].
  - eapply frame_step_trans; [apply frame_step_exact|done].
  - apply F, has_col_exact.
Qed.

(** C1.  After a complete run, every record's [group_id] is null or held by at
    least two records, and every record whose [group_id] was held by it alone
    before the final cleanup ends with [group_id] and [match_type] null. *)
Theorem run_no_singleton_groups d out :
  run d = Ok out →
  (∀ r g, r ∈ rows out → group_id r = Some g →
          (2 ≤ DedupAgent.value_count out g)%nat) ∧
  ∃ pre, steps d = Ok pre ∧ out = DedupAgent.final_cleanup pre ∧
    ∀ i r, rows pre !! i = Some r → singleton_in pre r = true →
      ∃ r', rows out !! i = Some r' ∧ group_id r' = None ∧ match_type r' = None.
Proof.
  unfold DedupAgent.run.
  destruct (steps d) as [pre|] eqn:Hsteps; simpl; [|done].
  intros [= <-].
  destruct (steps_frame_step d pre Hsteps) as (d4 & _ & H5 & Hg4).
  assert (Hg : has_col "group_id" pre = true) by by eapply has_col_human_review.
  split.
  - intros r g. by apply cleanup_no_singletons.
  - exists pre. split; [done|]. split; [done|].
    intros i r Hi Hs.
    destruct (cleanup_lookup pre i r Hg Hi) as (r' & Hr' & Hgid & Hmt).
    exists r'. rewrite Hs in Hgid. auto.
Qed.
End Run.

(** ** Loops over groups *)

Lemma NoDup_fmap_elem_eq {A B} (f : A → B) (l : list A) x y :
  NoDup (f <$> l) → x ∈ l → y ∈ l → f x = f y → x = y.
Proof.
  induction l as [|a l IH]; simpl; [set_solver|].
  rewrite NoDup_cons. intros [Hn Hnd] Hx Hy Hf.
  apply elem_of_cons in Hx as [->|Hx]; apply elem_of_cons in Hy as [->|Hy]; auto.
  - exfalso. apply Hn. rewrite Hf. by apply list_elem_of_fmap_2.
  - exfalso. apply Hn. rewrite <- Hf. by apply list_elem_of_fmap_2.
Qed.

Lemma apply_hits_name {E} (idx : E → list nat) u es n r :
  (∀ e r, name (u e r) = name r) → name (apply_hits idx u es n r) = name r.
Proof.
  intros Hu. revert r. induction es as [|e es IH]; intros r; simpl; [done|].
  unfold apply_hits in *. simpl. rewrite IH. case_bool_decide; [apply Hu|done].
Qed.

(** A loop of label-indexed assignments acts row by row. *)
Lemma fold_left_loc_rows {E} (P : DataFrame → Prop) (idx : E → list nat)
    (u : E → Row → Row) (body : DataFrame → E → DataFrame) es d :
  (∀ e r, name (u e r) = name r) →
  (∀ f d, P d → P (map_rows f d)) →
  (∀ d e, P d →
     body d e = map_rows (λ r, if bool_decide (name r ∈ idx e) then u e r else r) d) →
  P d →
  fold_left body es d = map_rows (λ r, apply_hits idx u es (name r) r) d.
Proof.
  intros Hu HP Hbody. revert d. induction es as [|e es IH]; intros d Hd; simpl.
  - unfold map_rows. destruct d; simpl. by rewrite list_fmap_id.
  - rewrite Hbody by done. rewrite IH by by apply HP.
    rewrite map_rows_compose. unfold map_rows. f_equal.
    apply list_fmap_ext. intros i r _. simpl.
    case_bool_decide; [|done]. by rewrite Hu.
Qed.

(** When every entry that hits label [n] performs the same idempotent
    rewrite, the loop performs it once if some entry hits, else nothing. *)
Lemma apply_hits_same {E} (idx : E → list nat) (u : E → Row → Row) u0 es n r :
  (∀ e, e ∈ es → n ∈ idx e → u e = u0) →
  (∀ r, u0 (u0 r) = u0 r) →
  apply_hits idx u es n r
  = if existsb (λ e, bool_decide (n ∈ idx e)) es then u0 r else r.
Proof.
  intros Hsame Hidem. revert r. induction es as [|e es IH]; intros r; [done|].
  unfold apply_hits in *. simpl.
  rewrite IH by (intros; apply Hsame; set_solver).
  case_bool_decide as Hn; simpl; [|done].
  rewrite (Hsame e) by set_solver.
  destruct (existsb _ es); [apply Hidem|done].
Qed.

Lemma existsb_false_not_hit {E} (idx : E → list nat) (es : list E) n :
  existsb (λ e, bool_decide (n ∈ idx e)) es = false ↔ ∀ e, e ∈ es → n ∉ idx e.
Proof.
  rewrite <- not_true_iff_false, existsb_exists. split.
  - intros H e He Hn. apply H. exists e. split; [by apply list_elem_of_In|].
    by apply bool_decide_eq_true.
  - intros H (e & He%list_elem_of_In & Hn%bool_decide_eq_true). by eapply H.
Qed.

Lemma existsb_true_hit {E} (idx : E → list nat) (es : list E) n :
  existsb (λ e, bool_decide (n ∈ idx e)) es = true ↔ ∃ e, e ∈ es ∧ n ∈ idx e.
Proof.
  rewrite existsb_exists. split.
  - intros (e & He%list_elem_of_In & Hn%bool_decide_eq_true). eauto.
  - intros (e & He & Hn). exists e. split; [by apply list_elem_of_In|].
    by apply bool_decide_eq_true.
Qed.

(** *** [groupby] *)

Lemma elem_of_groupby key l k g :
  (k, g) ∈ groupby key l ↔
  g = filter (λ r, key r = Some k) l ∧ ∃ r, r ∈ l ∧ key r = Some k.
Proof.
  unfold groupby. rewrite list_elem_of_fmap. split.
  - intros (k' & [= -> ->] & Hk). split; [done|].
    rewrite merge_sort_Permutation, elem_of_remove_dups, list_elem_of_omap in Hk.
    done.
  - intros (-> & Hr). exists k. split; [done|].
    by rewrite merge_sort_Permutation, elem_of_remove_dups, list_elem_of_omap.
Qed.

(** Under unique labels, the label of a row of the frame is listed in a
    group exactly when the row itself belongs to the group. *)
Lemma name_in_group (rs l : list Row) (Q : Row → Prop) `{!∀ r, Decision (Q r)} r :
  NoDup (name <$> rs) → l ⊆ rs → r ∈ rs →
  name r ∈ name <$> filter Q l ↔ r ∈ l ∧ Q r.
Proof.
  intros Hnd Hsub Hr. rewrite list_elem_of_fmap. split.
  - intros (r0 & Hn & [HQ Hr0]%list_elem_of_filter).
    assert (r = r0) as -> by (eapply (NoDup_fmap_elem_eq name); eauto).
    done.
  - intros [Hl HQ]. exists r. split; [done|]. by apply list_elem_of_filter.
Qed.

Lemma duplicated_distinct key (l : list Row) r1 r2 :
  r1 ∈ l → r2 ∈ l → r1 ≠ r2 → key r1 = key r2 → duplicated key l r1 = true.
Proof.
  intros H1 H2 Hne Hk. unfold duplicated. apply bool_decide_eq_true.
  assert (I1 : r1 ∈ filter (λ r', key r' = key r1) l) by by apply list_elem_of_filter.
  assert (I2 : r2 ∈ filter (λ r', key r' = key r1) l) by by apply list_elem_of_filter.
  destruct (filter _ l) as [|a [|b t]]; simpl; [set_solver| |lia].
  apply list_elem_of_singleton in I1, I2. congruence.
Qed.

(** ** ExactMatcher *)

Lemma map_rows_ext f g d :
  (∀ r, r ∈ rows d → f r = g r) → map_rows f d = map_rows g d.
Proof.
  intros H. unfold map_rows. f_equal. apply list_fmap_ext.
  intros i r Hi. apply H. by eapply list_elem_of_lookup_2.
Qed.

Lemma exact_upd_idem pfx mt k r :
  exact_upd pfx mt k (exact_upd pfx mt k r) = exact_upd pfx mt k r.
Proof. done. Qed.

Lemma assign_groups_rows key pfx mt (P : Row → bool) d :
  NoDup (name <$> rows d) →
  has_col "group_id" d = true → has_col "match_type" d = true →
  let l := filter (λ r, P r = true) (rows d) in
  ExactMatchStep.assign_groups pfx mt
    (groupby key (filter (λ r, duplicated key l r = true) l)) d
  = map_rows (exact_row key pfx mt P d) d.
Proof.
  intros Hnd Hg Hm l. unfold ExactMatchStep.assign_groups.
  set (dupes := filter (λ r, duplicated key l r = true) l).
  rewrite (fold_left_loc_rows
             (λ d, has_col "group_id" d = true ∧ has_col "match_type" d = true)
             (λ e, name <$> e.2) (λ e, exact_upd pfx mt e.1)); [|done| |  |done].
  2:{ intros f d' [??]. by rewrite !has_col_map_rows. }
  2:{ intros d' [k g] [Hg' Hm']. simpl.
      rewrite (loc_set_has _ "group_id") by done.
      rewrite (loc_set_has _ "match_type") by by rewrite has_col_map_rows.
      rewrite map_rows_compose. apply map_rows_ext. intros r _. simpl.
      destruct (bool_decide (name r ∈ name <$> g)) eqn:E; simpl; by rewrite E. }
  apply map_rows_ext. intros r Hr.
  assert (Hsub : dupes ⊆ rows d).
  { intros x [_ [_ Hx]%list_elem_of_filter]%list_elem_of_filter. done. }
  assert (Hhit : ∀ k g, (k, g) ∈ groupby key dupes →
            name r ∈ name <$> g ↔ r ∈ dupes ∧ key r = Some k).
  { intros k g [-> _]%elem_of_groupby. by apply (name_in_group (rows d)). }
  assert (Hdupes : r ∈ dupes ↔ P r = true ∧ duplicated key l r = true).
  { unfold dupes, l. rewrite !list_elem_of_filter. tauto. }
  rewrite (apply_hits_same _ _
             (match key r with Some k => exact_upd pfx mt k | None => id end)).
  2:{ intros [k g] He Hn. apply (Hhit k g He) in Hn as [_ ->]. done. }
  2:{ intros r'. destruct (key r); [apply exact_upd_idem|done]. }
  unfold exact_row. fold l.
  destruct (key r) as [k|] eqn:Hk.
  - destruct (P r && duplicated key l r) eqn:Hd.
    + replace (existsb _ _) with true; [done|]. symmetry.
      apply existsb_true_hit. apply andb_true_iff, Hdupes in Hd.
      exists (k, filter (λ r, key r = Some k) dupes). split.
      * apply elem_of_groupby. eauto.
      * simpl. apply (Hhit k); [apply elem_of_groupby; eauto|done].
    + replace (existsb _ _) with false; [done|]. symmetry.
      apply existsb_false_not_hit. intros [k' g] He Hn.
      apply (Hhit k' g He) in Hn as [Hn _].
      apply Hdupes, andb_true_iff in Hn. congruence.
  - by destruct (existsb _ _).
Qed.

Lemma filter_true_id {A} (l : list A) : filter (λ _, true = true) l = l.
Proof.
  induction l as [|a l IH]; [done|]. rewrite filter_cons_True by done. by f_equal.
Qed.

Lemma item_pass_rows d :
  NoDup (name <$> rows d) →
  has_col "group_id" d = true → has_col "match_type" d = true →
  has_col "item_code" d = true →
  ExactMatchStep.item_pass d
  = map_rows (exact_row item_code "exact_item_" "exact_item_code" (λ _, true) d) d.
Proof.
  intros Hnd Hg Hm Hi. unfold ExactMatchStep.item_pass. rewrite Hi.
  pose proof (assign_groups_rows item_code "exact_item_" "exact_item_code"
                (λ _, true) d Hnd Hg Hm) as H.
  simpl in H. by rewrite filter_true_id in H.
Qed.

Lemma barcode_pass_rows d :
  NoDup (name <$> rows d) →
  has_col "group_id" d = true → has_col "match_type" d = true →
  has_col "barcode" d = true →
  ExactMatchStep.barcode_pass d
  = map_rows (exact_row barcode "exact_barcode_" "exact_barcode"
                (λ r, bool_decide (group_id r = None)) d) d.
Proof.
  intros Hnd Hg Hm Hb. unfold ExactMatchStep.barcode_pass. rewrite Hb.
  by apply (assign_groups_rows barcode "exact_barcode_" "exact_barcode"
              (λ r, bool_decide (group_id r = None)) d).
Qed.

Lemma names_frame_step d d' : frame_step d d' → name <$> rows d' = name <$> rows d.
Proof.
  intros [_ F]. induction F as [|r r' l l' Hr _ IH]; [done|].
  simpl. f_equal; [apply Hr|done].
Qed.

Lemma frame_step_lookup d d' i r :
  frame_step d d' → rows d !! i = Some r →
  ∃ r', rows d' !! i = Some r' ∧ row_step r r'.
Proof. intros [_ F] Hi. by eapply Forall2_lookup_l. Qed.

Lemma lookup_distinct_names (l : list Row) i j ri rj :
  NoDup (name <$> l) → i ≠ j → l !! i = Some ri → l !! j = Some rj → ri ≠ rj.
Proof.
  intros Hnd Hij Hi Hj ->. apply Hij.
  eapply NoDup_lookup; [done|..]; by rewrite list_lookup_fmap, ?Hi, ?Hj.
Qed.

(** Two distinct rows that pass the filter [P] and share a non-null key are
    both rewritten by the pass. *)
Lemma exact_row_pair key pfx mt (P : Row → bool) d i j ri rj k :
  NoDup (name <$> rows d) → i ≠ j →
  rows d !! i = Some ri → rows d !! j = Some rj →
  P ri = true → P rj = true → key ri = Some k → key rj = Some k →
  exact_row key pfx mt P d ri = exact_upd pfx mt k ri.
Proof.
  intros Hnd Hij Hi Hj Pi Pj Ki Kj. unfold exact_row. rewrite Ki, Pi. simpl.
  rewrite (duplicated_distinct key _ ri rj); [done|..].
  - apply list_elem_of_filter. split; [done|]. by eapply list_elem_of_lookup_2.
  - apply list_elem_of_filter. split; [done|]. by eapply list_elem_of_lookup_2.
  - by eapply lookup_distinct_names.
  - congruence.
Qed.

Lemma item_pass_lookup d i r :
  NoDup (name <$> rows d) →
  has_col "group_id" d = true → has_col "match_type" d = true →
  rows d !! i = Some r →
  rows (ExactMatchStep.item_pass d) !! i
  = Some (if has_col "item_code" d
          then exact_row item_code "exact_item_" "exact_item_code" (λ _, true) d r
          else r).
Proof.
  intros Hnd Hg Hm Hi. destruct (has_col "item_code" d) eqn:Hc.
  - rewrite item_pass_rows by done. simpl. by rewrite list_lookup_fmap, Hi.
  - unfold ExactMatchStep.item_pass. by rewrite Hc.
Qed.

Lemma barcode_pass_lookup d i r :
  NoDup (name <$> rows d) →
  has_col "group_id" d = true → has_col "match_type" d = true →
  rows d !! i = Some r →
  rows (ExactMatchStep.barcode_pass d) !! i
  = Some (if has_col "barcode" d
          then exact_row barcode "exact_barcode_" "exact_barcode"
                 (λ r, bool_decide (group_id r = None)) d r
          else r).
Proof.
  intros Hnd Hg Hm Hi. destruct (has_col "barcode" d) eqn:Hc.
  - rewrite barcode_pass_rows by done. simpl. by rewrite list_lookup_fmap, Hi.
  - unfold ExactMatchStep.barcode_pass. by rewrite Hc.
Qed.

Lemma exact_row_grouped key pfx mt d r :
  group_id r ≠ None →
  exact_row key pfx mt (λ r, bool_decide (group_id r = None)) d r = r.
Proof.
  intros Hg. unfold exact_row. destruct (key r); [|done].
  by rewrite bool_decide_eq_false_2.
Qed.

(** C8.  On a frame with unique row labels: two distinct records sharing a
    non-null [item_code] both end in the group named after the field and the
    key value; two distinct records that are ungrouped after the [item_code]
    pass and share a non-null [barcode] both end in the group named after
    that field and value; and a record whose key field is null is left
    untouched by that field's pass. *)
Theorem exact_match_partitions d :
  NoDup (name <$> rows d) →
  let d0 := ExactMatchStep.ensure_columns d in
  let d1 := ExactMatchStep.item_pass d0 in
  let d2 := ExactMatchStep.process d in
  (has_col "item_code" d = true →
   ∀ i j ri rj k, i ≠ j → rows d !! i = Some ri → rows d !! j = Some rj →
     item_code ri = Some k → item_code rj = Some k →
     in_group d2 i ("exact_item_" +:+ k) "exact_item_code" ∧
     in_group d2 j ("exact_item_" +:+ k) "exact_item_code") ∧
  (has_col "barcode" d = true →
   ∀ i j ri rj b, i ≠ j → rows d1 !! i = Some ri → rows d1 !! j = Some rj →
     group_id ri = None → group_id rj = None →
     barcode ri = Some b → barcode rj = Some b →
     in_group d2 i ("exact_barcode_" +:+ b) "exact_barcode" ∧
     in_group d2 j ("exact_barcode_" +:+ b) "exact_barcode") ∧
  (∀ i r, rows d0 !! i = Some r → item_code r = None → rows d1 !! i = Some r) ∧
  (∀ i r, rows d1 !! i = Some r → barcode r = None → rows d2 !! i = Some r).
Proof.
  intros Hnd d0 d1 d2.
  pose proof (frame_step_ensure_columns d) as F0.
  pose proof (frame_step_item_pass d0) as F1.
  destruct (has_col_ensure_columns d) as [Hg0 Hm0].
  assert (Hnd0 : NoDup (name <$> rows d0)) by by rewrite (names_frame_step d d0).
  assert (Hnd1 : NoDup (name <$> rows d1)) by by rewrite (names_frame_step d0 d1).
  assert (Hg1 : has_col "group_id" d1 = true) by by apply F1.
  assert (Hm1 : has_col "match_type" d1 = true) by by apply F1.
  assert (Hd2 : d2 = ExactMatchStep.barcode_pass d1) by done.
  split; [|split; [|split]].
  - intros Hic i j ri rj k Hij Hi Hj Ki Kj.
    assert (Hic0 : has_col "item_code" d0 = true) by by apply F0.
    destruct (frame_step_lookup d d0 i ri F0 Hi) as (ri0 & Hi0 & Ri).
    destruct (frame_step_lookup d d0 j rj F0 Hj) as (rj0 & Hj0 & Rj).
    assert (Ki0 : item_code ri0 = Some k) by (destruct Ri as (?&?&?); congruence).
    assert (Kj0 : item_code rj0 = Some k) by (destruct Rj as (?&?&?); congruence).
    assert (Hpair : ∀ a b ra rb, a ≠ b → rows d0 !! a = Some ra →
              rows d0 !! b = Some rb → item_code ra = Some k →
              item_code rb = Some k →
              in_group d2 a ("exact_item_" +:+ k) "exact_item_code").
    { intros a b ra rb Hab Ha Hb Ka Kb.
      pose proof (item_pass_lookup d0 a ra Hnd0 Hg0 Hm0 Ha) as H1.
      rewrite Hic0 in H1.
      rewrite (exact_row_pair _ _ _ _ d0 a b ra rb k) in H1 by done.
      pose proof (barcode_pass_lookup d1 a _ Hnd1 Hg1 Hm1 H1) as H2.
      rewrite <- Hd2 in H2. eexists. split; [exact H2|].
      destruct (has_col "barcode" d1); [|done].
      by rewrite exact_row_grouped. }
    split; [by apply (Hpair i j ri0 rj0)|by apply (Hpair j i rj0 ri0)].
  - intros Hbc i j ri rj b Hij Hi Hj Gi Gj Bi Bj.
    assert (Hbc1 : has_col "barcode" d1 = true) by by apply F1, F0.
    assert (Hpair : ∀ a c ra rc, a ≠ c → rows d1 !! a = Some ra →
              rows d1 !! c = Some rc → group_id ra = None → group_id rc = None →
              barcode ra = Some b → barcode rc = Some b →
              in_group d2 a ("exact_barcode_" +:+ b) "exact_barcode").
    { intros a c ra rc Hac Ha Hc Ga Gc Ba Bc.
      pose proof (barcode_pass_lookup d1 a ra Hnd1 Hg1 Hm1 Ha) as H2.
      rewrite Hbc1 in H2. rewrite <- Hd2 in H2.
      rewrite (exact_row_pair _ _ _ _ d1 a c ra rc b) in H2;
        [|done..|by apply bool_decide_eq_true|by apply bool_decide_eq_true|done|done].
      eexists. split; [exact H2|done]. }
    split; [by apply (Hpair i j ri rj)|by apply (Hpair j i rj ri)].
  - intros i r Hi Hk. unfold d1.
    rewrite (item_pass_lookup d0 i r) by done.
    unfold exact_row. rewrite Hk. by destruct (has_col "item_code" d0).
  - intros i r Hi Hk. rewrite Hd2.
    rewrite (barcode_pass_lookup d1 i r) by done.
    unfold exact_row. rewrite Hk. by destruct (has_col "barcode" d1).
Qed.

(** ** SimilaritySearcher *)

Lemma elem_of_np_where p row j :
  j ∈ np_where p row ↔ ∃ x, row !! j = Some x ∧ p x = true.
Proof.
  unfold np_where. rewrite list_elem_of_omap. split.
  - intros (o & Ho & Hj). apply elem_of_lookup_imap in Ho as (i & x & -> & Hi).
    simpl in Hj. destruct (p x) eqn:E; [|done]. simplify_eq. eauto.
  - intros (x & Hx & Hp). exists (Some j). split; [|done].
    apply elem_of_lookup_imap. exists j, x. by rewrite Hp.
Qed.

Section FuzzyProps.
  Context {Embedding : Type}.
  Variable cosine : Embedding → Embedding → float.
  Variable threshold : float.
  Variable remaining : list Row.
  Variable texts : list string.

Local Abbreviation candidate := (FuzzyMatchStep.candidate threshold remaining texts).
Local Abbreviation anchor_row := (FuzzyMatchStep.anchor_row threshold remaining texts).

(** The two outcomes of one candidate: nothing happens, or the pair is
    confirmed and both records are marked visited. *)
Lemma candidate_cases a sim_row st j st' :
  candidate a sim_row st j = Ok st' →
  st' = st ∨
  (j ≠ a ∧
   FuzzyMatchStep.visited st' = {[a]} ∪ ({[j]} ∪ FuzzyMatchStep.visited st) ∧
   FuzzyMatchStep.confirmed st' = FuzzyMatchStep.confirmed st ++ [(a, j)]).
Proof.
  unfold FuzzyMatchStep.candidate. case_bool_decide as Hj.
  { intros [= <-]. by left. }
  unfold at_index.
  destruct (texts !! a); simpl; [|done].
  destruct (texts !! j); simpl; [|done].
  destruct (sim_row !! j); simpl; [|done].
  destruct (PrimFloat.ltb _ _).
  2:{ intros [= <-]. by left. }
  destruct (remaining !! a); simpl; [|done].
  destruct (remaining !! j); simpl; [|done].
  intros [= <-]. right. done.
Qed.

(** One candidate, when all the lookups are in range. *)
Lemma candidate_eval a sim_row st j sim :
  (a < length texts)%nat → (j < length texts)%nat →
  length remaining = length texts → sim_row !! j = Some sim →
  (threshold - 0.15 <? sim)%float = true →
  ∃ st', candidate a sim_row st j = Ok st' ∧
    FuzzyMatchStep.confirmed st'
    = FuzzyMatchStep.confirmed st
      ++ (if confirms threshold texts a sim_row j then [(a, j)] else []).
Proof.
  intros Ha Hj Hlen Hsim Hpre.
  destruct (lookup_lt_is_Some_2 texts a Ha) as [t1 Ht1].
  destruct (lookup_lt_is_Some_2 texts j Hj) as [t2 Ht2].
  destruct (lookup_lt_is_Some_2 remaining a ltac:(lia)) as [ra Hra].
  destruct (lookup_lt_is_Some_2 remaining j ltac:(lia)) as [rj Hrj].
  unfold FuzzyMatchStep.candidate, confirms, at_index.
  rewrite Ht1, Ht2, Hsim, Hra, Hrj, Hpre. simpl.
  case_bool_decide; simpl.
  { eexists. split; [done|]. by rewrite app_nil_r. }
  destruct (PrimFloat.ltb threshold _); simpl.
  - eexists. split; [done|]. done.
  - eexists. split; [done|]. by rewrite app_nil_r.
Qed.

Lemma for_each_candidate a sim_row js st :
  (a < length texts)%nat → length remaining = length texts →
  (∀ j, j ∈ js → (j < length texts)%nat ∧
                 ∃ sim, sim_row !! j = Some sim ∧ (threshold - 0.15 <? sim)%float = true) →
  ∃ st', for_each (candidate a sim_row) st js = Ok st' ∧
    FuzzyMatchStep.confirmed st'
    = FuzzyMatchStep.confirmed st
      ++ ((λ j, (a, j)) <$> filter (λ j, confirms threshold texts a sim_row j = true) js).
Proof.
  intros Ha Hlen. revert st. induction js as [|j js IH]; intros st Hjs; simpl.
  - eexists. split; [done|]. by rewrite app_nil_r.
  - destruct (Hjs j) as (Hj & sim & Hsim & Hpre); [constructor|].
    destruct (candidate_eval a sim_row st j sim Ha Hj Hlen Hsim Hpre) as (st1 & -> & Hc1).
    simpl. destruct (IH st1) as (st' & -> & Hc').
    { intros j' Hj'. apply Hjs. by constructor. }
    eexists. split; [done|]. rewrite Hc', Hc1.
    destruct (confirms threshold texts a sim_row j) eqn:E.
    + rewrite filter_cons_True by done. simpl. by rewrite <- app_assoc.
    + rewrite filter_cons_False by congruence. by rewrite app_nil_r.
Qed.

(** C2.  For an anchor row that is not yet visited, the stage returns
    normally and confirms exactly the records [j] other than the anchor whose
    cosine similarity exceeds [threshold - 0.15] and whose fused score
    [0.7 * cosine + 0.3 * overlap] strictly exceeds [threshold], where the
    overlap is [|tokens a ∩ tokens b| / min (|tokens a|, |tokens b|)], or 0
    when either token set is empty. *)
Theorem anchor_row_confirms st a sim_row :
  a ∉ FuzzyMatchStep.visited st →
  (a < length texts)%nat → (length sim_row ≤ length texts)%nat →
  length remaining = length texts →
  ∃ st', anchor_row st a sim_row = Ok st' ∧
    (∀ a' j, (a', j) ∈ FuzzyMatchStep.confirmed st' ↔
             (a', j) ∈ FuzzyMatchStep.confirmed st ∨
             (a' = a ∧ confirms threshold texts a sim_row j = true)) ∧
    (∀ text1 text2,
       FuzzyMatchStep.overlap text1 text2
       = if bool_decide (tokens text1 = ∅) || bool_decide (tokens text2 = ∅)
         then 0%float
         else (float_of_nat (size (tokens text1 ∩ tokens text2))
               / float_of_nat (size (tokens text1) `min` size (tokens text2)))%float) ∧
    (∀ sim ov, FuzzyMatchStep.final_score sim ov = (0.7 * sim + 0.3 * ov)%float).
Proof.
  intros Hv Ha Hrow Hlen. unfold FuzzyMatchStep.anchor_row.
  rewrite bool_decide_eq_false_2 by done.
  set (js := np_where _ sim_row).
  assert (Hjs : ∀ j, j ∈ js ↔
            ∃ sim, sim_row !! j = Some sim ∧ (threshold - 0.15 <? sim)%float = true)
    by (intros j; apply elem_of_np_where).
  destruct (for_each_candidate a sim_row js st Ha Hlen) as (st' & Hst' & Hc).
  { intros j (sim & Hsim & Hpre)%Hjs. split; [|eauto].
    apply lookup_lt_Some in Hsim. lia. }
  exists st'. split; [done|]. split; [|done].
  intros a' j. rewrite Hc, elem_of_app, list_elem_of_fmap.
  apply or_iff_compat_l. split.
  - intros (j' & [= -> ->] & [Hcf _]%list_elem_of_filter). done.
  - intros [-> Hcf]. exists j. split; [done|]. apply list_elem_of_filter.
    split; [done|]. apply Hjs. unfold confirms in Hcf.
    destruct (texts !! a), (texts !! j), (sim_row !! j) as [sim|]; try done.
    exists sim. split; [done|].
    apply andb_true_iff in Hcf as [Hcf _]. by apply andb_true_iff in Hcf as [_ ?].
Qed.

(** *** Visited records do not become anchors *)

Lemma for_each_preserves {A S} (I : S → Prop) (body : S → A → Result S) l s s' :
  (∀ s a s', body s a = Ok s' → I s → I s') →
  for_each body s l = Ok s' → I s → I s'.
Proof.
  intros Hbody. apply (for_each_invariant (λ s s', I s → I s')); auto.
Qed.

Lemma candidate_inv a sim_row st j st' :
  candidate a sim_row st j = Ok st' →
  trace_closed st ∧ no_reanchor (FuzzyMatchStep.confirmed st) ∧
    (∀ a0 j0, (a0, j0) ∈ FuzzyMatchStep.confirmed st → j0 ≠ a) →
  trace_closed st' ∧ no_reanchor (FuzzyMatchStep.confirmed st') ∧
    (∀ a0 j0, (a0, j0) ∈ FuzzyMatchStep.confirmed st' → j0 ≠ a).
Proof.
  intros [->|(Hj & Hv & Hc)]%candidate_cases; [done|].
  intros (Hcl & Hno & Hfresh). split; [|split].
  - intros a1 j1. rewrite Hc, Hv, elem_of_app, list_elem_of_singleton.
    intros [H1|[= -> ->]].
    + destruct (Hcl a1 j1 H1) as [Ha1 Hj1]. clear -Ha1 Hj1. set_solver.
    + clear. set_solver.
  - intros p q a1 j1 a2 j2 Hpq Hp Hq. rewrite Hc in Hp, Hq.
    destruct (decide (q < length (FuzzyMatchStep.confirmed st))%nat) as [Hlt|Hge].
    + rewrite lookup_app_l in Hp, Hq by lia.
      exact (Hno p q a1 j1 a2 j2 Hpq Hp Hq).
    + rewrite lookup_app_r in Hq by lia.
      apply list_lookup_singleton_Some in Hq as [Hq [= <- <-]].
      rewrite lookup_app_l in Hp by lia.
      apply list_elem_of_lookup_2 in Hp. intros ->. by eapply Hfresh.
  - intros a0 j0. rewrite Hc, elem_of_app, list_elem_of_singleton.
    intros [H1|[= -> ->]]; [by eapply Hfresh|done].
Qed.

Lemma anchor_row_inv st a sim_row st' :
  anchor_row st a sim_row = Ok st' →
  trace_closed st ∧ no_reanchor (FuzzyMatchStep.confirmed st) →
  trace_closed st' ∧ no_reanchor (FuzzyMatchStep.confirmed st').
Proof.
  unfold FuzzyMatchStep.anchor_row. case_bool_decide as Hv.
  { by intros [= <-]. }
  intros Hloop [Hcl Hno].
  eapply (for_each_preserves
            (λ s, trace_closed s ∧ no_reanchor (FuzzyMatchStep.confirmed s) ∧
                  (∀ a0 j0, (a0, j0) ∈ FuzzyMatchStep.confirmed s → j0 ≠ a)))
    in Hloop.
  - destruct Hloop as (? & ? & _). done.
  - intros s j s'. apply candidate_inv.
  - split; [done|]. split; [done|].
    intros a0 j0 Hin ->. by destruct (Hcl a0 a Hin).
Qed.

Variable embeddings : list Embedding.

Lemma chunks_inv chunk_size st st' :
  FuzzyMatchStep.chunks cosine threshold remaining texts embeddings chunk_size st = Ok st' →
  trace_closed st ∧ no_reanchor (FuzzyMatchStep.confirmed st) →
  trace_closed st' ∧ no_reanchor (FuzzyMatchStep.confirmed st').
Proof.
  unfold FuzzyMatchStep.chunks.
  apply (for_each_preserves
           (λ s, trace_closed s ∧ no_reanchor (FuzzyMatchStep.confirmed s))).
  intros s i s'. unfold FuzzyMatchStep.chunk.
  apply (for_each_preserves
           (λ s, trace_closed s ∧ no_reanchor (FuzzyMatchStep.confirmed s))).
  intros s1 r s2. destruct (at_index _ r); simpl; [|done].
  apply anchor_row_inv.
Qed.

(** *** The chunk loop visits the rows of the similarity matrix in order *)

Local Abbreviation row_step_of :=
  (λ (st : FuzzyMatchStep.State) (p : nat * list float), anchor_row st p.1 p.2).

Lemma chunk_rows_indexed (simf : Embedding → list float) i E st :
  for_each
    (λ st r, sim_row ← at_index (simf <$> E) r; anchor_row st (i + r) sim_row)
    st (seq 0 (length (simf <$> E)))
  = for_each row_step_of st (imap (λ r x, ((i + r)%nat, simf x)) E).
Proof.
  revert st. induction E as [|x E IH] using rev_ind; intros st; [done|].
  rewrite length_fmap, length_app, Nat.add_1_r, seq_S, imap_app, !for_each_app.
  simpl. rewrite <- IH, length_fmap.
  rewrite (for_each_ext _
             (λ st r, sim_row ← at_index (simf <$> E) r; anchor_row st (i + r) sim_row)).
  2:{ intros s r Hr%elem_of_seq. unfold at_index.
      rewrite fmap_app, lookup_app_l by (rewrite length_fmap; lia). done. }
  destruct (for_each _ st _) as [st1|]; simpl; [|done].
  unfold at_index. rewrite fmap_app, lookup_app_r by (rewrite length_fmap; lia).
  rewrite length_fmap, Nat.sub_diag. simpl. rewrite Nat.add_0_r.
  by destruct (anchor_row st1 _ _).
Qed.

Lemma chunk_flat chunk_size st i :
  FuzzyMatchStep.chunk cosine threshold remaining texts embeddings chunk_size st i
  = for_each row_step_of st
      (sim_rows_between cosine embeddings i ((i + chunk_size) `min` length remaining)).
Proof.
  unfold FuzzyMatchStep.chunk, FuzzyMatchStep.cosine_similarity, sim_rows_between.
  apply chunk_rows_indexed.
Qed.

Lemma sim_rows_between_app lo mid hi :
  (lo ≤ mid)%nat → (mid ≤ hi)%nat →
  sim_rows_between cosine embeddings lo mid ++ sim_rows_between cosine embeddings mid hi
  = sim_rows_between cosine embeddings lo hi.
Proof.
  intros H1 H2. unfold sim_rows_between.
  destruct (decide (mid ≤ length embeddings)%nat) as [Hm|Hm].
  - replace (hi - lo)%nat with ((mid - lo) + (hi - mid))%nat by lia.
    rewrite <- take_take_drop, drop_drop, imap_app.
    replace (lo + (mid - lo))%nat with mid by lia.
    f_equal. rewrite length_take, length_drop.
    apply imap_ext. intros r x _. simpl. f_equal. lia.
  - rewrite (drop_ge embeddings mid) by lia. rewrite take_nil. simpl.
    rewrite app_nil_r.
    rewrite !take_ge; [done|rewrite length_drop; lia|rewrite length_drop; lia].
Qed.

Lemma chunks_flat_from chunk_size m k st :
  let n := length remaining in
  for_each (FuzzyMatchStep.chunk cosine threshold remaining texts embeddings chunk_size)
    st ((λ k, k * chunk_size)%nat <$> seq k m)
  = for_each row_step_of st
      (sim_rows_between cosine embeddings ((k * chunk_size) `min` n)
         (((k + m) * chunk_size) `min` n)).
Proof.
  intros n. revert k st. induction m as [|m IH]; intros k st.
  - simpl. unfold sim_rows_between.
    replace (_ - _)%nat with 0%nat by lia. done.
  - simpl. rewrite chunk_flat. fold n.
    rewrite <- (sim_rows_between_app ((k * chunk_size) `min` n)
                  (((k + 1) * chunk_size) `min` n)
                  (((k + S m) * chunk_size) `min` n)) by lia.
    rewrite for_each_app.
    assert (sim_rows_between cosine embeddings (k * chunk_size)
              ((k * chunk_size + chunk_size) `min` n)
            = sim_rows_between cosine embeddings ((k * chunk_size) `min` n)
                (((k + 1) * chunk_size) `min` n)) as ->.
    { destruct (decide (k * chunk_size ≤ n)%nat).
      - f_equal; lia.
      - unfold sim_rows_between.
        replace (_ `min` n - k * chunk_size)%nat with 0%nat by lia.
        replace (_ `min` n - _ `min` n)%nat with 0%nat by lia. done. }
    destruct (for_each row_step_of st _) as [st1|]; simpl; [|done].
    rewrite IH. f_equal. f_equal; f_equal; lia.
Qed.

Lemma chunks_flat chunk_size st :
  (0 < chunk_size)%nat →
  FuzzyMatchStep.chunks cosine threshold remaining texts embeddings chunk_size st
  = for_each row_step_of st
      (sim_rows_between cosine embeddings 0 (length remaining)).
Proof.
  intros Hc. unfold FuzzyMatchStep.chunks, range_step.
  rewrite chunks_flat_from. simpl. f_equal.
  set (n := length remaining).
  assert (n ≤ (n + chunk_size - 1) / chunk_size * chunk_size)%nat; [|f_equal; lia].
  pose proof (Nat.div_mod (n + chunk_size - 1) chunk_size ltac:(lia)) as Hdm.
  pose proof (Nat.mod_upper_bound (n + chunk_size - 1) chunk_size ltac:(lia)).
  nia.
Qed.
End FuzzyProps.

Section FuzzyStage.
  Context {Embedding : Type}.
  Variable model_get_embeddings : list string → option (list Embedding).
  Variable cosine : Embedding → Embedding → float.
  Variable threshold : float.

(** C9.  For a fixed frame, fixed embeddings and a fixed threshold, the
    similarity stage computes the same result for any two positive chunk
    sizes: the same trace of confirmed pairs (in the same order), the same
    visited set and the same annotated frame. *)
Theorem chunk_size_independent c1 c2 d :
  (0 < c1)%nat → (0 < c2)%nat →
  FuzzyMatchStep.process_chunked model_get_embeddings cosine threshold c1 d
  = FuzzyMatchStep.process_chunked model_get_embeddings cosine threshold c2 d.
Proof.
  intros H1 H2. unfold FuzzyMatchStep.process_chunked.
  case_bool_decide; [done|].
  destruct (has_col "DESCR" d); simpl; [|done].
  destruct (has_col "DESCR60" d); simpl; [|done].
  destruct (FuzzyMatchStep._get_embeddings _ _) as [embeddings|]; simpl; [|done].
  by rewrite !chunks_flat.
Qed.

(** C4 (amended).  In the trace of a run of the similarity stage, the anchor
    of a confirmed pair is never the partner of an earlier confirmed pair:
    a record that has been confirmed as a partner does not act as an anchor
    afterwards. *)
Theorem similarity_stage_no_reanchor c d st :
  FuzzyMatchStep.process_chunked model_get_embeddings cosine threshold c d = Ok st →
  no_reanchor (FuzzyMatchStep.confirmed st).
Proof.
  unfold FuzzyMatchStep.process_chunked.
  assert (Hinit : ∀ d0, trace_closed (FuzzyMatchStep.mkState d0 ∅ []) ∧
                        no_reanchor (FuzzyMatchStep.confirmed
                                       (FuzzyMatchStep.mkState d0 ∅ []))).
  { intros d0. split.
    - intros a j Hin. simpl in Hin. by apply elem_of_nil in Hin.
    - intros p q a j a' j' _ Hp. simpl in Hp. by rewrite lookup_nil in Hp. }
  case_bool_decide.
  { intros [= <-]. apply Hinit. }
  destruct (has_col "DESCR" d); simpl; [|done].
  destruct (has_col "DESCR60" d); simpl; [|done].
  destruct (FuzzyMatchStep._get_embeddings _ _) as [embeddings|]; simpl; [|done].
  intros Hc. eapply chunks_inv in Hc; [apply Hc|apply Hinit].
Qed.
End FuzzyStage.

(** C3 (the code at the failing input).  Two ungrouped records with cosine
    similarity 1 and identical token sets: the fused score is 1 and the pair
    is confirmed, but only the partner is annotated; the anchor keeps a null
    [group_id], so the group named after it has one member, and the final
    cleanup of a full run dissolves it. *)
Theorem fuzzy_pair_anchor_left_out :
  let d := ExactMatchStep.process Examples.pair_frame in
  FuzzyMatchStep.final_score 1 1 = 1%float ∧
  (FuzzyMatchStep.confirmed
     <$> FuzzyMatchStep.process_chunked Examples.text_embeddings Examples.same_text
           0.90%float 5000 d) = Ok [(0, 1)%nat] ∧
  ((λ d', (λ r, (group_id r, match_type r, confidence r)) <$> rows d')
     <$> FuzzyMatchStep.process Examples.text_embeddings Examples.same_text 0.90%float d)
  = Ok [(None, None, nan); (Some "fuzzy_0", Some "fuzzy_hybrid", 1%float)] ∧
  ((λ d', group_id <$> rows d')
     <$> DedupAgent.run Examples.text_embeddings Examples.same_text
           Examples.silent Examples.parse_score Examples.silent Examples.pair_frame)
  = Ok [None; None].
Proof. vm_compute. done. Qed.

(** C4 (counterexample).  On the chain frame, record 1 is confirmed by
    anchor 0 and marked visited, and the later anchor 2 confirms it again
    and overwrites its [group_id]: the record is written twice, and the
    value that remains is the last one. *)
Lemma visited_partner_overwritten :
  let d := ExactMatchStep.process Examples.chain_frame in
  let remaining := rows d in
  let texts := FuzzyMatchStep.norm_descr <$> remaining in
  let run_chunk st i :=
    FuzzyMatchStep.chunk Examples.chain_cosine 0.90%float remaining texts texts 2 st i in
  let view st :=
    (FuzzyMatchStep.confirmed st, group_id <$> rows (FuzzyMatchStep.df st)) in
  (view <$> run_chunk (FuzzyMatchStep.mkState d ∅ []) 0%nat)
  = Ok ([(0, 1)%nat], [None; Some "fuzzy_0"; None]) ∧
  (view <$> (st ← run_chunk (FuzzyMatchStep.mkState d ∅ []) 0%nat; run_chunk st 2%nat))
  = Ok ([(0, 1); (2, 1)]%nat, [None; Some "fuzzy_2"; None]) ∧
  (view <$> FuzzyMatchStep.process_chunked Examples.text_embeddings
              Examples.chain_cosine 0.90%float 5000 d)
  = Ok ([(0, 1); (2, 1)]%nat, [None; Some "fuzzy_2"; None]).
Proof. vm_compute. done. Qed.

(** ** Reranker *)

Lemma map_rows_id f d : (∀ r, r ∈ rows d → f r = r) → map_rows f d = d.
Proof.
  intros H. destruct d as [cs l]. unfold map_rows. simpl in *. f_equal.
  rewrite <- (list_fmap_id l) at 2. apply list_fmap_ext.
  intros i r Hi. apply H. by eapply list_elem_of_lookup_2.
Qed.

Lemma scored_idem s r : scored s (scored s r) = scored s r.
Proof. unfold scored. by destruct (PrimFloat.ltb s _). Qed.

Lemma apply_score_rows idx score d :
  has_col "group_id" d = true → has_col "match_type" d = true →
  has_col "confidence" d = true →
  CrossEncoderRerankerStep.apply_score idx score d
  = map_rows (λ r, if bool_decide (name r ∈ idx) then scored score r else r) d.
Proof.
  intros Hg Hm Hc. unfold CrossEncoderRerankerStep.apply_score, scored.
  rewrite (loc_set_has _ "confidence") by done.
  destruct (PrimFloat.ltb score _).
  - rewrite (loc_set_has _ "group_id") by done.
    rewrite (loc_set_has _ "match_type") by done.
    rewrite !map_rows_compose. apply map_rows_ext. intros r _. simpl.
    destruct (bool_decide (name r ∈ idx)) eqn:E; simpl; rewrite E; simpl;
      by rewrite E.
  - rewrite (loc_set_has _ "match_type") by done.
    rewrite !map_rows_compose. apply map_rows_ext. intros r _. simpl.
    destruct (bool_decide (name r ∈ idx)) eqn:E; simpl; by rewrite E.
Qed.

Section Rerank.
  Variable generate_content : string → option string.
  Variable parse_float : string → option float.

(** The rewrite performed for one entry of the [groupby]. *)
Local Abbreviation entry_upd d0 :=
  (λ e : string * list Row,
     if bool_decide (length e.2 < 2)%nat then id
     else match generate_content (CrossEncoderRerankerStep.prompt d0 e.2) with
          | None => id
          | Some text =>
              match parse_float (Py.strip text) with
              | None => id
              | Some score => scored score
              end
          end).

Lemma rerank_group_body d0 d e :
  has_col "group_id" d = true → has_col "match_type" d = true →
  has_col "confidence" d = true →
  CrossEncoderRerankerStep.group_body generate_content parse_float d0 d e
  = map_rows (λ r, if bool_decide (name r ∈ name <$> e.2)
                   then entry_upd d0 e r else r) d.
Proof.
  intros Hg Hm Hc. unfold CrossEncoderRerankerStep.group_body.
  case_bool_decide.
  { symmetry. apply map_rows_id. intros r _. by case_bool_decide. }
  destruct (generate_content _) as [text|].
  2:{ symmetry. apply map_rows_id. intros r _. by case_bool_decide. }
  destruct (parse_float _) as [score|].
  2:{ symmetry. apply map_rows_id. intros r _. by case_bool_decide. }
  by apply apply_score_rows.
Qed.

(** The Reranker acts row by row: a row is rewritten only by the response
    obtained for its own group. *)
Lemma rerank_rows d :
  NoDup (name <$> rows d) →
  has_col "group_id" d = true → has_col "match_type" d = true →
  has_col "confidence" d = true →
  CrossEncoderRerankerStep.process generate_content parse_float d
  = Ok (map_rows (rerank_row generate_content parse_float d) d).
Proof.
  intros Hnd Hg Hm Hc. unfold CrossEncoderRerankerStep.process.
  rewrite Hg, Hm, Hc. simpl.
  set (candidates := select CrossEncoderRerankerStep.mask d).
  assert (Hcand : ∀ r, r ∈ candidates ↔
            r ∈ rows d ∧ CrossEncoderRerankerStep.mask r = true).
  { intros r. unfold candidates, select. rewrite list_elem_of_filter. tauto. }
  case_bool_decide as Hempty.
  { f_equal. symmetry. apply map_rows_id. intros r Hr. unfold rerank_row.
    destruct (CrossEncoderRerankerStep.mask r) eqn:E; [|done].
    assert (r ∈ candidates) as Hin by by apply Hcand.
    rewrite Hempty in Hin. by apply elem_of_nil in Hin. }
  f_equal.
  rewrite (fold_left_loc_rows
             (λ d, has_col "group_id" d = true ∧ has_col "match_type" d = true ∧
                   has_col "confidence" d = true)
             (λ e, name <$> e.2) (entry_upd d)); [| | | |done].
  2:{ intros e r. simpl. case_bool_decide; [done|].
      destruct (generate_content _); [|done].
      destruct (parse_float _) as [sc|]; [|done].
      unfold scored. by destruct (PrimFloat.ltb sc _). }
  2:{ intros f d' (?&?&?). by rewrite !has_col_map_rows. }
  2:{ intros d' e (?&?&?). by apply rerank_group_body. }
  apply map_rows_ext. intros r Hr.
  assert (Hsub : candidates ⊆ rows d) by (intros x Hx; by apply Hcand in Hx as [? _]).
  assert (Hhit : ∀ k g, (k, g) ∈ groupby group_id candidates →
            g = rerank_group d k ∧
            (name r ∈ name <$> g ↔ r ∈ candidates ∧ group_id r = Some k)).
  { intros k g [-> _]%elem_of_groupby. split; [done|].
    by apply (name_in_group (rows d)). }
  set (u0 := match group_id r with
             | Some g => entry_upd d (g, rerank_group d g)
             | None => id
             end).
  rewrite (apply_hits_same _ _ u0).
  2:{ intros [k g] He Hn. destruct (Hhit k g He) as [-> Hiff].
      apply Hiff in Hn as [_ Hk]. unfold u0. by rewrite Hk. }
  2:{ intros r'. unfold u0. destruct (group_id r); [|done]. simpl.
      case_bool_decide; [done|].
      destruct (generate_content _); [|done].
      destruct (parse_float _); [|done]. apply scored_idem. }
  unfold rerank_row, rerank_response, u0.
  destruct (CrossEncoderRerankerStep.mask r) eqn:Emask.
  - destruct (group_id r) as [k|] eqn:Ek.
    + replace (existsb _ _) with true.
      2:{ symmetry. apply existsb_true_hit.
          exists (k, rerank_group d k). split.
          - apply elem_of_groupby. split; [done|]. exists r. split; [|done].
            by apply Hcand.
          - simpl. apply (name_in_group (rows d)); [done..|].
            split; [by apply Hcand|done]. }
      simpl. case_bool_decide; [done|].
      destruct (generate_content _); [|done]. simpl.
      by destruct (parse_float _).
    + replace (existsb _ _) with false; [done|]. symmetry.
      apply existsb_false_not_hit. intros [k g] He Hn.
      destruct (Hhit k g He) as [_ Hiff]. apply Hiff in Hn as [_ Hk]. congruence.
  - replace (existsb _ _) with false; [done|]. symmetry.
    apply existsb_false_not_hit. intros [k g] He Hn.
    destruct (Hhit k g He) as [_ Hiff]. apply Hiff in Hn as [Hn _].
    apply Hcand in Hn as [_ Hn]. congruence.
Qed.

Lemma elem_of_rerank_group d g r :
  r ∈ rerank_group d g ↔
  r ∈ rows d ∧ CrossEncoderRerankerStep.mask r = true ∧ group_id r = Some g.
Proof.
  unfold rerank_group, select. rewrite !list_elem_of_filter. tauto.
Qed.

(** C6.  For a qualifying group (rows labelled [fuzzy_hybrid] with
    confidence below 0.95 sharing a [group_id], at least two of them) whose
    scoring call returns a text that parses as a float: every member gets that
    value as its confidence; if the value is below 0.8 its [group_id] is
    cleared and its [match_type] becomes [rerank_discarded], otherwise it
    keeps its [group_id] and its [match_type] becomes [rerank_verified]. *)
Theorem reranker_rescores d g text score :
  NoDup (name <$> rows d) →
  has_col "group_id" d = true → has_col "match_type" d = true →
  has_col "confidence" d = true →
  (2 ≤ length (rerank_group d g))%nat →
  generate_content (CrossEncoderRerankerStep.prompt d (rerank_group d g)) = Some text →
  parse_float (Py.strip text) = Some score →
  ∃ d', CrossEncoderRerankerStep.process generate_content parse_float d = Ok d' ∧
    ∀ i r, rows d !! i = Some r → r ∈ rerank_group d g →
      ∃ r', rows d' !! i = Some r' ∧ confidence r' = score ∧
        if (score <? 0.8)%float
        then group_id r' = None ∧ match_type r' = Some "rerank_discarded"
        else group_id r' = Some g ∧ match_type r' = Some "rerank_verified".
Proof.
  intros Hnd Hg Hm Hc Hlen Hgc Hpf.
  eexists. split; [by apply rerank_rows|].
  intros i r Hi (_ & Hmask & Hgid)%elem_of_rerank_group.
  exists (scored score r). split.
  - simpl. rewrite list_lookup_fmap, Hi. simpl. f_equal.
    unfold rerank_row, rerank_response. rewrite Hmask, Hgid.
    rewrite bool_decide_eq_false_2 by lia. rewrite Hgc. simpl. by rewrite Hpf.
  - unfold scored. destruct (PrimFloat.ltb score _); simpl; auto.
Qed.
End Rerank.

(** ** AmbiguityResolver *)

Lemma NoDup_unique l : NoDup (Py.unique l).
Proof.
  induction l as [|x l IH]; simpl; [constructor|].
  apply NoDup_cons. split.
  - rewrite list_elem_of_filter. tauto.
  - by apply NoDup_filter.
Qed.

Lemma filter_fmap_unchanged {A} (Q : A → Prop) `{!∀ x, Decision (Q x)}
    (f : A → A) (l : list A) :
  (∀ x, x ∈ l → Q (f x) → Q x) → (∀ x, x ∈ l → Q x → f x = x) →
  filter Q (f <$> l) = filter Q l.
Proof.
  induction l as [|x l IH]; intros H1 H2; simpl; [done|].
  rewrite !filter_cons.
  destruct (decide (Q x)) as [Hx|Hx].
  - rewrite (H2 x) by (done || constructor). rewrite decide_True by done.
    f_equal. apply IH; intros; [apply H1|apply H2]; by (done || constructor).
  - rewrite decide_False.
    + apply IH; intros; [apply H1|apply H2]; by (done || constructor).
    + intros Hfx. apply Hx, H1; [constructor|done].
Qed.

Lemma apply_answer_rows idx text d :
  has_col "group_id" d = true → has_col "match_type" d = true →
  LLMAssistedStep.apply_answer idx text d
  = map_rows (λ r, if bool_decide (name r ∈ idx) then answered text r else r) d.
Proof.
  intros Hg Hm. unfold LLMAssistedStep.apply_answer, answered.
  destruct (Py.contains _ _).
  - by rewrite (loc_set_has _ "match_type").
  - rewrite (loc_set_has _ "group_id") by done.
    rewrite (loc_set_has _ "match_type") by done.
    rewrite map_rows_compose. apply map_rows_ext. intros r _. simpl.
    destruct (bool_decide (name r ∈ idx)) eqn:E; simpl; by rewrite E.
Qed.

Section LLM.
  Variable generate_content : string → option string.

Lemma llm_group_body_columns d g :
  has_col "group_id" d = true → has_col "match_type" d = true →
  columns (LLMAssistedStep.group_body generate_content d g) = columns d.
Proof.
  intros Hg Hm. unfold LLMAssistedStep.group_body.
  case_bool_decide; [done|]. destruct (generate_content _); [|done].
  by rewrite apply_answer_rows.
Qed.

Lemma llm_fold_columns ids d :
  has_col "group_id" d = true → has_col "match_type" d = true →
  columns (fold_left (LLMAssistedStep.group_body generate_content) ids d) = columns d.
Proof.
  revert d. induction ids as [|g ids IH]; intros d Hg Hm; simpl; [done|].
  pose proof (llm_group_body_columns d g Hg Hm) as Hc.
  rewrite IH; [done|unfold has_col in *; by rewrite Hc..].
Qed.

Lemma llm_group_body_rows d g :
  NoDup (name <$> rows d) →
  has_col "group_id" d = true → has_col "match_type" d = true →
  LLMAssistedStep.group_body generate_content d g
  = map_rows (llm_row generate_content [g] d) d.
Proof.
  intros Hnd Hg Hm. unfold LLMAssistedStep.group_body.
  fold (llm_group d g).
  assert (Hmem : ∀ r, r ∈ rows d →
            name r ∈ name <$> llm_group d g ↔ group_id r = Some g).
  { intros r Hr. unfold llm_group, select.
    rewrite (name_in_group (rows d)); [|done..].
    rewrite bool_decide_eq_true. tauto. }
  assert (Hother : ∀ r g', group_id r = Some g' → g' ≠ g →
            llm_row generate_content [g] d r = r).
  { intros r g' Hr Hne. unfold llm_row. rewrite Hr.
    rewrite (bool_decide_eq_false_2 (g' ∈ [g])); [done|].
    by rewrite list_elem_of_singleton. }
  assert (Hself : ∀ r, group_id r = Some g →
            llm_row generate_content [g] d r
            = if bool_decide (2 ≤ length (llm_group d g))%nat then
                match generate_content (LLMAssistedStep.prompt d (llm_group d g)) with
                | Some text => answered text r
                | None => r
                end
              else r).
  { intros r Hr. unfold llm_row. rewrite Hr.
    rewrite (bool_decide_eq_true_2 (g ∈ [g])); [done|]. by constructor. }
  symmetry.
  destruct (decide (length (llm_group d g) < 2)%nat) as [Hlen|Hlen].
  { rewrite (bool_decide_eq_true_2 (_ < 2)%nat) by done.
    apply map_rows_id. intros r Hr. destruct (group_id r) as [g'|] eqn:Eg.
    - destruct (decide (g' = g)) as [->|Hne]; [|by eapply Hother].
      rewrite Hself by done. by rewrite bool_decide_eq_false_2 by lia.
    - unfold llm_row. by rewrite Eg. }
  rewrite (bool_decide_eq_false_2 (_ < 2)%nat) by done.
  destruct (generate_content _) as [text|] eqn:Egc.
  - rewrite apply_answer_rows by done. apply map_rows_ext. intros r Hr.
    destruct (decide (name r ∈ name <$> llm_group d g)) as [Hn|Hn].
    + rewrite (bool_decide_eq_true_2 (name r ∈ _)) by done.
      apply (Hmem r Hr) in Hn. rewrite Hself by done.
      rewrite bool_decide_eq_true_2 by lia. done.
    + rewrite (bool_decide_eq_false_2 (name r ∈ _)) by done.
      destruct (group_id r) as [g'|] eqn:Eg.
      * apply (Hother r g'); [done|]. intros ->. by apply Hn, Hmem.
      * unfold llm_row. by rewrite Eg.
  - apply map_rows_id. intros r Hr. destruct (group_id r) as [g'|] eqn:Eg.
    + destruct (decide (g' = g)) as [->|Hne]; [|by eapply Hother].
      rewrite Hself by done. by destruct (bool_decide _).
    + unfold llm_row. by rewrite Eg.
Qed.

Lemma group_id_answered text r g :
  group_id (answered text r) = Some g → group_id r = Some g.
Proof. unfold answered. by destruct (Py.contains _ _). Qed.

Lemma group_id_llm_row ids d r g :
  group_id (llm_row generate_content ids d r) = Some g → group_id r = Some g.
Proof.
  unfold llm_row. destruct (group_id r) as [g'|] eqn:E; [|intros; congruence].
  destruct (_ && _); [|intros; congruence].
  destruct (generate_content _); [|intros; congruence].
  intros H%group_id_answered. congruence.
Qed.

Lemma llm_group_after d g g' :
  g' ≠ g →
  llm_group (map_rows (llm_row generate_content [g] d) d) g' = llm_group d g'.
Proof.
  intros Hne. unfold llm_group, select. simpl.
  apply filter_fmap_unchanged.
  - intros r _. rewrite !bool_decide_eq_true. apply group_id_llm_row.
  - intros r _ Hr%bool_decide_eq_true. unfold llm_row. rewrite Hr.
    rewrite (bool_decide_eq_false_2 (g' ∈ [g])); [done|].
    by rewrite list_elem_of_singleton.
Qed.

Lemma llm_fold_rows ids d :
  NoDup ids → NoDup (name <$> rows d) →
  has_col "group_id" d = true → has_col "match_type" d = true →
  fold_left (LLMAssistedStep.group_body generate_content) ids d
  = map_rows (llm_row generate_content ids d) d.
Proof.
  intros Hids. revert d. induction Hids as [|g ids Hg Hids IH]; intros d Hnd Hc1 Hc2.
  { simpl. symmetry. apply map_rows_id. intros r _. unfold llm_row.
    destruct (group_id r); [|done].
    rewrite (bool_decide_eq_false_2 (_ ∈ [])); [done|]. apply not_elem_of_nil. }
  simpl. rewrite llm_group_body_rows by done.
  set (d1 := map_rows (llm_row generate_content [g] d) d).
  rewrite IH; [|unfold d1; simpl; rewrite <- list_fmap_compose..|done|done].
  2:{ erewrite list_fmap_ext; [exact Hnd|]. intros i r _. simpl.
      unfold llm_row. destruct (group_id r); [|done].
      destruct (_ && _); [|done]. destruct (generate_content _); [|done].
      unfold answered. by destruct (Py.contains _ _). }
  unfold d1 at 2. rewrite map_rows_compose. apply map_rows_ext. intros r Hr. simpl.
  destruct (group_id r) as [g0|] eqn:Eg.
  2:{ unfold llm_row at 2 3. rewrite Eg. unfold llm_row. by rewrite Eg. }
  destruct (decide (g0 = g)) as [->|Hne].
  - assert (Hin : llm_row generate_content (g :: ids) d r
                  = llm_row generate_content [g] d r).
    { unfold llm_row. rewrite Eg.
      rewrite (bool_decide_eq_true_2 (g ∈ g :: ids)) by constructor.
      rewrite (bool_decide_eq_true_2 (g ∈ [g])) by constructor. done. }
    rewrite Hin. set (x := llm_row generate_content [g] d r).
    unfold llm_row. destruct (group_id x) as [gx|] eqn:Ex; [|done].
    assert (gx = g) as ->.
    { apply group_id_llm_row in Ex. congruence. }
    by rewrite (bool_decide_eq_false_2 (g ∈ ids)).
  - assert (Hin : llm_row generate_content [g] d r = r).
    { unfold llm_row. rewrite Eg.
      rewrite (bool_decide_eq_false_2 (g0 ∈ [g])); [done|].
      by rewrite list_elem_of_singleton. }
    rewrite Hin. unfold llm_row. rewrite Eg.
    unfold d1. rewrite llm_group_after by done.
    replace (bool_decide (g0 ∈ g :: ids)) with (bool_decide (g0 ∈ ids)); [done|].
    apply bool_decide_ext. rewrite elem_of_cons. tauto.
Qed.

(** The ambiguity resolver acts row by row. *)
Lemma llm_rows d :
  NoDup (name <$> rows d) →
  has_col "group_id" d = true → has_col "match_type" d = true →
  has_col "confidence" d = true →
  LLMAssistedStep.process generate_content d
  = Ok (map_rows (llm_row generate_content (ambiguous_ids d) d) d).
Proof.
  intros Hnd Hg Hm Hc. unfold LLMAssistedStep.process.
  rewrite Hg, Hm, Hc. simpl. fold (ambiguous_ids d).
  case_bool_decide as He.
  - rewrite He. f_equal.
    rewrite <- (llm_fold_rows [] d); [done|constructor|done..].
  - f_equal. apply llm_fold_rows; [apply NoDup_unique|done..].
Qed.

(** C5 (amended).  For an examined group with at least two members: if the
    binary call returns a text whose lower-cased form contains [yes], every
    member keeps its [group_id] and gets [match_type = llm_matched]; for every
    other text, whether or not it contains [no], every member has its
    [group_id] cleared and gets [match_type = llm_discarded]; only when the
    call raises is the member left exactly as it was.  The confidence is kept
    in all cases. *)
Theorem binary_answer_decides d g :
  NoDup (name <$> rows d) →
  has_col "group_id" d = true → has_col "match_type" d = true →
  has_col "confidence" d = true →
  g ∈ ambiguous_ids d → (2 ≤ length (llm_group d g))%nat →
  ∃ d', LLMAssistedStep.process generate_content d = Ok d' ∧
    ∀ i r, rows d !! i = Some r → group_id r = Some g →
      ∃ r', rows d' !! i = Some r' ∧ confidence r' = confidence r ∧
        match generate_content (LLMAssistedStep.prompt d (llm_group d g)) with
        | Some text =>
            if Py.contains "yes" (Py.lower text)
            then group_id r' = Some g ∧ match_type r' = Some "llm_matched"
            else group_id r' = None ∧ match_type r' = Some "llm_discarded"
        | None => r' = r
        end.
Proof.
  intros Hnd Hg Hm Hc Hamb Hlen.
  eexists. split; [by apply llm_rows|].
  intros i r Hi Hgid. simpl. rewrite list_lookup_fmap, Hi. simpl.
  eexists. split; [done|].
  unfold llm_row. rewrite Hgid.
  rewrite (bool_decide_eq_true_2 (g ∈ _)) by done.
  rewrite bool_decide_eq_true_2 by done. simpl.
  destruct (generate_content _) as [text|]; [|done].
  unfold answered. destruct (Py.contains _ _); simpl; auto.
Qed.
End LLM.

(** ** Fail-open isolation of the adjudication stages *)

Lemma rerank_columns gc pf d d' :
  CrossEncoderRerankerStep.process gc pf d = Ok d' → columns d' = columns d.
Proof.
  unfold CrossEncoderRerankerStep.process.
  destruct (has_col "group_id" d) eqn:Hg; simpl; [|by intros [= <-]].
  destruct (has_col "match_type" d) eqn:Hm; simpl; [|by intros [= <-]].
  destruct (has_col "confidence" d) eqn:Hc; simpl; [|done].
  case_bool_decide; [by intros [= <-]|]. intros [= <-].
  rewrite (fold_left_loc_rows
             (λ d, has_col "group_id" d = true ∧ has_col "match_type" d = true ∧
                   has_col "confidence" d = true)
             (λ e, name <$> e.2)
             (λ e : string * list Row,
                if bool_decide (length e.2 < 2)%nat then id
                else match gc (CrossEncoderRerankerStep.prompt d e.2) with
                     | None => id
                     | Some text =>
                         match pf (Py.strip text) with
                         | None => id
                         | Some score => scored score
                         end
                     end)); [done| | | |done].
  - intros e r. simpl. case_bool_decide; [done|].
    destruct (gc _); [|done]. destruct (pf _) as [sc|]; [|done].
    unfold scored. by destruct (PrimFloat.ltb sc _).
  - intros f d1 (?&?&?). by rewrite !has_col_map_rows.
  - intros d1 e (?&?&?). by apply rerank_group_body.
Qed.

Lemma rerank_completes gc pf gc' pf' d d' :
  CrossEncoderRerankerStep.process gc pf d = Ok d' →
  ∃ d'', CrossEncoderRerankerStep.process gc' pf' d = Ok d''.
Proof.
  unfold CrossEncoderRerankerStep.process.
  destruct (_ || _); [eauto|].
  destruct (has_col "confidence" d); simpl; [|done].
  case_bool_decide; eauto.
Qed.

Lemma llm_columns gc d d' :
  LLMAssistedStep.process gc d = Ok d' → columns d' = columns d.
Proof.
  unfold LLMAssistedStep.process.
  destruct (has_col "group_id" d) eqn:Hg; simpl; [|by intros [= <-]].
  destruct (has_col "confidence" d) eqn:Hc; simpl; [|by intros [= <-]].
  destruct (has_col "match_type" d) eqn:Hm; simpl; [|done].
  case_bool_decide; [by intros [= <-]|]. intros [= <-].
  by apply llm_fold_columns.
Qed.

Lemma llm_completes gc gc' d1 d2 d' :
  columns d2 = columns d1 →
  LLMAssistedStep.process gc d1 = Ok d' →
  ∃ d'', LLMAssistedStep.process gc' d2 = Ok d''.
Proof.
  intros Hcols. unfold LLMAssistedStep.process, has_col. rewrite Hcols.
  destruct (_ || _); [eauto|].
  destruct (bool_decide ("match_type" ∈ columns d1)); simpl; [|done].
  case_bool_decide; case_bool_decide; eauto.
Qed.

Lemma human_review_completes d1 d2 d' :
  columns d2 = columns d1 →
  HumanReviewStep.process d1 = Ok d' → ∃ d'', HumanReviewStep.process d2 = Ok d''.
Proof.
  intros Hcols. unfold HumanReviewStep.process, has_col. rewrite Hcols.
  destruct (bool_decide ("match_type" ∈ columns d1)); simpl; [|done].
  destruct (bool_decide ("confidence" ∈ columns d1)); simpl; [|done].
  eauto.
Qed.

(** Whether a run completes does not depend on what the adjudicators
    answer, nor on whether their calls fail. *)
Lemma run_completes_whatever_adjudicators {Embedding}
    (emb : list string → option (list Embedding)) cos gc pf llm gc' pf' llm' d out :
  DedupAgent.run emb cos gc pf llm d = Ok out →
  ∃ out', DedupAgent.run emb cos gc' pf' llm' d = Ok out'.
Proof.
  unfold DedupAgent.run.
  destruct (DedupAgent.steps emb cos gc pf llm d) as [pre|] eqn:Hsteps; [|done].
  intros _. apply steps_inv in Hsteps as (d2 & d3 & d4 & H2 & H3 & H4 & H5).
  destruct (rerank_completes gc pf gc' pf' d2 d3 H3) as [d3' H3'].
  pose proof (rerank_columns _ _ _ _ H3) as C3.
  pose proof (rerank_columns _ _ _ _ H3') as C3'.
  destruct (llm_completes llm llm' d3 d3' d4 ltac:(congruence) H4) as [d4' H4'].
  pose proof (llm_columns _ _ _ H4) as C4.
  pose proof (llm_columns _ _ _ H4') as C4'.
  destruct (human_review_completes d4 d4' pre ltac:(congruence) H5) as [pre' H5'].
  exists (DedupAgent.final_cleanup pre').
  unfold DedupAgent.steps. rewrite H2. simpl. rewrite H3'. simpl.
  rewrite H4'. simpl. by rewrite H5'.
Qed.

Lemma rerank_fails_response gc pf d g :
  rerank_fails gc pf d g → rerank_response gc pf d g = None.
Proof.
  unfold rerank_fails, rerank_response.
  intros [H|(text & H & Hp)]; case_bool_decide; try done; by rewrite H.
Qed.

(** C7 (amended).  On a frame with unique row labels that has the annotation
    columns: when the scoring call for one Reranker group raises or returns
    an unparsable text, and when the binary call for one ambiguity-resolver
    group raises, each stage still returns; the rows of the failed group are
    exactly as before the call; every other row is what it would have been
    without the failure; and a run that completes with some adjudicators
    completes with any others. *)
Theorem adjudicator_failure_isolated {Embedding}
    (emb : list string → option (list Embedding)) cos
    (gc gc' : string → option string) (pf : string → option float)
    (llm llm' : string → option string) d g_r g_l d0 out :
  NoDup (name <$> rows d) →
  has_col "group_id" d = true → has_col "match_type" d = true →
  has_col "confidence" d = true →
  rerank_fails gc' pf d g_r →
  (∀ g', g' ≠ g_r →
     gc' (CrossEncoderRerankerStep.prompt d (rerank_group d g'))
     = gc (CrossEncoderRerankerStep.prompt d (rerank_group d g'))) →
  llm' (LLMAssistedStep.prompt d (llm_group d g_l)) = None →
  (∀ g', g' ≠ g_l →
     llm' (LLMAssistedStep.prompt d (llm_group d g'))
     = llm (LLMAssistedStep.prompt d (llm_group d g'))) →
  DedupAgent.run emb cos gc pf llm d0 = Ok out →
  (∃ d1 d2,
     CrossEncoderRerankerStep.process gc pf d = Ok d1 ∧
     CrossEncoderRerankerStep.process gc' pf d = Ok d2 ∧
     ∀ i r, rows d !! i = Some r →
       if CrossEncoderRerankerStep.mask r && bool_decide (group_id r = Some g_r)
       then rows d2 !! i = Some r
       else rows d2 !! i = rows d1 !! i) ∧
  (∃ d1 d2,
     LLMAssistedStep.process llm d = Ok d1 ∧
     LLMAssistedStep.process llm' d = Ok d2 ∧
     ∀ i r, rows d !! i = Some r →
       if bool_decide (group_id r = Some g_l)
       then rows d2 !! i = Some r
       else rows d2 !! i = rows d1 !! i) ∧
  (∃ out', DedupAgent.run emb cos gc' pf llm' d0 = Ok out').
Proof.
  intros Hnd Hg Hm Hc Hrf Hra Hlf Hla Hrun. split; [|split].
  - do 2 eexists. split; [by apply rerank_rows|]. split; [by apply rerank_rows|].
    intros i r Hi. simpl. rewrite !list_lookup_fmap, Hi. simpl.
    unfold rerank_row.
    destruct (CrossEncoderRerankerStep.mask r) eqn:Emask; simpl; [|done].
    destruct (group_id r) as [g|] eqn:Eg.
    2:{ by rewrite bool_decide_eq_false_2. }
    case_bool_decide as Hgr.
    + injection Hgr as ->. by rewrite rerank_fails_response.
    + assert (g ≠ g_r) as Hne by congruence.
      unfold rerank_response. by rewrite Hra.
  - do 2 eexists. split; [by apply llm_rows|]. split; [by apply llm_rows|].
    intros i r Hi. simpl. rewrite !list_lookup_fmap, Hi. simpl.
    unfold llm_row.
    destruct (group_id r) as [g|] eqn:Eg.
    2:{ by rewrite bool_decide_eq_false_2. }
    case_bool_decide as Hgl.
    + injection Hgl as ->. rewrite Hlf. by destruct (_ && _).
    + assert (g ≠ g_l) as Hne by congruence. by rewrite Hla.
  - by eapply run_completes_whatever_adjudicators.
Qed.

(** C7 (counterexample).  In the ambiguity resolver a response that cannot
    be read as an answer is not a failure: with the empty text as response the
    examined groups are dissolved, whereas a call that raises leaves the
    frame as it was. *)
Lemma unreadable_answer_not_isolated :
  LLMAssistedStep.process Examples.silent Examples.mixed_frame
  = Ok Examples.mixed_frame ∧
  ((λ d, (λ r, (group_id r, match_type r)) <$> drop 4 (rows d))
     <$> LLMAssistedStep.process Examples.silent Examples.mixed_frame)
  = Ok [(Some "emb_4", Some "fuzzy_embedding"); (Some "emb_4", Some "fuzzy_embedding");
        (Some "emb_6", Some "fuzzy_embedding"); (Some "emb_6", Some "fuzzy_embedding")] ∧
  ((λ d, (λ r, (group_id r, match_type r)) <$> drop 4 (rows d))
     <$> LLMAssistedStep.process (Examples.says "") Examples.mixed_frame)
  = Ok [(None, Some "llm_discarded"); (None, Some "llm_discarded");
        (None, Some "llm_discarded"); (None, Some "llm_discarded")].
Proof. vm_compute. done. Qed.

(** ** The label [fuzzy_embedding] and the review flag *)

Lemma human_review_no_label d :
  has_col "match_type" d = true → has_col "confidence" d = true →
  (∀ r, r ∈ rows d → match_type r ≠ Some "fuzzy_embedding") →
  HumanReviewStep.process d
  = Ok (add_col "review_required" (set_review_required None) d).
Proof.
  intros Hm Hc Hlabel. unfold HumanReviewStep.process. rewrite Hm, Hc. simpl.
  f_equal.
  assert (Hrows : rows (mask_set (HumanReviewStep.mask <$> rows d) "review_required"
                          (set_review_required None)
                          (set_review_required (Some true)) d)
                  = rows (add_col "review_required" (set_review_required None) d)).
  { rewrite (rows_mask_set HumanReviewStep.mask (rows d)) by done.
    rewrite rows_add_col. apply list_fmap_ext. intros i r Hi. simpl.
    unfold HumanReviewStep.mask.
    rewrite bool_decide_eq_false_2; [done|].
    apply Hlabel. by eapply list_elem_of_lookup_2. }
  unfold mask_set in *. simpl in *. rewrite Hrows.
  by destruct (add_col _ _ d).
Qed.

Lemma filter_none {A} (P : A → Prop) `{!∀ x, Decision (P x)} (l : list A) :
  (∀ x, x ∈ l → ¬ P x) → filter P l = [].
Proof.
  induction l as [|x l IH]; intros Hl; [done|].
  rewrite filter_cons_False by (apply Hl; constructor).
  apply IH. intros y Hy. apply Hl. by constructor.
Qed.

Lemma llm_no_label gc d :
  has_col "match_type" d = true →
  (∀ r, r ∈ rows d → match_type r ≠ Some "fuzzy_embedding") →
  LLMAssistedStep.process gc d = Ok d.
Proof.
  intros Hm Hlabel. unfold LLMAssistedStep.process.
  destruct (_ || _); [done|]. rewrite Hm. simpl.
  assert (select LLMAssistedStep.mask d = []) as ->; [|done].
  unfold select. apply filter_none.
  intros r Hr. unfold LLMAssistedStep.mask.
  rewrite bool_decide_eq_false_2; [done|]. by apply Hlabel.
Qed.

Lemma cleanup_review d i r' :
  rows (DedupAgent.final_cleanup d) !! i = Some r' →
  ∃ r, rows d !! i = Some r ∧ review_required r' = review_required r.
Proof.
  unfold DedupAgent.final_cleanup.
  destruct (has_col "group_id" d) eqn:Hg; [|eauto].
  set (m := λ r, match group_id r with
                 | Some g => bool_decide (DedupAgent.value_count d g = 1%nat)
                 | None => false end).
  destruct (existsb id (m <$> rows d)) eqn:Hex; [|eauto].
  pose proof (rows_final_cleanup d Hg Hex) as Hrows.
  unfold DedupAgent.final_cleanup in Hrows. rewrite Hg in Hrows.
  fold m in Hrows. rewrite Hex in Hrows. rewrite Hrows.
  rewrite list_lookup_fmap. destruct (rows d !! i) as [r|]; simpl; [|done].
  intros [= <-]. exists r. split; [done|].
  unfold cleaned. by destruct (singleton_in d r), (has_col "match_type" d).
Qed.

(** C10 (amended).  On a frame that has the [match_type] and [confidence]
    columns and in which no record carries the label [fuzzy_embedding]: the
    ambiguity resolver returns the frame unchanged, and the review step
    changes no cell of any record and flags none; its only effect is to add
    the [review_required] column, all null, when the frame lacks it.  A run
    on an input without that label flags no record: a record that ends with
    [review_required = true] had it in the input. *)
Theorem unproduced_label_never_flags {Embedding}
    (emb : list string → option (list Embedding)) cos gc pf llm d d0 out :
  has_col "match_type" d = true → has_col "confidence" d = true →
  (∀ r, r ∈ rows d → match_type r ≠ Some "fuzzy_embedding") →
  (∀ r, r ∈ rows d0 → match_type r ≠ Some "fuzzy_embedding") →
  DedupAgent.run emb cos gc pf llm d0 = Ok out →
  LLMAssistedStep.process llm d = Ok d ∧
  HumanReviewStep.process d
  = Ok (add_col "review_required" (set_review_required None) d) ∧
  (has_col "review_required" d = true → HumanReviewStep.process d = Ok d) ∧
  (∀ i r', rows out !! i = Some r' → review_required r' = Some true →
           ∃ r, rows d0 !! i = Some r ∧ review_required r = Some true).
Proof.
  intros Hm Hc Hlabel Hlabel0 Hrun.
  split; [by apply llm_no_label|]. split; [by apply human_review_no_label|].
  split.
  { intros Hr. rewrite human_review_no_label by done. by rewrite add_col_has. }
  unfold DedupAgent.run in Hrun.
  destruct (DedupAgent.steps emb cos gc pf llm d0) as [pre|] eqn:Hsteps; [|done].
  simpl in Hrun. injection Hrun as <-.
  destruct (steps_frame_step _ _ _ _ _ _ _ Hsteps) as (d4 & F & H5 & _).
  assert (Hm4 : has_col "match_type" d4 = true ∧ has_col "confidence" d4 = true).
  { unfold HumanReviewStep.process in H5.
    destruct (has_col "match_type" d4); [|done].
    by destruct (has_col "confidence" d4). }
  destruct Hm4 as [Hm4 Hc4].
  assert (Hlabel4 : ∀ r, r ∈ rows d4 → match_type r ≠ Some "fuzzy_embedding").
  { intros r4 (i & Hi)%list_elem_of_lookup_1.
    destruct F as [_ F].
    destruct (Forall2_lookup_r _ _ _ _ _ F Hi) as (r0 & Hi0 & R).
    apply R, Hlabel0. by eapply list_elem_of_lookup_2. }
  rewrite human_review_no_label in H5 by done. injection H5 as <-.
  intros i r' Hi Hrev.
  apply cleanup_review in Hi as (rp & Hip & Hrp).
  rewrite rows_add_col, list_lookup_fmap in Hip.
  destruct (rows d4 !! i) as [r4|] eqn:Hi4; [|done].
  simpl in Hip. injection Hip as <-.
  destruct F as [_ F].
  destruct (Forall2_lookup_r _ _ _ _ _ F Hi4) as (r0 & Hi0 & R).
  exists r0. split; [done|].
  destruct R as (_&_&_&_&_&R&_). rewrite <- R.
  destruct (has_col "review_required" d4); simpl in Hrp; congruence.
Qed.

(** C10 (counterexample).  A frame that carries only labels produced by the
    earlier stages is not returned unchanged by the review step: the
    resulting frame has one more column, [review_required].  (And a frame
    that has no [confidence] column, such as the pair frame after exact
    matching, makes the step raise.) *)
Lemma review_step_adds_column :
  Forall (λ r, match_type r = Some "fuzzy_hybrid") (rows Examples.produced_frame) ∧
  HumanReviewStep.process Examples.produced_frame
  = Ok (mkDF (columns Examples.produced_frame ++ ["review_required"])
             (rows Examples.produced_frame)) ∧
  (columns <$> HumanReviewStep.process Examples.produced_frame)
  ≠ Ok (columns Examples.produced_frame) ∧
  HumanReviewStep.process (ExactMatchStep.process Examples.pair_frame)
  = Raise (KeyError "confidence").
Proof.
  split; [|split; [|split]].
  - repeat constructor.
  - vm_compute. reflexivity.
  - vm_compute. discriminate.
  - vm_compute. reflexivity.
Qed.

(** C5 (counterexample).  The response [maybe] contains neither [yes] nor
    [no], yet the group is not left as it was: its members lose their
    [group_id] and are labelled [llm_discarded]. *)
Lemma neither_keyword_discards :
  Py.contains "yes" (Py.lower "maybe") = false ∧
  Py.contains "no" (Py.lower "maybe") = false ∧
  ((λ d, (λ r, (group_id r, match_type r)) <$> drop 4 (rows d))
     <$> Ok Examples.mixed_frame)
  = Ok [(Some "emb_4", Some "fuzzy_embedding"); (Some "emb_4", Some "fuzzy_embedding");
        (Some "emb_6", Some "fuzzy_embedding"); (Some "emb_6", Some "fuzzy_embedding")] ∧
  ((λ d, (λ r, (group_id r, match_type r)) <$> drop 4 (rows d))
     <$> LLMAssistedStep.process (Examples.says "maybe") Examples.mixed_frame)
  = Ok [(None, Some "llm_discarded"); (None, Some "llm_discarded");
        (None, Some "llm_discarded"); (None, Some "llm_discarded")].
Proof. vm_compute. done. Qed.

(** ** The theorems at concrete frames *)

Local Ltac by_compute := apply (bool_decide_unpack _); vm_compute; exact I.

Local Ltac by_compute_all := apply (proj1 (Forall_forall _ _)); by_compute.

(** The run on the pair frame completes, and no group of its result has a
    single member. *)
Lemma run_no_singleton_groups_witness :
  ∃ out,
    DedupAgent.run Examples.text_embeddings Examples.same_text Examples.silent
      Examples.parse_score Examples.silent Examples.pair_frame = Ok out ∧
    ∀ r g, r ∈ rows out → group_id r = Some g →
           (2 ≤ DedupAgent.value_count out g)%nat.
Proof.
  eexists. split; [vm_compute; reflexivity|].
  refine (proj1 (run_no_singleton_groups Examples.text_embeddings Examples.same_text
                   Examples.silent Examples.parse_score Examples.silent
                   Examples.pair_frame _ _)).
  vm_compute. reflexivity.
Defined.

(** Anchor 0 of the pair frame confirms record 1. *)
Lemma anchor_row_confirms_witness :
  let d := ExactMatchStep.process Examples.pair_frame in
  let texts := FuzzyMatchStep.norm_descr <$> rows d in
  ∃ st',
    FuzzyMatchStep.anchor_row 0.90%float (rows d) texts
      (FuzzyMatchStep.mkState d ∅ []) 0 [1%float; 1%float] = Ok st' ∧
    (0, 1)%nat ∈ FuzzyMatchStep.confirmed st'.
Proof.
  intros d texts.
  destruct (anchor_row_confirms 0.90%float (rows d) texts
              (FuzzyMatchStep.mkState d ∅ []) 0 [1%float; 1%float])
    as (st' & Hst' & Hiff & _).
  - apply not_elem_of_empty.
  - vm_compute. lia.
  - vm_compute. lia.
  - vm_compute. reflexivity.
  - exists st'. split; [done|]. apply Hiff. right. split; [done|].
    vm_compute. reflexivity.
Defined.

(** The trace of the chain frame has no anchor that was a partner before. *)
Lemma similarity_stage_no_reanchor_witness :
  ∃ st,
    FuzzyMatchStep.process_chunked Examples.text_embeddings Examples.chain_cosine
      0.90%float 5000 (ExactMatchStep.process Examples.chain_frame) = Ok st ∧
    no_reanchor (FuzzyMatchStep.confirmed st).
Proof.
  eexists. split; [vm_compute; reflexivity|].
  refine (similarity_stage_no_reanchor Examples.text_embeddings Examples.chain_cosine
            0.90%float 5000 (ExactMatchStep.process Examples.chain_frame) _ _).
  vm_compute. reflexivity.
Defined.

(** Chunks of 1000 and of 5000 rows give the same result. *)
Lemma chunk_size_independent_witness :
  FuzzyMatchStep.process_chunked Examples.text_embeddings Examples.chain_cosine
    0.90%float 1000 (ExactMatchStep.process Examples.chain_frame)
  = FuzzyMatchStep.process_chunked Examples.text_embeddings Examples.chain_cosine
      0.90%float 5000 (ExactMatchStep.process Examples.chain_frame).
Proof. apply chunk_size_independent; lia. Defined.

(** The two records sharing item code A7 and the two records sharing
    barcode 401 are grouped; the record without keys is not. *)
Lemma exact_match_partitions_witness :
  let d2 := ExactMatchStep.process Examples.keyed_frame in
  (in_group d2 0 "exact_item_A7" "exact_item_code" ∧
   in_group d2 1 "exact_item_A7" "exact_item_code") ∧
  (in_group d2 2 "exact_barcode_401" "exact_barcode" ∧
   in_group d2 3 "exact_barcode_401" "exact_barcode") ∧
  (group_id <$> rows d2 !! 4%nat) = Some None.
Proof.
  intros d2.
  assert (Hnd : NoDup (name <$> rows Examples.keyed_frame)) by by_compute.
  destruct (exact_match_partitions Examples.keyed_frame Hnd) as (H1 & H2 & _ & H4).
  split; [|split].
  - eapply (H1 eq_refl 0%nat 1%nat _ _ "A7"); [lia|vm_compute; reflexivity..].
  - eapply (H2 eq_refl 2%nat 3%nat _ _ "401"); [lia|vm_compute; reflexivity..].
  - unfold d2. erewrite H4; [|vm_compute; reflexivity|reflexivity]. reflexivity.
Defined.

(** The spec's scenario: a borderline group of two, adjudicated at 0.6, is
    dissolved and labelled [rerank_discarded]. *)
Lemma reranker_rescores_witness :
  ∃ d',
    CrossEncoderRerankerStep.process (Examples.says "0.6") Examples.parse_score
      Examples.mixed_frame = Ok d' ∧
    ∀ i r, rows Examples.mixed_frame !! i = Some r →
      r ∈ rerank_group Examples.mixed_frame "fuzzy_0" →
      ∃ r', rows d' !! i = Some r' ∧ confidence r' = 0.6%float ∧
        if (0.6 <? 0.8)%float
        then group_id r' = None ∧ match_type r' = Some "rerank_discarded"
        else group_id r' = Some "fuzzy_0" ∧ match_type r' = Some "rerank_verified".
Proof.
  apply (reranker_rescores (Examples.says "0.6") Examples.parse_score
           Examples.mixed_frame "fuzzy_0" "0.6" 0.6%float).
  - by_compute.
  - reflexivity.
  - reflexivity.
  - reflexivity.
  - vm_compute. lia.
  - reflexivity.
  - vm_compute. reflexivity.
Defined.

(** A response without [yes] discards the group. *)
Lemma binary_answer_decides_witness :
  ∃ d',
    LLMAssistedStep.process (Examples.says "maybe") Examples.mixed_frame = Ok d' ∧
    ∀ i r, rows Examples.mixed_frame !! i = Some r → group_id r = Some "emb_4" →
      ∃ r', rows d' !! i = Some r' ∧ confidence r' = confidence r ∧
        group_id r' = None ∧ match_type r' = Some "llm_discarded".
Proof.
  destruct (binary_answer_decides (Examples.says "maybe") Examples.mixed_frame "emb_4")
    as (d' & Hd' & Hrows).
  - by_compute.
  - reflexivity.
  - reflexivity.
  - reflexivity.
  - by_compute.
  - vm_compute. lia.
  - exists d'. split; [exact Hd'|]. intros i r Hi Hg.
    destruct (Hrows i r Hi Hg) as (r' & Hr' & Hconf & Hans).
    exists r'. split; [exact Hr'|]. split; [exact Hconf|exact Hans].
Defined.

Lemma mixed_rerank_group_empty g :
  g ≠ "fuzzy_0" → g ≠ "fuzzy_2" → rerank_group Examples.mixed_frame g = [].
Proof.
  intros H0 H2. unfold rerank_group, select. apply filter_none.
  intros x [Hmask Hx]%list_elem_of_filter. simpl in Hx.
  repeat (apply elem_of_cons in Hx as [->|Hx];
          [first [ by (simpl; congruence) | by vm_compute in Hmask ]|]).
  by apply elem_of_nil in Hx.
Qed.

Lemma mixed_llm_group_empty g :
  g ≠ "fuzzy_0" → g ≠ "fuzzy_2" → g ≠ "emb_4" → g ≠ "emb_6" →
  llm_group Examples.mixed_frame g = [].
Proof.
  intros H0 H2 H4 H6. unfold llm_group, select. apply filter_none.
  intros x Hx. rewrite bool_decide_eq_true. simpl in Hx.
  repeat (apply elem_of_cons in Hx as [->|Hx]; [by (simpl; congruence)|]).
  by apply elem_of_nil in Hx.
Qed.

Lemma mixed_rerank_other_prompts g :
  g ≠ "fuzzy_0" →
  Examples.fails_on Examples.rerank_prompt_0 "0.6"
    (CrossEncoderRerankerStep.prompt Examples.mixed_frame
       (rerank_group Examples.mixed_frame g))
  = Examples.says "0.6"
      (CrossEncoderRerankerStep.prompt Examples.mixed_frame
         (rerank_group Examples.mixed_frame g)).
Proof.
  intros H0. destruct (decide (g = "fuzzy_2")) as [->|H2].
  - vm_compute. reflexivity.
  - rewrite mixed_rerank_group_empty by done. vm_compute. reflexivity.
Qed.

Lemma mixed_llm_other_prompts g :
  g ≠ "emb_4" →
  Examples.fails_on Examples.llm_prompt_4 "yes"
    (LLMAssistedStep.prompt Examples.mixed_frame (llm_group Examples.mixed_frame g))
  = Examples.says "yes"
      (LLMAssistedStep.prompt Examples.mixed_frame (llm_group Examples.mixed_frame g)).
Proof.
  intros H4.
  destruct (decide (g = "fuzzy_0")) as [->|H0]; [vm_compute; reflexivity|].
  destruct (decide (g = "fuzzy_2")) as [->|H2]; [vm_compute; reflexivity|].
  destruct (decide (g = "emb_6")) as [->|H6]; [vm_compute; reflexivity|].
  rewrite mixed_llm_group_empty by done. vm_compute. reflexivity.
Qed.

(** One failing call per stage on the mixed frame: the failed groups keep
    their rows, the other groups are adjudicated as before, and the run
    completes. *)
Lemma adjudicator_failure_isolated_witness :
  let d := Examples.mixed_frame in
  let gc := Examples.says "0.6" in
  let gc' := Examples.fails_on Examples.rerank_prompt_0 "0.6" in
  let llm := Examples.says "yes" in
  let llm' := Examples.fails_on Examples.llm_prompt_4 "yes" in
  (∃ d1 d2,
     CrossEncoderRerankerStep.process gc Examples.parse_score d = Ok d1 ∧
     CrossEncoderRerankerStep.process gc' Examples.parse_score d = Ok d2 ∧
     ∀ i r, rows d !! i = Some r →
       if CrossEncoderRerankerStep.mask r && bool_decide (group_id r = Some "fuzzy_0")
       then rows d2 !! i = Some r
       else rows d2 !! i = rows d1 !! i) ∧
  (∃ d1 d2,
     LLMAssistedStep.process llm d = Ok d1 ∧
     LLMAssistedStep.process llm' d = Ok d2 ∧
     ∀ i r, rows d !! i = Some r →
       if bool_decide (group_id r = Some "emb_4")
       then rows d2 !! i = Some r
       else rows d2 !! i = rows d1 !! i) ∧
  (∃ out',
     DedupAgent.run Examples.text_embeddings Examples.same_text gc'
       Examples.parse_score llm' Examples.pair_frame = Ok out').
Proof.
  intros d gc gc' llm llm'.
  eapply (adjudicator_failure_isolated Examples.text_embeddings Examples.same_text
            gc gc' Examples.parse_score llm llm' d "fuzzy_0" "emb_4"
            Examples.pair_frame).
  - by_compute.
  - reflexivity.
  - reflexivity.
  - reflexivity.
  - left. vm_compute. reflexivity.
  - apply mixed_rerank_other_prompts.
  - vm_compute. reflexivity.
  - apply mixed_llm_other_prompts.
  - vm_compute. reflexivity.
Defined.

(** On the frame with produced labels only, the resolver changes nothing and
    the review step adds its column; the run on the pair frame flags
    nothing. *)
Lemma unproduced_label_never_flags_witness :
  LLMAssistedStep.process Examples.silent Examples.produced_frame
  = Ok Examples.produced_frame ∧
  HumanReviewStep.process Examples.produced_frame
  = Ok (add_col "review_required" (set_review_required None) Examples.produced_frame) ∧
  ∃ out,
    DedupAgent.run Examples.text_embeddings Examples.same_text Examples.silent
      Examples.parse_score Examples.silent Examples.pair_frame = Ok out ∧
    ∀ i r', rows out !! i = Some r' → review_required r' = Some true →
      ∃ r, rows Examples.pair_frame !! i = Some r ∧ review_required r = Some true.
Proof.
  assert (Hrun : ∃ out,
            DedupAgent.run Examples.text_embeddings Examples.same_text Examples.silent
              Examples.parse_score Examples.silent Examples.pair_frame = Ok out).
  { eexists. vm_compute. reflexivity. }
  destruct Hrun as [out Hrun].
  destruct (unproduced_label_never_flags Examples.text_embeddings Examples.same_text
              Examples.silent Examples.parse_score Examples.silent
              Examples.produced_frame Examples.pair_frame out)
    as (H1 & H2 & _ & H4).
  - reflexivity.
  - reflexivity.
  - by_compute_all.
  - by_compute_all.
  - exact Hrun.
  - split; [exact H1|]. split; [exact H2|]. exists out. split; [exact Hrun|exact H4].
Defined.

(** * Further properties of the code *)

(** ** Rows related position by position *)

Lemma Forall2_fmap_rel {A} (R : A → A → Prop) (f : A → A) (l : list A) :
  (∀ x, R x (f x)) → Forall2 R l (f <$> l).
Proof.
  intros Hf. apply Forall2_fmap_r, Forall2_same_length_lookup_2; [done|].
  intros i x y ? ?. simplify_eq. apply Hf.
Qed.

Lemma rows_loc_set idx c fill upd d :
  rows (loc_set idx c fill upd d)
  = (λ r, let r' := (if has_col c d then id else fill) r in
          if bool_decide (name r' ∈ idx) then upd r' else r') <$> rows d.
Proof.
  unfold loc_set. cbn [rows]. rewrite rows_add_col, <- list_fmap_compose. done.
Qed.

Section RowRelations.
  Variable R : Row → Row → Prop.
  Hypothesis R_refl : ∀ r, R r r.
  Hypothesis R_trans : ∀ r1 r2 r3, R r1 r2 → R r2 r3 → R r1 r3.

Lemma rel_refl_rows (l : list Row) : Forall2 R l l.
Proof. rewrite <- (list_fmap_id l) at 2. by apply Forall2_fmap_rel. Qed.

Lemma rel_trans_rows (l1 l2 l3 : list Row) :
  Forall2 R l1 l2 → Forall2 R l2 l3 → Forall2 R l1 l3.
Proof. intros. eapply Forall2_trans; [|done..]. apply R_trans. Qed.

Lemma rel_loc_set idx c fill upd d :
  (∀ r, R r (fill r)) → (∀ r, R r (upd r)) →
  Forall2 R (rows d) (rows (loc_set idx c fill upd d)).
Proof.
  intros Hf Hu. rewrite rows_loc_set. apply Forall2_fmap_rel. intros r. simpl.
  assert (R r ((if has_col c d then id else fill) r)) as H0
    by (destruct (has_col c d); [apply R_refl|apply Hf]).
  case_bool_decide; [|done]. eapply R_trans; [exact H0|apply Hu].
Qed.

Lemma rel_mask_set mask c fill upd d :
  length mask = length (rows d) →
  (∀ r, R r (fill r)) → (∀ r, R r (upd r)) →
  Forall2 R (rows d) (rows (mask_set mask c fill upd d)).
Proof.
  intros Hlen Hf Hu. unfold mask_set. cbn [rows]. rewrite rows_add_col.
  apply Forall2_same_length_lookup_2.
  { rewrite length_zip_with, length_fmap. lia. }
  intros i r r' Hi Hi'.
  apply lookup_zip_with_Some in Hi' as (b & r0 & -> & Hb & Hr0).
  rewrite list_lookup_fmap, Hi in Hr0. simpl in Hr0. injection Hr0 as <-.
  assert (R r ((if has_col c d then id else fill) r)) as H0
    by (destruct (has_col c d); [apply R_refl|apply Hf]).
  destruct b; [|done]. eapply R_trans; [exact H0|apply Hu].
Qed.

Lemma rel_fold_left {A} (body : DataFrame → A → DataFrame) l d :
  (∀ d a, Forall2 R (rows d) (rows (body d a))) →
  Forall2 R (rows d) (rows (fold_left body l d)).
Proof.
  intros H. revert d. induction l as [|a l IH]; intros d; simpl.
  - apply rel_refl_rows.
  - eapply rel_trans_rows; [apply H|apply IH].
Qed.

Lemma rel_rerank gc pf d d' :
  (∀ v r, R r (set_confidence v r)) → (∀ r, R r (set_group_id None r)) →
  (∀ v r, R r (set_match_type v r)) →
  CrossEncoderRerankerStep.process gc pf d = Ok d' → Forall2 R (rows d) (rows d').
Proof.
  intros Hc Hg Hm. unfold CrossEncoderRerankerStep.process.
  destruct (_ || _). { intros [= <-]. apply rel_refl_rows. }
  destruct (has_col "confidence" d); simpl; [|done].
  case_bool_decide. { intros [= <-]. apply rel_refl_rows. }
  intros [= <-]. apply rel_fold_left. intros d1 g.
  unfold CrossEncoderRerankerStep.group_body.
  case_bool_decide; [apply rel_refl_rows|].
  destruct (gc _); [|apply rel_refl_rows].
  destruct (pf _); [|apply rel_refl_rows].
  unfold CrossEncoderRerankerStep.apply_score.
  destruct (PrimFloat.ltb _ _).
  - eapply rel_trans_rows; [|apply rel_loc_set; auto].
    eapply rel_trans_rows; apply rel_loc_set; auto.
  - eapply rel_trans_rows; apply rel_loc_set; auto.
Qed.

Lemma rel_llm gc d d' :
  (∀ r, R r (set_group_id None r)) → (∀ v r, R r (set_match_type v r)) →
  LLMAssistedStep.process gc d = Ok d' → Forall2 R (rows d) (rows d').
Proof.
  intros Hg Hm. unfold LLMAssistedStep.process.
  destruct (_ || _). { intros [= <-]. apply rel_refl_rows. }
  destruct (has_col "match_type" d); simpl; [|done].
  case_bool_decide. { intros [= <-]. apply rel_refl_rows. }
  intros [= <-]. apply rel_fold_left. intros d1 g.
  unfold LLMAssistedStep.group_body.
  case_bool_decide; [apply rel_refl_rows|].
  destruct (gc _); [|apply rel_refl_rows].
  unfold LLMAssistedStep.apply_answer.
  destruct (Py.contains _ _).
  - apply rel_loc_set; auto.
  - eapply rel_trans_rows; apply rel_loc_set; auto.
Qed.

Lemma rel_human_review d d' :
  (∀ v r, R r (set_review_required v r)) →
  HumanReviewStep.process d = Ok d' → Forall2 R (rows d) (rows d').
Proof.
  intros Hr. unfold HumanReviewStep.process.
  destruct (has_col "match_type" d); simpl; [|done].
  destruct (has_col "confidence" d); simpl; [|done].
  intros [= <-]. apply rel_mask_set; [by rewrite length_fmap|auto..].
Qed.

Lemma rel_final_cleanup d :
  (∀ r, R r (set_group_id None r)) → (∀ r, R r (set_match_type None r)) →
  Forall2 R (rows d) (rows (DedupAgent.final_cleanup d)).
Proof.
  intros Hg Hm. unfold DedupAgent.final_cleanup.
  destruct (has_col "group_id" d); [|apply rel_refl_rows].
  match goal with |- context [existsb id ?m] => destruct (existsb id m) end;
    [|apply rel_refl_rows].
  eapply rel_trans_rows; cycle 1.
  - apply rel_mask_set; [|auto..].
    unfold mask_set. cbn [rows]. rewrite rows_add_col.
    by rewrite length_zip_with, !length_fmap, Nat.min_id.
  - apply rel_mask_set; [by rewrite length_fmap|auto..].
Qed.

Lemma rel_adjudicate gc pf llm d out :
  (∀ v r, R r (set_confidence v r)) → (∀ r, R r (set_group_id None r)) →
  (∀ v r, R r (set_match_type v r)) → (∀ v r, R r (set_review_required v r)) →
  adjudicate gc pf llm d = Ok out → Forall2 R (rows d) (rows out).
Proof.
  intros Hc Hg Hm Hr. unfold adjudicate.
  destruct (CrossEncoderRerankerStep.process gc pf d) as [d3|] eqn:H3; simpl; [|done].
  destruct (LLMAssistedStep.process llm d3) as [d4|] eqn:H4; simpl; [|done].
  destruct (HumanReviewStep.process d4) as [pre|] eqn:H5; simpl; [|done].
  intros [= <-].
  eapply rel_trans_rows; [by eapply rel_rerank|].
  eapply rel_trans_rows; [by eapply rel_llm|].
  eapply rel_trans_rows; [by eapply rel_human_review|].
  by apply rel_final_cleanup.
Qed.
End RowRelations.

Lemma run_adjudicate {Embedding} (emb : list string → option (list Embedding))
    cos gc pf llm d out :
  DedupAgent.run emb cos gc pf llm d = Ok out ↔
  ∃ d2, FuzzyMatchStep.process emb cos 0.90%float (ExactMatchStep.process d) = Ok d2 ∧
        adjudicate gc pf llm d2 = Ok out.
Proof.
  unfold DedupAgent.run, DedupAgent.steps, adjudicate.
  destruct (FuzzyMatchStep.process _ _ _ _) as [d2|]; simpl.
  2:{ split; [done|]. by intros (? & ? & _). }
  split.
  - intros H. exists d2. split; [done|].
    destruct (CrossEncoderRerankerStep.process gc pf d2) as [d3|]; simpl in *; [|done].
    destruct (LLMAssistedStep.process llm d3) as [d4|]; simpl in *; [|done].
    by destruct (HumanReviewStep.process d4).
  - intros (? & [= <-] & H).
    destruct (CrossEncoderRerankerStep.process gc pf d2) as [d3|]; simpl in *; [|done].
    destruct (LLMAssistedStep.process llm d3) as [d4|]; simpl in *; [|done].
    by destruct (HumanReviewStep.process d4).
Qed.

Lemma run_same_records {Embedding} (emb : list string → option (list Embedding))
    cos gc pf llm d out :
  DedupAgent.run emb cos gc pf llm d = Ok out →
  Forall2 same_record (rows d) (rows out).
Proof.
  intros (d2 & H2 & Hadj)%run_adjudicate.
  eapply (Forall2_trans same_record same_record); [| |eapply (rel_adjudicate same_record)].
  - intros r1 r2 r3 (?&?&?&?&?) (?&?&?&?&?). repeat split; congruence.
  - assert (frame_step d d2) as [_ F2].
    { eapply frame_step_trans; [apply frame_step_exact|by eapply frame_step_fuzzy]. }
    eapply Forall2_impl; [exact F2|].
    intros r r' (?&?&?&?&?&_). by repeat split.
  - by repeat split.
  - intros r1 r2 r3 (?&?&?&?&?) (?&?&?&?&?). repeat split; congruence.
  - by repeat split.
  - by repeat split.
  - by repeat split.
  - by repeat split.
  - exact Hadj.
Qed.

(** X1.  A run that returns hands back the records it was given: as many
    rows, in the same order, each with its label, its keys and its
    descriptions unchanged. *)
Theorem run_keeps_records {Embedding} (emb : list string → option (list Embedding))
    cos gc pf llm d out :
  DedupAgent.run emb cos gc pf llm d = Ok out →
  length (rows out) = length (rows d) ∧ Forall2 same_record (rows d) (rows out).
Proof.
  intros F%run_same_records. split; [|done]. symmetry. by eapply Forall2_length.
Qed.

(** X2.  After the similarity stage groups only dissolve: in the result of
    a run every record has the [group_id] that the similarity stage left it
    with, or none.  The Reranker, the ambiguity resolver, the review step
    and the cleanup never put a record into a group. *)
Theorem adjudication_only_dissolves {Embedding}
    (emb : list string → option (list Embedding)) cos gc pf llm d out :
  DedupAgent.run emb cos gc pf llm d = Ok out →
  ∃ d2, FuzzyMatchStep.process emb cos 0.90%float (ExactMatchStep.process d) = Ok d2 ∧
        Forall2 group_kept_or_cleared (rows d2) (rows out).
Proof.
  intros (d2 & H2 & Hadj)%run_adjudicate. exists d2. split; [done|].
  eapply (rel_adjudicate group_kept_or_cleared); [| | | | | |exact Hadj].
  - by left.
  - intros r1 r2 r3 [H12|H12] [H23|H23]; unfold group_kept_or_cleared;
      rewrite ?H23, ?H12; auto.
  - by left.
  - by right.
  - by left.
  - by left.
Qed.

(** X3.  The final cleanup is idempotent: cleaning a cleaned frame changes
    nothing. *)
Theorem final_cleanup_idempotent d :
  DedupAgent.final_cleanup (DedupAgent.final_cleanup d) = DedupAgent.final_cleanup d.
Proof.
  destruct (has_col "group_id" d) eqn:Hg.
  2:{ unfold DedupAgent.final_cleanup at 2. rewrite Hg.
      unfold DedupAgent.final_cleanup. by rewrite Hg. }
  set (d' := DedupAgent.final_cleanup d).
  assert (Hg' : has_col "group_id" d' = true).
  { unfold d', DedupAgent.final_cleanup. rewrite Hg.
    match goal with |- context [existsb id ?m] => destruct (existsb id m) end;
      [|done].
    by apply has_col_mask_set_mono, has_col_mask_set_mono. }
  unfold DedupAgent.final_cleanup at 1. rewrite Hg'.
  match goal with |- context [existsb id ?m] => replace (existsb id m) with false end;
    [done|]. symmetry.
  apply not_true_iff_false. intros (b & Hb & Hid)%existsb_exists.
  apply list_elem_of_In, list_elem_of_fmap in Hb as (r & -> & Hr).
  destruct (group_id r) as [g|] eqn:Eg; [|done].
  apply bool_decide_eq_true in Hid.
  pose proof (cleanup_no_singletons d r g Hg Hr Eg) as H2. fold d' in H2. lia.
Qed.

(** ** More on the similarity stage *)

Lemma has_col_loc_set_iff c idx c' fill upd d :
  c ≠ c' → has_col c (loc_set idx c' fill upd d) = has_col c d.
Proof.
  intros Hne. unfold loc_set, has_col, add_col, has_col. simpl.
  destruct (bool_decide (c' ∈ columns d)); [done|]. simpl.
  apply bool_decide_ext. rewrite elem_of_app, list_elem_of_singleton. tauto.
Qed.

(** The rows after the three assignments of lines 137-139. *)
Lemma rows_assign label gid score d :
  has_col "group_id" d = true → has_col "match_type" d = true →
  rows (FuzzyMatchStep.assign label gid score d)
  = (λ r, let r0 := (if has_col "confidence" d then id else set_confidence nan) r in
          if bool_decide (name r ∈ [label])
          then set_confidence score
                 (set_match_type (Some "fuzzy_hybrid") (set_group_id (Some gid) r0))
          else r0) <$> rows d.
Proof.
  intros Hg Hm. unfold FuzzyMatchStep.assign.
  rewrite rows_loc_set.
  rewrite (has_col_loc_set_iff "confidence" _ "match_type") by done.
  rewrite (has_col_loc_set_iff "confidence" _ "group_id") by done.
  rewrite (loc_set_has _ "group_id") by done.
  rewrite (loc_set_has _ "match_type") by done.
  rewrite map_rows_compose. unfold map_rows. cbn [rows].
  rewrite <- list_fmap_compose. apply list_fmap_ext. intros i r _. simpl.
  destruct (has_col "confidence" d); simpl;
    destruct (bool_decide (name r ∈ [label])) eqn:E; simpl; rewrite ?E; simpl;
    by rewrite ?E.
Qed.

Lemma has_col_assign c label gid score d :
  has_col c d = true → has_col c (FuzzyMatchStep.assign label gid score d) = true.
Proof.
  intros H. unfold FuzzyMatchStep.assign. by do 3 apply has_col_loc_set_mono.
Qed.

Lemma has_col_confidence_assign label gid score d :
  has_col "confidence" (FuzzyMatchStep.assign label gid score d) = true.
Proof.
  unfold FuzzyMatchStep.assign, loc_set at 1, has_col. cbn [columns].
  apply has_col_add_col.
Qed.

Section FuzzyMore.
  Context {Embedding : Type}.
  Variable model_get_embeddings : list string → option (list Embedding).
  Variable cosine : Embedding → Embedding → float.
  Variable threshold : float.

(** One candidate, in full: either nothing happens, or the partner's row
    gets the three assignments with a score above the threshold. *)
Lemma candidate_outcome remaining texts a sim_row st j st' :
  FuzzyMatchStep.candidate threshold remaining texts a sim_row st j = Ok st' →
  st' = st ∨
  ∃ anchor partner score,
    j ≠ a ∧ remaining !! a = Some anchor ∧ remaining !! j = Some partner ∧
    (threshold <? score)%float = true ∧
    st' = FuzzyMatchStep.mkState
            (FuzzyMatchStep.assign (name partner)
               ("fuzzy_" +:+ Py.str_of_nat (name anchor)) score
               (FuzzyMatchStep.df st))
            ({[a]} ∪ ({[j]} ∪ FuzzyMatchStep.visited st))
            (FuzzyMatchStep.confirmed st ++ [(a, j)]).
Proof.
  unfold FuzzyMatchStep.candidate. case_bool_decide as Hj.
  { intros [= <-]. by left. }
  unfold at_index.
  destruct (texts !! a) as [t1|]; simpl; [|done].
  destruct (texts !! j) as [t2|]; simpl; [|done].
  destruct (sim_row !! j) as [sim|]; simpl; [|done].
  destruct (PrimFloat.ltb threshold _) eqn:Hlt.
  2:{ intros [= <-]. by left. }
  destruct (remaining !! a) as [anchor|]; simpl; [|done].
  destruct (remaining !! j) as [partner|]; simpl; [|done].
  intros [= <-]. right. eauto 10.
Qed.

(** A property of pairs of states that every candidate step has, and that
    is reflexive and transitive, holds between the start and the end of the
    stage's loops. *)
Lemma chunks_relation (Q : FuzzyMatchStep.State → FuzzyMatchStep.State → Prop)
    remaining texts embeddings chunk_size st st' :
  (∀ s, Q s s) → (∀ s1 s2 s3, Q s1 s2 → Q s2 s3 → Q s1 s3) →
  (∀ a sim_row s j s',
     FuzzyMatchStep.candidate threshold remaining texts a sim_row s j = Ok s' →
     Q s s') →
  FuzzyMatchStep.chunks cosine threshold remaining texts embeddings chunk_size st
  = Ok st' →
  Q st st'.
Proof.
  intros Hrefl Htrans Hcand. unfold FuzzyMatchStep.chunks.
  apply (for_each_invariant Q); [done..|].
  intros s i s'. unfold FuzzyMatchStep.chunk.
  apply (for_each_invariant Q); [done..|].
  intros s1 r s2. destruct (at_index _ r); simpl; [|done].
  unfold FuzzyMatchStep.anchor_row. case_bool_decide.
  { intros [= <-]. apply Hrefl. }
  apply (for_each_invariant Q); [done..|]. intros. by eapply Hcand.
Qed.

Lemma process_chunked_relation
    (Q : FuzzyMatchStep.State → FuzzyMatchStep.State → Prop) c d st :
  (∀ s, Q s s) → (∀ s1 s2 s3, Q s1 s2 → Q s2 s3 → Q s1 s3) →
  (∀ texts a sim_row s j s',
     FuzzyMatchStep.candidate threshold (ungrouped d) texts a sim_row s j = Ok s' →
     Q s s') →
  FuzzyMatchStep.process_chunked model_get_embeddings cosine threshold c d = Ok st →
  Q (FuzzyMatchStep.mkState d ∅ []) st.
Proof.
  intros Hrefl Htrans Hcand. unfold FuzzyMatchStep.process_chunked.
  fold (ungrouped d). case_bool_decide.
  { intros [= <-]. apply Hrefl. }
  destruct (has_col "DESCR" d); simpl; [|done].
  destruct (has_col "DESCR60" d); simpl; [|done].
  destruct (FuzzyMatchStep._get_embeddings _ _) as [embeddings|]; simpl; [|done].
  apply chunks_relation; [done..|]. intros. by eapply Hcand.
Qed.

(** When no pair is confirmed the frame is returned as it came. *)
Lemma fuzzy_no_pair_unchanged c d st :
  FuzzyMatchStep.process_chunked model_get_embeddings cosine threshold c d = Ok st →
  FuzzyMatchStep.confirmed st = [] → FuzzyMatchStep.df st = d.
Proof.
  intros Hst Hnil.
  pose proof (process_chunked_relation
    (λ s s', (∃ l, FuzzyMatchStep.confirmed s' = FuzzyMatchStep.confirmed s ++ l) ∧
             (FuzzyMatchStep.confirmed s' = FuzzyMatchStep.confirmed s → s' = s))
    c d st) as H.
  destruct H as [_ H]; [| | |exact Hst|].
  - intros s. split; [exists []; by rewrite app_nil_r|done].
  - intros s1 s2 s3 [[l1 E1] H1] [[l2 E2] H2]. split.
    + exists (l1 ++ l2). by rewrite E2, E1, app_assoc.
    + intros E3. rewrite E2, E1, <- app_assoc in E3.
      rewrite <- (app_nil_r (FuzzyMatchStep.confirmed s1)) in E3 at 2.
      apply app_inv_head, app_eq_nil in E3 as [-> ->].
      rewrite app_nil_r in E1, E2. rewrite H2, H1 by congruence. done.
  - intros texts a sim_row s j s' [->|(an & pa & sc & _ & _ & _ & _ & ->)]%candidate_outcome.
    + split; [exists []; by rewrite app_nil_r|done].
    + simpl. split; [eauto|]. intros E.
      rewrite <- (app_nil_r (FuzzyMatchStep.confirmed s)) in E at 2.
      by apply app_inv_head in E.
  - simpl in H. rewrite H; [done|]. by rewrite Hnil.
Qed.
End FuzzyMore.

Section FuzzyWrites.
  Context {Embedding : Type}.
  Variable model_get_embeddings : list string → option (list Embedding).
  Variable cosine : Embedding → Embedding → float.
  Variable threshold : float.

Lemma fuzzy_written_rows c d st :
  has_col "group_id" d = true → has_col "match_type" d = true →
  FuzzyMatchStep.process_chunked model_get_embeddings cosine threshold c d = Ok st →
  Forall2 (written_only_as_partner (ungrouped d) (FuzzyMatchStep.confirmed st))
          (rows d) (rows (FuzzyMatchStep.df st)).
Proof.
  intros Hg Hm Hst.
  pose proof (process_chunked_relation model_get_embeddings cosine threshold
    (λ s s',
       let I s := has_col "group_id" (FuzzyMatchStep.df s) = true ∧
                  has_col "match_type" (FuzzyMatchStep.df s) = true ∧
                  Forall2 (written_only_as_partner (ungrouped d)
                             (FuzzyMatchStep.confirmed s))
                          (rows d) (rows (FuzzyMatchStep.df s)) in
       I s → I s') c d st) as H.
  simpl in H. destruct H as (_ & _ & HF); [by auto|by auto| |exact Hst| |exact HF].
  - intros texts a sim_row s j s'
      [->|(an & pa & sc & Hja & Ha & Hj & _ & ->)]%candidate_outcome; [done|].
    cbn [FuzzyMatchStep.df FuzzyMatchStep.confirmed].
    intros (Hg1 & Hm1 & F). split; [by apply has_col_assign|].
    split; [by apply has_col_assign|].
    rewrite rows_assign by done. apply Forall2_fmap_r.
    eapply Forall2_impl; [exact F|]. intros r r1 [Hn Hkeep]. simpl.
    assert (Hname : ∀ x, name ((if has_col "confidence" (FuzzyMatchStep.df s)
                                then id else set_confidence nan) x) = name x)
      by (intros x; by destruct (has_col "confidence" (FuzzyMatchStep.df s))).
    split.
    { case_bool_decide; simpl; rewrite ?Hname; done. }
    intros Hnever.
    destruct Hkeep as [Hgid Hmt].
    { intros a0 j0 Hin. apply (Hnever a0 j0). apply elem_of_app. by left. }
    rewrite bool_decide_eq_false_2.
    { by destruct (has_col "confidence" (FuzzyMatchStep.df s)). }
    rewrite list_elem_of_singleton. intros Hr1.
    apply (Hnever a j); [apply elem_of_app; right; by constructor|].
    exists pa. split; [done|]. congruence.
  - split; [done|]. split; [done|].
    apply Forall2_same_length_lookup_2; [done|].
    intros i r r' ? ?. simplify_eq. by split.
Qed.

(** X4.  The similarity stage writes only the rows of confirmed partners:
    every row keeps its label, and a row whose label is not the label of the
    partner of any confirmed pair keeps its [group_id] and [match_type].  In
    particular an anchor that no other row confirms stays ungrouped, and so
    does every row that was already grouped when labels are unique. *)
Theorem fuzzy_writes_only_partners c d st :
  has_col "group_id" d = true → has_col "match_type" d = true →
  FuzzyMatchStep.process_chunked model_get_embeddings cosine threshold c d = Ok st →
  Forall2 (written_only_as_partner (ungrouped d) (FuzzyMatchStep.confirmed st))
          (rows d) (rows (FuzzyMatchStep.df st)).
Proof. apply fuzzy_written_rows. Qed.

(** X5.  On a frame in which no row carries the label [fuzzy_hybrid] yet,
    every row that the similarity stage leaves with that label is in a group
    and has a confidence strictly above the threshold. *)
Theorem fuzzy_labels_sound d d' :
  has_col "group_id" d = true → has_col "match_type" d = true →
  Forall (λ r, match_type r ≠ Some "fuzzy_hybrid") (rows d) →
  FuzzyMatchStep.process model_get_embeddings cosine threshold d = Ok d' →
  Forall (fuzzy_label_sound threshold) (rows d').
Proof.
  intros Hg Hm Hfresh. unfold FuzzyMatchStep.process.
  destruct (FuzzyMatchStep.process_chunked _ _ _ _ _) as [st|] eqn:Hst; [|done].
  simpl. intros [= <-].
  pose proof (process_chunked_relation model_get_embeddings cosine threshold
    (λ s s',
       let I s := has_col "group_id" (FuzzyMatchStep.df s) = true ∧
                  has_col "match_type" (FuzzyMatchStep.df s) = true ∧
                  Forall (fuzzy_label_sound threshold) (rows (FuzzyMatchStep.df s)) ∧
                  (has_col "confidence" (FuzzyMatchStep.df s) = false →
                   Forall (λ r, match_type r ≠ Some "fuzzy_hybrid")
                          (rows (FuzzyMatchStep.df s))) in
       I s → I s') 5000 d st) as H.
  simpl in H. destruct H as (_ & _ & HF & _); [by auto|by auto| |exact Hst| |exact HF].
  - intros texts a sim_row s j s'
      [->|(an & pa & sc & Hja & Ha & Hj & Hsc & ->)]%candidate_outcome; [done|].
    cbn [FuzzyMatchStep.df FuzzyMatchStep.confirmed].
    intros (Hg1 & Hm1 & F & Hfr). split; [by apply has_col_assign|].
    split; [by apply has_col_assign|]. split.
    2:{ by rewrite has_col_confidence_assign. }
    rewrite rows_assign by done. apply Forall_fmap.
    destruct (has_col "confidence" (FuzzyMatchStep.df s)) eqn:Hc.
    + eapply Forall_impl; [exact F|]. intros r Hr. simpl.
      case_bool_decide; [|done]. intros _. simpl. split; [done|eauto].
    + specialize (Hfr eq_refl).
      eapply Forall_impl; [exact Hfr|]. intros r Hr. simpl.
      case_bool_decide.
      * intros _. simpl. split; [done|eauto].
      * intros Hmt. simpl in Hmt. done.
  - split; [done|]. split; [done|]. split; [|done].
    eapply Forall_impl; [exact Hfresh|]. intros r Hr Hmt. done.
Qed.
End FuzzyWrites.

Lemma columns_assign_groups pfx mt groups d :
  has_col "group_id" d = true → has_col "match_type" d = true →
  columns (ExactMatchStep.assign_groups pfx mt groups d) = columns d.
Proof.
  intros Hg Hm. unfold ExactMatchStep.assign_groups.
  rewrite (fold_left_loc_rows
             (λ d, has_col "group_id" d = true ∧ has_col "match_type" d = true)
             (λ e, name <$> e.2) (λ e, exact_upd pfx mt e.1)); [done|done| | |done].
  - intros f d' [??]. by rewrite !has_col_map_rows.
  - intros d' [k g] [Hg' Hm']. simpl.
    rewrite (loc_set_has _ "group_id") by done.
    rewrite (loc_set_has _ "match_type") by by rewrite has_col_map_rows.
    rewrite map_rows_compose. apply map_rows_ext. intros r _. simpl.
    destruct (bool_decide (name r ∈ name <$> g)) eqn:E; simpl; by rewrite E.
Qed.

(** The exact matcher adds the two annotation columns and no other. *)
Lemma has_col_exact_other c d :
  c ≠ "group_id" → c ≠ "match_type" →
  has_col c (ExactMatchStep.process d) = has_col c d.
Proof.
  intros H1 H2.
  destruct (has_col_ensure_columns d) as [Hg Hm].
  set (d0 := ExactMatchStep.ensure_columns d) in *.
  assert (H0 : has_col c d0 = has_col c d).
  { unfold d0, ExactMatchStep.ensure_columns, add_col, has_col.
    destruct (bool_decide ("group_id" ∈ columns d)); simpl;
      destruct (bool_decide ("match_type" ∈ _)); simpl; try done;
      apply bool_decide_ext; rewrite ?elem_of_app, ?list_elem_of_singleton; tauto. }
  assert (C1 : columns (ExactMatchStep.item_pass d0) = columns d0).
  { unfold ExactMatchStep.item_pass. destruct (has_col "item_code" d0); [|done].
    by apply columns_assign_groups. }
  assert (C2 : columns (ExactMatchStep.process d) = columns d0).
  { unfold ExactMatchStep.process. fold d0. unfold ExactMatchStep.barcode_pass.
    destruct (has_col "barcode" _); [|done].
    rewrite columns_assign_groups; [done|unfold has_col in *; by rewrite C1..]. }
  unfold has_col in *. by rewrite C2.
Qed.

Lemma run_without_pair {Embedding}
    (emb : list string → option (list Embedding)) cos gc pf llm d st :
  has_col "confidence" d = false →
  FuzzyMatchStep.process_chunked emb cos 0.90%float 5000 (ExactMatchStep.process d)
  = Ok st →
  FuzzyMatchStep.confirmed st = [] →
  DedupAgent.run emb cos gc pf llm d = Raise (KeyError "confidence").
Proof.
  intros Hc Hst Hnil.
  pose proof (fuzzy_no_pair_unchanged _ _ _ _ _ _ Hst Hnil) as Hdf.
  unfold DedupAgent.run, DedupAgent.steps, FuzzyMatchStep.process.
  rewrite Hst. simpl. rewrite Hdf.
  unfold CrossEncoderRerankerStep.process.
  destruct (has_col_exact d) as [-> ->]. cbn [negb orb].
  rewrite has_col_exact_other by done. by rewrite Hc.
Qed.

(** X6.  A run on a table without a [confidence] column in which the
    similarity stage confirms no pair does not return: the Reranker reads the
    column that only a confirmed pair creates and raises [KeyError].  This is
    the case for an empty table and for a catalogue without near-duplicates. *)
Theorem run_raises_without_confirmed_pair {Embedding}
    (emb : list string → option (list Embedding)) cos gc pf llm d st :
  has_col "confidence" d = false →
  FuzzyMatchStep.process_chunked emb cos 0.90%float 5000 (ExactMatchStep.process d)
  = Ok st →
  FuzzyMatchStep.confirmed st = [] →
  DedupAgent.run emb cos gc pf llm d = Raise (KeyError "confidence").
Proof. apply run_without_pair. Qed.

(** ** Embedding requests *)

Lemma for_each_raises {A S} (body : S → A → Result S) (e : Exception) l a s :
  a ∈ l → (∀ s, body s a = Raise e) →
  (∀ s b e', body s b = Raise e' → e' = e) →
  for_each body s l = Raise e.
Proof.
  intros Ha Hfail Honly. revert s.
  induction l as [|b l IH]; intros s; [by apply elem_of_nil in Ha|].
  simpl. destruct (body s b) as [s1|e'] eqn:E; simpl.
  - apply elem_of_cons in Ha as [->|Ha]; [by rewrite Hfail in E|by apply IH].
  - f_equal. by eapply Honly.
Qed.

Lemma range_step_250 (n k : nat) :
  (k * 250)%nat ∈ range_step n 250 ↔ (k * 250 < n)%nat.
Proof.
  unfold range_step. rewrite list_elem_of_fmap.
  pose proof (Nat.div_mod (n + 250 - 1) 250 ltac:(lia)) as Hdm.
  pose proof (Nat.mod_upper_bound (n + 250 - 1) 250 ltac:(lia)).
  split.
  - intros (k' & Hk & Hin%elem_of_seq). lia.
  - intros Hk. exists k. split; [done|]. apply elem_of_seq. lia.
Qed.

Section Embeddings.
Context {Embedding : Type}.
Variable model_get_embeddings : list string → option (list Embedding).

Lemma get_embeddings_from (f : string → Embedding) texts m k acc :
  (∀ batch, batch ≠ [] → (length batch ≤ 250)%nat →
            model_get_embeddings batch = Some (f <$> batch)) →
  ((k + m) * 250 < length texts + 250)%nat →
  for_each
    (λ all_embeddings i,
       match model_get_embeddings (take 250 (drop i texts)) with
       | Some embeddings => Ok (all_embeddings ++ embeddings)
       | None => Raise CollaboratorError
       end)
    acc ((λ k, k * 250)%nat <$> seq k m)
  = Ok (acc ++ (f <$> take (m * 250) (drop (k * 250) texts))).
Proof.
  intros Hf. revert k acc. induction m as [|m IH]; intros k acc Hk.
  - simpl. by rewrite app_nil_r.
  - cbn [seq fmap list_fmap for_each].
    rewrite Hf; cycle 1.
    { intros E.
      assert (L : length (take 250 (drop (k * 250) texts)) = 0%nat) by by rewrite E.
      rewrite length_take, length_drop in L. lia. }
    { rewrite length_take. lia. }
    etrans; [apply (IH (S k)); lia|].
    f_equal. rewrite <- app_assoc. f_equal.
    rewrite <- fmap_app. f_equal.
    replace (S k * 250)%nat with (k * 250 + 250)%nat by lia.
    rewrite <- drop_drop, take_take_drop. f_equal; lia.
Qed.

(** X7.  The batching of the embedding requests is invisible: when the
    model answers every request of 1 to 250 texts with one vector per text,
    [_get_embeddings] returns one vector per text, in the order of the
    texts, whatever their number.  No request is empty or longer than the
    250 instances that the service accepts. *)
Theorem get_embeddings_batches (f : string → Embedding) texts :
  (∀ batch, batch ≠ [] → (length batch ≤ 250)%nat →
            model_get_embeddings batch = Some (f <$> batch)) →
  FuzzyMatchStep._get_embeddings model_get_embeddings texts = Ok (f <$> texts).
Proof.
  intros Hf. unfold FuzzyMatchStep._get_embeddings, range_step.
  pose proof (Nat.div_mod (length texts + 250 - 1) 250 ltac:(lia)) as Hdm.
  pose proof (Nat.mod_upper_bound (length texts + 250 - 1) 250 ltac:(lia)).
  rewrite (get_embeddings_from f) by (done || lia).
  change (0 * 250)%nat with 0%nat. rewrite app_nil_l, drop_0, take_ge; [done|lia].
Qed.

Lemma get_embeddings_failure texts k :
  (k * 250 < length texts)%nat →
  model_get_embeddings (take 250 (drop (k * 250) texts)) = None →
  FuzzyMatchStep._get_embeddings model_get_embeddings texts = Raise CollaboratorError.
Proof.
  intros Hk Hnone. unfold FuzzyMatchStep._get_embeddings.
  apply (for_each_raises _ _ _ (k * 250)%nat).
  - by apply range_step_250.
  - intros s. by rewrite Hnone.
  - intros s b e' E. simpl in E.
    destruct (model_get_embeddings (take 250 (drop b texts))); congruence.
Qed.
End Embeddings.

(** X8.  A failure of the embedding model is not isolated: when one of the
    embedding requests raises, the similarity stage raises, and so does the
    whole run, whatever the adjudicators answer. *)
Theorem embedding_failure_aborts_run {Embedding}
    (emb : list string → option (list Embedding)) cos gc pf llm d k :
  has_col "DESCR" d = true → has_col "DESCR60" d = true →
  (k * 250 < length (embedded_texts (ExactMatchStep.process d)))%nat →
  emb (take 250 (drop (k * 250) (embedded_texts (ExactMatchStep.process d)))) = None →
  DedupAgent.run emb cos gc pf llm d = Raise CollaboratorError.
Proof.
  intros H1 H2 Hk Hnone.
  unfold DedupAgent.run, DedupAgent.steps, FuzzyMatchStep.process,
    FuzzyMatchStep.process_chunked.
  unfold embedded_texts, ungrouped in Hk, Hnone.
  rewrite bool_decide_eq_false_2; cycle 1.
  { intros E. rewrite E in Hk. simpl in Hk. lia. }
  rewrite !has_col_exact_other by done. rewrite H1, H2. cbn [negb].
  by rewrite (get_embeddings_failure emb _ k).
Qed.

(** ** Text normalization and word overlap *)

Lemma overlap_comm text1 text2 :
  FuzzyMatchStep.overlap text1 text2 = FuzzyMatchStep.overlap text2 text1.
Proof.
  unfold FuzzyMatchStep.overlap.
  rewrite orb_comm, (comm_L (∩)), Nat.min_comm. done.
Qed.

(** X9.  The pair test of the similarity stage is symmetric: when the
    similarity matrix holds the same value for (a, j) and for (j, a), anchor
    [a] confirms record [j] exactly when anchor [j] would confirm record
    [a].  The word overlap does not depend on the order of the two texts. *)
Theorem confirms_symmetric threshold texts a j (row_a row_j : list float) :
  row_a !! j = row_j !! a →
  confirms threshold texts a row_a j = confirms threshold texts j row_j a.
Proof.
  intros Hsim. unfold confirms. rewrite Hsim.
  destruct (texts !! a) as [ta|], (texts !! j) as [tj|]; try done.
  destruct (row_j !! a) as [sim|]; [|done].
  rewrite (overlap_comm tj ta). do 2 f_equal. f_equal.
  apply bool_decide_ext. split; congruence.
Qed.

(** *** Strings *)

Lemma append_cons c (s t : string) : String c s +:+ t = String c (s +:+ t).
Proof. done. Qed.

Lemma append_empty_r (s : string) : s +:+ EmptyString = s.
Proof. induction s as [|c s IH]; [done|]. by rewrite append_cons, IH. Qed.

Lemma rev_app_rev_app (w acc acc' : string) :
  String.rev_app (String.rev_app w acc) acc' = String.rev_app acc (w +:+ acc').
Proof.
  revert acc acc'. induction w as [|c w IH]; intros acc acc'; simpl; [done|].
  by rewrite IH, append_cons.
Qed.

Lemma rev_rev (w : string) : String.rev (String.rev w) = w.
Proof.
  unfold String.rev. rewrite rev_app_rev_app. simpl. apply append_empty_r.
Qed.

Lemma rev_app_empty (a b : string) :
  String.rev_app a b = EmptyString → a = EmptyString ∧ b = EmptyString.
Proof.
  revert b. induction a as [|c a IH]; intros b; simpl; [done|].
  intros [_ [=]]%IH.
Qed.

Lemma all_chars_append p (a b : string) :
  all_chars p (a +:+ b) = all_chars p a && all_chars p b.
Proof.
  induction a as [|c a IH]; [done|]. rewrite append_cons. simpl.
  by rewrite IH, andb_assoc.
Qed.

Lemma all_chars_rev_app p (a b : string) :
  all_chars p (String.rev_app a b) = all_chars p a && all_chars p b.
Proof.
  revert b. induction a as [|c a IH]; intros b; simpl; [done|].
  rewrite IH. simpl. destruct (p c), (all_chars p a); done.
Qed.

Lemma all_chars_impl (p q : ascii → bool) (s : string) :
  (∀ c, p c = true → q c = true) → all_chars p s = true → all_chars q s = true.
Proof.
  intros Hpq. induction s as [|c s IH]; simpl; [done|].
  intros [Hc Hs]%andb_true_iff. by rewrite Hpq, IH.
Qed.

(** *** Characters *)

Lemma word_char_not_space c : word_char c = true → Py.isspace c = false.
Proof.
  unfold word_char, Py.islower, Py.isdigit, Py.isspace.
  generalize (nat_of_ascii c). intros n H.
  apply orb_true_iff in H as [H|H]; apply andb_true_iff in H as [H1 H2];
    apply Nat.leb_le in H1, H2;
    apply not_true_iff_false; intros H;
    apply orb_true_iff in H as [H|H]; apply andb_true_iff in H as [H3 H4];
    apply Nat.leb_le in H3, H4; lia.
Qed.

Lemma word_char_not_upper c : word_char c = true → Py.isupper c = false.
Proof.
  unfold word_char, Py.islower, Py.isdigit, Py.isupper.
  generalize (nat_of_ascii c). intros n H.
  apply orb_true_iff in H as [H|H]; apply andb_true_iff in H as [H1 H2];
    apply Nat.leb_le in H1, H2;
    apply not_true_iff_false; intros H; apply andb_true_iff in H as [H3 H4];
    apply Nat.leb_le in H3, H4; lia.
Qed.

(** The characters of a normalized text: word characters and the space. *)
Local Abbreviation text_char :=
  (λ c : ascii, word_char c || bool_decide (c = " "%char)).

Lemma lower_fixed (s : string) : all_chars text_char s = true → Py.lower s = s.
Proof.
  induction s as [|c s IH]; simpl; [done|].
  intros [Hc Hs]%andb_true_iff. rewrite IH by done. f_equal.
  unfold Py.lower_char. apply orb_true_iff in Hc as [Hc|Hc].
  - by rewrite word_char_not_upper.
  - apply bool_decide_eq_true in Hc as ->. done.
Qed.

Lemma sub_special_fixed (s : string) :
  all_chars text_char s = true → Py.sub_special s = s.
Proof.
  induction s as [|c s IH]; simpl; [done|].
  intros [Hc Hs]%andb_true_iff. rewrite IH by done. f_equal.
  apply orb_true_iff in Hc as [Hc|Hc].
  - unfold word_char in Hc. by rewrite Hc.
  - apply bool_decide_eq_true in Hc as ->. done.
Qed.

(** *** [split] and [join] *)

Lemma split_go_run (w acc rest : string) :
  all_chars word_char w = true →
  Py.split_go (Some acc) (w +:+ rest) = Py.split_go (Some (String.rev_app w acc)) rest.
Proof.
  revert acc. induction w as [|c w IH]; intros acc; [done|].
  rewrite append_cons. simpl.
  intros [Hc Hw]%andb_true_iff. rewrite word_char_not_space by done.
  simpl. by apply IH.
Qed.

Lemma split_go_word (w rest : string) :
  is_word w →
  Py.split_go None (w +:+ rest) = Py.split_go (Some (String.rev w)) rest.
Proof.
  intros [Hne Hw]. destruct w as [|c w]; [done|]. rewrite append_cons.
  simpl in *.
  apply andb_true_iff in Hw as [Hc Hw]. rewrite word_char_not_space by done.
  simpl. by apply split_go_run.
Qed.

Lemma split_join (ws : list string) :
  Forall is_word ws → Py.split (Py.join_space ws) = ws.
Proof.
  unfold Py.split. induction 1 as [|w ws Hw Hws IH]; [done|].
  destruct ws as [|w' ws].
  - simpl. rewrite <- (append_empty_r w) at 1. rewrite split_go_word by done.
    simpl. by rewrite rev_rev.
  - change (Py.join_space (w :: w' :: ws))
      with (w +:+ String " " (Py.join_space (w' :: ws))).
    rewrite split_go_word by done.
    change (Py.split_go (Some (String.rev w)) (String " " (Py.join_space (w' :: ws))))
      with ([String.rev (String.rev w)] ++ Py.split_go None (Py.join_space (w' :: ws))).
    by rewrite IH, rev_rev.
Qed.

Lemma join_text_chars (ws : list string) :
  Forall is_word ws → all_chars text_char (Py.join_space ws) = true.
Proof.
  induction 1 as [|w ws [_ Hw] Hws IH]; [done|].
  assert (Hw' : all_chars text_char w = true).
  { eapply all_chars_impl; [|exact Hw]. intros c ->. done. }
  destruct ws as [|w' ws]; [done|].
  change (Py.join_space (w :: w' :: ws))
    with (w +:+ String " " (Py.join_space (w' :: ws))).
  rewrite all_chars_append, Hw'. simpl. exact IH.
Qed.

(** [split] yields words when the text holds only word characters and
    whitespace. *)
Lemma split_go_words (s : string) (cur : option string) :
  all_chars (λ c, word_char c || Py.isspace c) s = true →
  match cur with Some acc => is_word acc | None => True end →
  Forall is_word (Py.split_go cur s).
Proof.
  assert (Hrev : ∀ acc, is_word acc → is_word (String.rev acc)).
  { intros acc [Hne Hacc]. split.
    - intros [? _]%rev_app_empty. done.
    - unfold String.rev. by rewrite all_chars_rev_app, Hacc. }
  assert (Hcur : ∀ cur : option string,
            match cur with Some acc => is_word acc | None => True end →
            Forall is_word (option_list (String.rev <$> cur))).
  { intros [acc|] H; simpl; [|done]. constructor; [by apply Hrev|done]. }
  revert cur. induction s as [|c s IH]; intros cur; simpl.
  - intros _. apply Hcur.
  - intros [Hc Hs]%andb_true_iff Hacc.
    destruct (Py.isspace c) eqn:Esp.
    + apply Forall_app. split; [by apply Hcur|by apply IH].
    + apply IH; [done|]. rewrite orb_false_r in Hc. split; [done|].
      simpl. rewrite Hc. simpl. destruct cur as [acc|]; [apply Hacc|done].
Qed.

Lemma sub_special_chars (s : string) :
  all_chars (λ c, word_char c || Py.isspace c) (Py.sub_special s) = true.
Proof.
  induction s as [|c s IH]; simpl; [done|]. rewrite IH, andb_true_r.
  unfold word_char.
  destruct (Py.islower c || Py.isdigit c || Py.isspace c) eqn:E; [exact E|done].
Qed.

Lemma normalize_text_words (text : string) :
  ∃ ws, Forall is_word ws ∧ normalize_text text = Py.join_space ws.
Proof.
  unfold normalize_text. case_bool_decide.
  - by exists [].
  - eexists. split; [|done]. apply split_go_words; [apply sub_special_chars|done].
Qed.

(** X10.  A normalized text is a sequence of non-empty words made of
    lower-case letters and digits, separated by single spaces, with no
    space at either end; [split] gives these words back, so the word sets
    of the overlap score are sets of such words. *)
Theorem normalize_text_normal_form (text : string) :
  ∃ ws, Forall is_word ws ∧ normalize_text text = Py.join_space ws ∧
        Py.split (normalize_text text) = ws.
Proof.
  destruct (normalize_text_words text) as (ws & Hws & E).
  exists ws. split; [done|]. split; [done|]. rewrite E. by apply split_join.
Qed.

(** X11.  [normalize_text] is idempotent: normalizing a normalized text
    changes nothing. *)
Theorem normalize_text_idempotent (text : string) :
  normalize_text (normalize_text text) = normalize_text text.
Proof.
  destruct (normalize_text_words text) as (ws & Hws & ->).
  unfold normalize_text at 1. case_bool_decide as E; [by rewrite E|].
  rewrite lower_fixed, sub_special_fixed by by apply join_text_chars.
  by rewrite split_join.
Qed.

(** ** The exact matcher creates no group of one *)

Lemma filter_fmap_length {A} (P Q : A → Prop) `{!∀ x, Decision (P x)}
    `{!∀ x, Decision (Q x)} (f : A → A) (l : list A) :
  (∀ x, x ∈ l → P x → Q (f x)) →
  (length (filter P l) ≤ length (filter Q (f <$> l)))%nat.
Proof.
  induction l as [|a l IH]; intros Hall; [done|].
  assert (IH' : (length (filter P l) ≤ length (filter Q (f <$> l)))%nat).
  { apply IH. intros x Hx. apply Hall. by right. }
  rewrite fmap_cons. destruct (decide (P a)) as [Ha|Ha].
  - rewrite filter_cons_True by done.
    rewrite (filter_cons_True Q) by (apply Hall; [by left|done]). simpl. lia.
  - rewrite filter_cons_False by done.
    destruct (decide (Q (f a))).
    + rewrite (filter_cons_True Q) by done. simpl. lia.
    + by rewrite (filter_cons_False Q) by done.
Qed.

Lemma rows_item_pass d :
  NoDup (name <$> rows d) →
  has_col "group_id" d = true → has_col "match_type" d = true →
  rows (ExactMatchStep.item_pass d)
  = (if has_col "item_code" d
     then exact_row item_code "exact_item_" "exact_item_code" (λ _, true) d
     else id) <$> rows d.
Proof.
  intros Hnd Hg Hm. destruct (has_col "item_code" d) eqn:Hc.
  - by rewrite item_pass_rows.
  - unfold ExactMatchStep.item_pass. by rewrite Hc, list_fmap_id.
Qed.

Lemma rows_barcode_pass d :
  NoDup (name <$> rows d) →
  has_col "group_id" d = true → has_col "match_type" d = true →
  rows (ExactMatchStep.barcode_pass d)
  = (if has_col "barcode" d
     then exact_row barcode "exact_barcode_" "exact_barcode"
            (λ r, bool_decide (group_id r = None)) d
     else id) <$> rows d.
Proof.
  intros Hnd Hg Hm. destruct (has_col "barcode" d) eqn:Hc.
  - by rewrite barcode_pass_rows.
  - unfold ExactMatchStep.barcode_pass. by rewrite Hc, list_fmap_id.
Qed.

(** A pass gives a row a new group only together with every other selected
    row that shares its key, and there is another one. *)
Lemma exact_row_new_group key pfx mt (P : Row → bool) d r g :
  group_id (exact_row key pfx mt P d r) = Some g → group_id r ≠ Some g →
  match_type (exact_row key pfx mt P d r) = Some mt ∧
  (2 ≤ length (filter (λ x, key x = key r ∧ P x = true) (rows d)))%nat ∧
  ∀ x, key x = key r → P x = true →
       group_id (exact_row key pfx mt P d x) = Some g.
Proof.
  unfold exact_row. intros Hg Hne.
  destruct (key r) as [k|] eqn:Hk; [|done].
  destruct (P r && duplicated key (filter (λ r, P r = true) (rows d)) r) eqn:Hd;
    [|done].
  apply andb_true_iff in Hd as [HP Hdup].
  unfold duplicated in Hdup. apply bool_decide_eq_true in Hdup.
  rewrite Hk in Hdup. rewrite list_filter_filter in Hdup.
  simpl in Hg. injection Hg as <-.
  split; [done|]. split; [done|].
  intros x Hx HPx. rewrite Hx, HPx. simpl.
  unfold duplicated. rewrite Hx, list_filter_filter.
  by rewrite bool_decide_eq_true_2.
Qed.

(** On a fresh table every group of the exact matcher carries one of its
    two labels and has at least two members. *)
Lemma exact_fresh_group d r g :
  NoDup (name <$> rows d) →
  (has_col "group_id" d = true → Forall (λ r, group_id r = None) (rows d)) →
  r ∈ rows (ExactMatchStep.process d) → group_id r = Some g →
  (match_type r = Some "exact_item_code" ∨ match_type r = Some "exact_barcode") ∧
  (2 ≤ DedupAgent.value_count (ExactMatchStep.process d) g)%nat.
Proof.
  intros Hnd Hfresh. revert r g.
  set (d0 := ExactMatchStep.ensure_columns d).
  set (d1 := ExactMatchStep.item_pass d0).
  pose proof (frame_step_ensure_columns d) as F0.
  pose proof (frame_step_item_pass d0) as F1. fold d1 in F1.
  destruct (has_col_ensure_columns d) as [Hg0 Hm0]. fold d0 in Hg0, Hm0.
  assert (Hnd0 : NoDup (name <$> rows d0)) by by rewrite (names_frame_step d d0).
  assert (Hnd1 : NoDup (name <$> rows d1)) by by rewrite (names_frame_step d0 d1).
  assert (Hg1 : has_col "group_id" d1 = true) by by apply F1.
  assert (Hm1 : has_col "match_type" d1 = true) by by apply F1.
  assert (Hnone : ∀ r, r ∈ rows d0 → group_id r = None).
  { intros r. unfold d0, ExactMatchStep.ensure_columns.
    rewrite !rows_add_col, <- list_fmap_compose.
    intros (r0 & -> & Hr0)%list_elem_of_fmap. simpl.
    destruct (has_col "group_id" d) eqn:E.
    - specialize (Hfresh eq_refl). rewrite Forall_forall in Hfresh.
      match goal with |- context [if ?b then id else _] => destruct b end;
        simpl; by apply Hfresh.
    - by match goal with |- context [if ?b then id else _] => destruct b end. }
  set (f1 := if has_col "item_code" d0
             then exact_row item_code "exact_item_" "exact_item_code" (λ _, true) d0
             else id).
  set (f2 := if has_col "barcode" d1
             then exact_row barcode "exact_barcode_" "exact_barcode"
                    (λ r, bool_decide (group_id r = None)) d1
             else id).
  assert (R1 : rows d1 = f1 <$> rows d0) by by apply rows_item_pass.
  assert (R2 : rows (ExactMatchStep.process d) = f2 <$> rows d1)
    by by apply rows_barcode_pass.
  assert (Hf2 : ∀ x, group_id x ≠ None → f2 x = x).
  { intros x Hx. unfold f2. destruct (has_col "barcode" d1); [|done].
    by apply exact_row_grouped. }
  intros r2 g Hr2 Hg2. unfold DedupAgent.value_count.
  rewrite R2 in Hr2. apply list_elem_of_fmap in Hr2 as (r1 & -> & Hr1).
  destruct (decide (group_id r1 = Some g)) as [Hg1'|Hg1'].
  - (* grouped by the item_code pass *)
    pose proof Hr1 as Hr1'. rewrite R1 in Hr1'.
    apply list_elem_of_fmap in Hr1' as (r0 & -> & Hr0).
    assert (Hf1 : f1 = exact_row item_code "exact_item_" "exact_item_code"
                         (λ _, true) d0).
    { unfold f1 in *. destruct (has_col "item_code" d0); [done|].
      simpl in Hg1'. by rewrite Hnone in Hg1'. }
    rewrite Hf1 in Hg1'. pose proof Hg1' as Hg1''.
    apply exact_row_new_group in Hg1' as (Hmt & Hlen & Hall); [|by rewrite Hnone].
    split.
    { left. rewrite Hf2; [by rewrite Hf1|]. rewrite Hf1. congruence. }
    etrans; [exact Hlen|]. rewrite R2, R1, <- list_fmap_compose.
    apply filter_fmap_length. intros x Hx [Hk HP]. simpl.
    rewrite Hf2; rewrite Hf1, (Hall x Hk HP); done.
  - (* grouped by the barcode pass *)
    assert (Hf2' : f2 = exact_row barcode "exact_barcode_" "exact_barcode"
                          (λ r, bool_decide (group_id r = None)) d1).
    { unfold f2 in *. destruct (has_col "barcode" d1); [done|]. done. }
    rewrite Hf2' in Hg2.
    apply exact_row_new_group in Hg2 as (Hmt & Hlen & Hall); [|done].
    split; [right; by rewrite Hf2'|].
    etrans; [exact Hlen|]. rewrite R2.
    apply filter_fmap_length. intros x Hx [Hk HP].
    rewrite Hf2'. by apply Hall.
Qed.

(** X12.  On a table with unique row labels and no group assigned yet, the
    exact matcher creates no group of one: every [group_id] that it leaves
    is carried by at least two rows. *)
Theorem exact_groups_have_two d :
  NoDup (name <$> rows d) →
  (has_col "group_id" d = true → Forall (λ r, group_id r = None) (rows d)) →
  no_singleton_group (ExactMatchStep.process d).
Proof. intros Hnd Hfresh r g Hr Hg. by eapply exact_fresh_group. Qed.

(** ** The endpoint [/api/dedup/trigger] *)

Section Service.
Context {Embedding : Type}.
Variable env_project : option string.
Variable client_connect : string → option unit.
Variable client_query : string → option DataFrame.
Variable client_load : DataFrame → string → option unit.
Variable emb : list string → option (list Embedding).
Variable cos : Embedding → Embedding → float.
Variable gc : string → option string.
Variable pf : string → option float.
Variable llm : string → option string.

Local Abbreviation project := (BigQueryService.resolve_project None env_project).
Local Abbreviation trigger_dedup :=
  (Api.trigger_dedup env_project client_connect client_query client_load
     emb cos gc pf llm).

(** X13.  A successful answer of the endpoint reports what happened: the
    table was fetched, the run returned, [processed_count] is the number of
    rows fetched, and exactly one load job was submitted, to the table
    [<project>.<dataset>.<table>_dedup_results] named in the answer, with
    the result of the run. *)
Theorem trigger_dedup_success request loads n t :
  trigger_dedup request = (loads, Api.Success n t) →
  ∃ df out,
    BigQueryService.fetch_data client_query project (Api.dataset_id request)
      (Api.table_id request) None = Ok df ∧
    DedupAgent.run emb cos gc pf llm df = Ok out ∧
    n = length (rows df) ∧
    t = BigQueryService.table_path project (Api.dataset_id request)
          (Api.table_id request +:+ "_dedup_results") ∧
    loads = [(t, out)].
Proof.
  unfold Api.trigger_dedup.
  destruct (client_connect _); [|done].
  destruct (BigQueryService.fetch_data _ _ _ _ _) as [df|]; [|done].
  destruct (DedupAgent.run _ _ _ _ _ df) as [out|] eqn:Hrun; [|done].
  unfold BigQueryService.update_dedup_results.
  destruct (client_load out _); [|done].
  intros [= <- <- <-]. exists df, out.
  split; [done|]. split; [done|]. split; [|done].
  symmetry. eapply Forall2_length, run_same_records, Hrun.
Qed.

(** X14.  For a table without a [confidence] column in which the
    similarity stage confirms no pair, the endpoint answers with status 500
    and the [KeyError] of the Reranker, and submits no load job. *)
Theorem trigger_dedup_without_pair request df st :
  client_connect project = Some () →
  BigQueryService.fetch_data client_query project (Api.dataset_id request)
    (Api.table_id request) None = Ok df →
  has_col "confidence" df = false →
  FuzzyMatchStep.process_chunked emb cos 0.90%float 5000 (ExactMatchStep.process df)
  = Ok st →
  FuzzyMatchStep.confirmed st = [] →
  trigger_dedup request = ([], Api.HTTPException 500 (KeyError "confidence")).
Proof.
  intros Hconn Hfetch Hc Hst Hnil. unfold Api.trigger_dedup.
  rewrite Hconn, Hfetch.
  by rewrite (run_without_pair emb cos gc pf llm df st).
Qed.
End Service.

(** ** Exact matches are final *)

Lemma exact_kept_refl r : exact_kept r r.
Proof. by split. Qed.

Lemma exact_kept_trans r1 r2 r3 : exact_kept r1 r2 → exact_kept r2 r3 → exact_kept r1 r3.
Proof.
  intros [N1 K1] [N2 K2]. split; [congruence|]. intros Hg Hm.
  destruct (K1 Hg Hm) as [G1 M1]. destruct K2 as [G2 M2]; [congruence..|].
  split; congruence.
Qed.

Lemma count_preserved (R : Row → Row → Prop) (l l' : list Row) g :
  Forall2 R l l' →
  (∀ r r', R r r' → group_id r = Some g → group_id r' = Some g) →
  (length (filter (λ r, group_id r = Some g) l)
   ≤ length (filter (λ r, group_id r = Some g) l'))%nat.
Proof.
  intros F HR. induction F as [|r r' l l' Hr _ IH]; [done|].
  destruct (decide (group_id r = Some g)) as [Hg|Hg].
  - rewrite filter_cons_True by done.
    rewrite (filter_cons_True _ r') by by eapply HR. simpl. lia.
  - rewrite filter_cons_False by done.
    destruct (decide (group_id r' = Some g)).
    + rewrite (filter_cons_True _ r') by done. simpl. lia.
    + by rewrite (filter_cons_False _ r') by done.
Qed.

Lemma cleanup_keeps d i r :
  has_col "group_id" d = true → has_col "match_type" d = true →
  rows d !! i = Some r → singleton_in d r = false →
  rows (DedupAgent.final_cleanup d) !! i = Some r.
Proof.
  intros Hg Hm Hi Hs.
  destruct (existsb id (singleton_in d <$> rows d)) eqn:Hex.
  - rewrite rows_final_cleanup by done.
    rewrite list_lookup_fmap, Hi. simpl. f_equal.
    unfold cleaned. by rewrite Hs, Hm.
  - assert (DedupAgent.final_cleanup d = d) as ->; [|done].
    unfold DedupAgent.final_cleanup. rewrite Hg.
    change (λ r, match group_id r with
                 | Some g => bool_decide (DedupAgent.value_count d g = 1%nat)
                 | None => false end) with (singleton_in d).
    by rewrite Hex.
Qed.

Lemma frame_step_no_label d d' :
  frame_step d d' →
  Forall (λ r, match_type r ≠ Some "fuzzy_embedding") (rows d) →
  Forall (λ r, match_type r ≠ Some "fuzzy_embedding") (rows d').
Proof.
  intros [_ F]. induction F as [|r r' l l' Hr _ IH]; [done|].
  intros [H1 H2]%Forall_cons. constructor; [|by apply IH].
  by apply Hr.
Qed.

Lemma ensure_columns_no_label d :
  (has_col "match_type" d = true →
   Forall (λ r, match_type r ≠ Some "fuzzy_embedding") (rows d)) →
  Forall (λ r, match_type r ≠ Some "fuzzy_embedding")
         (rows (ExactMatchStep.ensure_columns d)).
Proof.
  intros H. unfold ExactMatchStep.ensure_columns.
  rewrite !rows_add_col, <- list_fmap_compose. apply Forall_fmap.
  assert (Hm : has_col "match_type" (add_col "group_id" (set_group_id None) d)
               = has_col "match_type" d).
  { unfold add_col, has_col. destruct (bool_decide ("group_id" ∈ columns d)); [done|].
    simpl. apply bool_decide_ext.
    rewrite elem_of_app, list_elem_of_singleton. split; [|tauto].
    intros [?|[=]]. done. }
  rewrite Hm. destruct (has_col "match_type" d).
  - eapply Forall_impl; [by apply H|]. intros r Hr. simpl.
    by destruct (has_col "group_id" d).
  - apply Forall_forall. intros r _. done.
Qed.

Lemma rerank_row_kept gc pf d r : exact_kept r (rerank_row gc pf d r).
Proof.
  unfold rerank_row.
  destruct (CrossEncoderRerankerStep.mask r) eqn:M; [|apply exact_kept_refl].
  destruct (group_id r) as [g|] eqn:G; [|apply exact_kept_refl].
  destruct (rerank_response gc pf d g) as [score|]; [|apply exact_kept_refl].
  split.
  - unfold scored. by destruct (score <? 0.8)%float.
  - intros _ Hm. apply andb_true_iff in M as [M%bool_decide_eq_true _]. done.
Qed.

Section ExactFinal.
Context {Embedding : Type}.
Variable emb : list string → option (list Embedding).
Variable cos : Embedding → Embedding → float.
Variable gc : string → option string.
Variable pf : string → option float.
Variable llm : string → option string.

(** X15.  Exact matches are final.  On a table with unique row labels, no
    group assigned yet and no record labelled [fuzzy_embedding], every record
    that the exact matcher puts into a group ends a run that returns in that
    group, with the exact matcher's label: neither the similarity stage, nor
    the adjudicators, nor the cleanup touch it. *)
Theorem exact_groups_survive_run d out :
  NoDup (name <$> rows d) →
  (has_col "group_id" d = true → Forall (λ r, group_id r = None) (rows d)) →
  (has_col "match_type" d = true →
   Forall (λ r, match_type r ≠ Some "fuzzy_embedding") (rows d)) →
  DedupAgent.run emb cos gc pf llm d = Ok out →
  Forall2 group_final (rows (ExactMatchStep.process d)) (rows out).
Proof.
  intros Hnd Hfresh Hlabel (d3 & H3 & Hadj)%run_adjudicate.
  set (d2 := ExactMatchStep.process d) in *.
  unfold adjudicate in Hadj.
  destruct (CrossEncoderRerankerStep.process gc pf d3) as [d4|] eqn:H4; [|done].
  simpl in Hadj.
  destruct (LLMAssistedStep.process llm d4) as [d5|] eqn:H5; [|done].
  simpl in Hadj.
  destruct (HumanReviewStep.process d5) as [d6|] eqn:H6; [|done].
  simpl in Hadj. injection Hadj as <-.
  (* the frames along the run *)
  pose proof (frame_step_exact d) as F2. fold d2 in F2.
  destruct (has_col_exact d) as [Hg2 Hm2]. fold d2 in Hg2, Hm2.
  assert (Hnd2 : NoDup (name <$> rows d2)) by by rewrite (names_frame_step d d2).
  pose proof (frame_step_fuzzy _ _ _ _ _ H3) as F3.
  assert (Hnd3 : NoDup (name <$> rows d3)) by by rewrite (names_frame_step d2 d3).
  assert (Hg3 : has_col "group_id" d3 = true) by by apply F3.
  assert (Hm3 : has_col "match_type" d3 = true) by by apply F3.
  assert (Hc3 : has_col "confidence" d3 = true).
  { destruct (has_col "confidence" d3) eqn:Hc; [done|].
    unfold CrossEncoderRerankerStep.process in H4.
    by rewrite Hg3, Hm3, Hc in H4. }
  pose proof (frame_step_rerank _ _ _ _ H4) as F4.
  assert (Hg4 : has_col "group_id" d4 = true) by by apply F4.
  assert (Hm4 : has_col "match_type" d4 = true) by by apply F4.
  assert (Hc4 : has_col "confidence" d4 = true) by by apply F4.
  assert (L4 : Forall (λ r, match_type r ≠ Some "fuzzy_embedding") (rows d4)).
  { apply (frame_step_no_label (ExactMatchStep.ensure_columns d)).
    - eapply frame_step_trans; [|exact F4]. eapply frame_step_trans; [|exact F3].
      unfold d2, ExactMatchStep.process.
      eapply frame_step_trans; [apply frame_step_item_pass|apply frame_step_barcode_pass].
    - by apply ensure_columns_no_label. }
  rewrite Forall_forall in L4.
  rewrite llm_no_label in H5 by done. injection H5 as <-.
  rewrite human_review_no_label in H6 by done. injection H6 as <-.
  set (d6 := add_col "review_required" (set_review_required None) d4).
  assert (Hg6 : has_col "group_id" d6 = true) by by apply has_col_add_col_mono.
  assert (Hm6 : has_col "match_type" d6 = true) by by apply has_col_add_col_mono.
  (* what each stage does to the rows *)
  assert (K23 : Forall2 exact_kept (rows d2) (rows d3)).
  { unfold FuzzyMatchStep.process in H3.
    destruct (FuzzyMatchStep.process_chunked _ _ _ _ d2) as [st|] eqn:Hst; [|done].
    injection H3 as <-.
    pose proof (fuzzy_written_rows _ _ _ _ _ _ Hg2 Hm2 Hst) as W.
    apply Forall2_same_length_lookup_2; [by eapply Forall2_length|].
    intros i r r' Hi Hi'.
    destruct (Forall2_lookup_lr _ _ _ _ _ _ W Hi Hi') as [Hn Hkeep].
    split; [done|]. intros [g Hg] _. apply Hkeep.
    intros a j _ (rj & Hj & Hname).
    apply list_elem_of_lookup_2, list_elem_of_filter in Hj as [Hnone Hrj].
    apply bool_decide_eq_true in Hnone.
    assert (rj = r) as ->; [|congruence].
    eapply (NoDup_fmap_elem_eq name); [exact Hnd2|done| |done].
    by eapply list_elem_of_lookup_2. }
  assert (K34 : Forall2 exact_kept (rows d3) (rows d4)).
  { rewrite (rerank_rows gc pf d3) in H4 by done. injection H4 as <-.
    apply Forall2_fmap_rel, rerank_row_kept. }
  assert (K46 : Forall2 exact_kept (rows d4) (rows d6)).
  { unfold d6. rewrite rows_add_col. apply Forall2_fmap_rel.
    intros r. by destruct (has_col "review_required" d4). }
  assert (K26 : Forall2 exact_kept (rows d2) (rows d6)).
  { eapply Forall2_trans; [exact exact_kept_trans|exact K23|].
    eapply Forall2_trans; [exact exact_kept_trans|exact K34|exact K46]. }
  assert (G26 : Forall2 group_final (rows d2) (rows d6)).
  { apply Forall2_same_length_lookup_2; [by eapply Forall2_length|].
    intros i r r' Hi Hi' [g Hg].
    destruct (Forall2_lookup_lr _ _ _ _ _ _ K26 Hi Hi') as [_ Hkeep].
    destruct (exact_fresh_group d r g) as [Hmt _]; [done..| |done|].
    { by eapply list_elem_of_lookup_2. }
    apply Hkeep; [by eexists|]. destruct Hmt as [-> | ->]; done. }
  (* the cleanup *)
  apply Forall2_same_length_lookup_2.
  { rewrite (Forall2_length _ _ _ G26). eapply Forall2_length.
    apply (rel_final_cleanup (λ _ _, True)); done. }
  intros i r r' Hi Hi' [g Hg].
  destruct (Forall2_lookup_l _ _ _ _ _ G26 Hi) as (r6 & Hi6 & Hfin).
  destruct Hfin as [G6 M6]; [by eexists|].
  destruct (exact_fresh_group d r g) as [_ Hcount]; [done..| |done|].
  { by eapply list_elem_of_lookup_2. }
  assert (Hs : singleton_in d6 r6 = false).
  { unfold singleton_in. rewrite G6, Hg. apply bool_decide_eq_false_2.
    pose proof (count_preserved group_final (rows d2) (rows d6) g G26) as Hle.
    unfold DedupAgent.value_count in *. fold d2 in Hcount.
    assert (2 ≤ length (filter (λ r, group_id r = Some g) (rows d6)))%nat; [|lia].
    etrans; [exact Hcount|]. apply Hle.
    intros x x' Hx Hgx. destruct Hx as [-> _]; [by eexists|done]. }
  rewrite (cleanup_keeps d6 i r6) in Hi' by done.
  injection Hi' as <-. by split.
Qed.
End ExactFinal.

(** ** When a run returns *)

Lemma has_col_columns c d d' : columns d' = columns d → has_col c d' = has_col c d.
Proof. unfold has_col. by intros ->. Qed.

Lemma rerank_returns gc pf d :
  has_col "confidence" d = true →
  ∃ d', CrossEncoderRerankerStep.process gc pf d = Ok d'.
Proof.
  intros Hc. unfold CrossEncoderRerankerStep.process. rewrite Hc.
  destruct (negb (has_col "group_id" d) || negb (has_col "match_type" d));
    [by eexists|].
  cbn [negb]. case_bool_decide; by eexists.
Qed.

Lemma llm_returns llm d :
  has_col "match_type" d = true → ∃ d', LLMAssistedStep.process llm d = Ok d'.
Proof.
  intros Hm. unfold LLMAssistedStep.process. rewrite Hm.
  destruct (negb (has_col "group_id" d) || negb (has_col "confidence" d));
    [by eexists|].
  cbn [negb]. case_bool_decide; by eexists.
Qed.

Section Outcome.
Context {Embedding : Type}.
Variable emb : list string → option (list Embedding).
Variable cos : Embedding → Embedding → float.
Variable gc : string → option string.
Variable pf : string → option float.
Variable llm : string → option string.

Lemma run_cases d :
  match DedupAgent.run emb cos gc pf llm d with
  | Ok out =>
      ∃ d3, FuzzyMatchStep.process emb cos 0.90%float (ExactMatchStep.process d)
            = Ok d3 ∧ has_col "confidence" d3 = true
  | Raise e =>
      FuzzyMatchStep.process emb cos 0.90%float (ExactMatchStep.process d) = Raise e ∨
      (e = KeyError "confidence" ∧
       ∃ d3, FuzzyMatchStep.process emb cos 0.90%float (ExactMatchStep.process d)
             = Ok d3 ∧ has_col "confidence" d3 = false)
  end.
Proof.
  unfold DedupAgent.run, DedupAgent.steps.
  destruct (FuzzyMatchStep.process emb cos _ _) as [d3|e] eqn:H3; [|by left].
  pose proof (frame_step_fuzzy _ _ _ _ _ H3) as F3.
  destruct (has_col_exact d) as [Hg2 Hm2].
  assert (Hg3 : has_col "group_id" d3 = true) by by apply F3.
  assert (Hm3 : has_col "match_type" d3 = true) by by apply F3.
  cbn [mbind Result_bind].
  destruct (has_col "confidence" d3) eqn:Hc3.
  - destruct (rerank_returns gc pf d3 Hc3) as [d4 H4]. rewrite H4.
    pose proof (rerank_columns _ _ _ _ H4) as C4.
    destruct (llm_returns llm d4) as [d5 H5];
      [by rewrite (has_col_columns _ d3)|].
    cbn [mbind Result_bind]. rewrite H5.
    pose proof (llm_columns _ _ _ H5) as C5.
    cbn [mbind Result_bind]. unfold HumanReviewStep.process.
    rewrite !(has_col_columns _ d4 d5), !(has_col_columns _ d3 d4) by done.
    rewrite Hm3, Hc3. simpl. eauto.
  - unfold CrossEncoderRerankerStep.process. rewrite Hg3, Hm3, Hc3. simpl.
    right. eauto.
Qed.

(** X16.  The outcome of a run is decided by the similarity stage.  A run
    returns exactly when the similarity stage returns a frame that has a
    [confidence] column.  A run raises either the exception of the
    similarity stage, or the [KeyError] of the Reranker on a frame without
    that column.  The ambiguity resolver, the review step and the cleanup
    never raise in a run, whatever the adjudicators do.  (Constructing the
    client of a generative model is taken to succeed; only its calls may
    raise.) *)
Theorem run_outcome d :
  match DedupAgent.run emb cos gc pf llm d with
  | Ok out =>
      ∃ d3, FuzzyMatchStep.process emb cos 0.90%float (ExactMatchStep.process d)
            = Ok d3 ∧ has_col "confidence" d3 = true
  | Raise e =>
      FuzzyMatchStep.process emb cos 0.90%float (ExactMatchStep.process d) = Raise e ∨
      (e = KeyError "confidence" ∧
       ∃ d3, FuzzyMatchStep.process emb cos 0.90%float (ExactMatchStep.process d)
             = Ok d3 ∧ has_col "confidence" d3 = false)
  end.
Proof. apply run_cases. Qed.

(** Once a pair is confirmed the frame has a [confidence] column. *)
Lemma fuzzy_pair_creates_confidence c d st :
  FuzzyMatchStep.process_chunked emb cos 0.90%float c d = Ok st →
  FuzzyMatchStep.confirmed st ≠ [] →
  has_col "confidence" (FuzzyMatchStep.df st) = true.
Proof.
  intros Hst.
  pose proof (process_chunked_relation emb cos 0.90%float
    (λ s s',
       let I s := FuzzyMatchStep.confirmed s ≠ [] →
                  has_col "confidence" (FuzzyMatchStep.df s) = true in
       I s → I s') c d st) as H.
  simpl in H. apply H; [by auto|by auto| |exact Hst|done].
  intros texts a sim_row s j s'
    [->|(an & pa & sc & _ & _ & _ & _ & ->)]%candidate_outcome; [done|].
  intros _ _. cbn [FuzzyMatchStep.df]. apply has_col_confidence_assign.
Qed.

(** X17.  On a table without a [confidence] column, a run returns exactly
    when the similarity stage confirms at least one pair. *)
Theorem run_returns_iff_pair d st :
  has_col "confidence" d = false →
  FuzzyMatchStep.process_chunked emb cos 0.90%float 5000 (ExactMatchStep.process d)
  = Ok st →
  (∃ out, DedupAgent.run emb cos gc pf llm d = Ok out)
  ↔ FuzzyMatchStep.confirmed st ≠ [].
Proof.
  intros Hc Hst. split.
  - intros [out Hrun] Hnil.
    by rewrite (run_without_pair emb cos gc pf llm d st) in Hrun.
  - intros Hne. pose proof (run_cases d) as Hcases.
    assert (H3 : FuzzyMatchStep.process emb cos 0.90%float (ExactMatchStep.process d)
                 = Ok (FuzzyMatchStep.df st)).
    { unfold FuzzyMatchStep.process. by rewrite Hst. }
    destruct (DedupAgent.run emb cos gc pf llm d) as [out|e]; [by eexists|].
    destruct Hcases as [Hr|(_ & d3 & Hd3 & Hc3)]; [congruence|].
    rewrite H3 in Hd3. injection Hd3 as <-.
    by rewrite (fuzzy_pair_creates_confidence 5000 _ st Hst Hne) in Hc3.
Qed.
End Outcome.

(** ** The further properties at concrete frames *)

(** The run on the pair frame hands back its two records. *)
Lemma run_keeps_records_witness :
  ∃ out,
    DedupAgent.run Examples.text_embeddings Examples.same_text Examples.silent
      Examples.parse_score Examples.silent Examples.pair_frame = Ok out ∧
    length (rows out) = length (rows Examples.pair_frame) ∧
    Forall2 same_record (rows Examples.pair_frame) (rows out).
Proof.
  eexists. split; [vm_compute; reflexivity|].
  refine (run_keeps_records Examples.text_embeddings Examples.same_text
            Examples.silent Examples.parse_score Examples.silent
            Examples.pair_frame _ _).
  vm_compute. reflexivity.
Defined.

(** In the run on the chain frame every record keeps the group of the
    similarity stage or loses it. *)
Lemma adjudication_only_dissolves_witness :
  ∃ out,
    DedupAgent.run Examples.text_embeddings Examples.chain_cosine Examples.silent
      Examples.parse_score Examples.silent Examples.chain_frame = Ok out ∧
    ∃ d2,
      FuzzyMatchStep.process Examples.text_embeddings Examples.chain_cosine
        0.90%float (ExactMatchStep.process Examples.chain_frame) = Ok d2 ∧
      Forall2 group_kept_or_cleared (rows d2) (rows out).
Proof.
  eexists. split; [vm_compute; reflexivity|].
  refine (adjudication_only_dissolves Examples.text_embeddings Examples.chain_cosine
            Examples.silent Examples.parse_score Examples.silent
            Examples.chain_frame _ _).
  vm_compute. reflexivity.
Defined.

(** The similarity stage on the chain frame. *)
Lemma fuzzy_writes_only_partners_witness :
  let d := ExactMatchStep.process Examples.chain_frame in
  ∃ st,
    FuzzyMatchStep.process_chunked Examples.text_embeddings Examples.chain_cosine
      0.90%float 5000 d = Ok st ∧
    Forall2 (written_only_as_partner (ungrouped d) (FuzzyMatchStep.confirmed st))
            (rows d) (rows (FuzzyMatchStep.df st)).
Proof.
  intros d. eexists. split; [vm_compute; reflexivity|].
  refine (fuzzy_writes_only_partners Examples.text_embeddings Examples.chain_cosine
            0.90%float 5000 d _ _ _ _).
  - reflexivity.
  - reflexivity.
  - vm_compute. reflexivity.
Defined.

(** The record that the similarity stage labels in the pair frame is in a
    group, with confidence above 0.90. *)
Lemma fuzzy_labels_sound_witness :
  ∃ d',
    FuzzyMatchStep.process Examples.text_embeddings Examples.same_text 0.90%float
      (ExactMatchStep.process Examples.pair_frame) = Ok d' ∧
    Forall (fuzzy_label_sound 0.90%float) (rows d').
Proof.
  eexists. split; [vm_compute; reflexivity|].
  refine (fuzzy_labels_sound Examples.text_embeddings Examples.same_text 0.90%float
            (ExactMatchStep.process Examples.pair_frame) _ _ _ _ _).
  - reflexivity.
  - reflexivity.
  - by_compute.
  - vm_compute. reflexivity.
Defined.

(** A catalogue of two unrelated records: the run raises. *)
Lemma run_raises_without_confirmed_pair_witness :
  DedupAgent.run Examples.text_embeddings Examples.same_text Examples.silent
    Examples.parse_score Examples.silent MoreExamples.distinct_frame
  = Raise (KeyError "confidence").
Proof.
  eapply (run_raises_without_confirmed_pair Examples.text_embeddings
            Examples.same_text Examples.silent Examples.parse_score Examples.silent
            MoreExamples.distinct_frame).
  - reflexivity.
  - vm_compute. reflexivity.
  - reflexivity.
Defined.

(** Six hundred texts are embedded in three requests. *)
Lemma get_embeddings_batches_witness :
  FuzzyMatchStep._get_embeddings MoreExamples.text_lengths (replicate 600 "tea")
  = Ok (String.length <$> replicate 600 "tea").
Proof.
  apply (get_embeddings_batches MoreExamples.text_lengths String.length).
  intros batch _ _. reflexivity.
Defined.

(** With the embedding model down, the run on the pair frame raises. *)
Lemma embedding_failure_aborts_run_witness :
  DedupAgent.run MoreExamples.no_embeddings Examples.same_text Examples.silent
    Examples.parse_score Examples.silent Examples.pair_frame
  = Raise CollaboratorError.
Proof.
  apply (embedding_failure_aborts_run MoreExamples.no_embeddings Examples.same_text
           Examples.silent Examples.parse_score Examples.silent
           Examples.pair_frame 0).
  - reflexivity.
  - reflexivity.
  - vm_compute. lia.
  - reflexivity.
Defined.

(** Two texts, either as the anchor. *)
Lemma confirms_symmetric_witness :
  confirms 0.90%float ["red apple"; "red apple pie"] 0 [1%float; 0.95%float] 1
  = confirms 0.90%float ["red apple"; "red apple pie"] 1 [0.95%float; 1%float] 0.
Proof. apply confirms_symmetric. reflexivity. Defined.

(** The groups of the keyed frame. *)
Lemma exact_groups_have_two_witness :
  no_singleton_group (ExactMatchStep.process Examples.keyed_frame).
Proof.
  apply exact_groups_have_two.
  - by_compute.
  - intros _. by_compute.
Defined.

(** The endpoint on a warehouse that holds the pair frame. *)
Lemma trigger_dedup_success_witness :
  ∃ loads,
    Api.trigger_dedup None MoreExamples.connect
      (MoreExamples.one_table Examples.pair_frame) MoreExamples.accept_load
      Examples.text_embeddings Examples.same_text Examples.silent
      Examples.parse_score Examples.silent MoreExamples.request
    = (loads, Api.Success 2 "crown-cdw-intelia-dev.fnb.items_dedup_results") ∧
    ∃ df out,
      BigQueryService.fetch_data (MoreExamples.one_table Examples.pair_frame)
        (BigQueryService.resolve_project None None)
        (Api.dataset_id MoreExamples.request) (Api.table_id MoreExamples.request)
        None = Ok df ∧
      DedupAgent.run Examples.text_embeddings Examples.same_text Examples.silent
        Examples.parse_score Examples.silent df = Ok out ∧
      2%nat = length (rows df) ∧
      "crown-cdw-intelia-dev.fnb.items_dedup_results"
      = BigQueryService.table_path (BigQueryService.resolve_project None None)
          (Api.dataset_id MoreExamples.request)
          (Api.table_id MoreExamples.request +:+ "_dedup_results") ∧
      loads = [("crown-cdw-intelia-dev.fnb.items_dedup_results", out)].
Proof.
  eexists. split; [vm_compute; reflexivity|].
  refine (trigger_dedup_success None MoreExamples.connect
            (MoreExamples.one_table Examples.pair_frame) MoreExamples.accept_load
            Examples.text_embeddings Examples.same_text Examples.silent
            Examples.parse_score Examples.silent MoreExamples.request _ 2
            "crown-cdw-intelia-dev.fnb.items_dedup_results" _).
  vm_compute. reflexivity.
Defined.

(** The endpoint on a warehouse that holds two unrelated records. *)
Lemma trigger_dedup_without_pair_witness :
  Api.trigger_dedup None MoreExamples.connect
    (MoreExamples.one_table MoreExamples.distinct_frame) MoreExamples.accept_load
    Examples.text_embeddings Examples.same_text Examples.silent
    Examples.parse_score Examples.silent MoreExamples.request
  = ([], Api.HTTPException 500 (KeyError "confidence")).
Proof.
  eapply (trigger_dedup_without_pair None MoreExamples.connect
            (MoreExamples.one_table MoreExamples.distinct_frame)
            MoreExamples.accept_load Examples.text_embeddings Examples.same_text
            Examples.silent Examples.parse_score Examples.silent
            MoreExamples.request MoreExamples.distinct_frame).
  - reflexivity.
  - vm_compute. reflexivity.
  - reflexivity.
  - vm_compute. reflexivity.
  - reflexivity.
Defined.

(** The two records sharing item code A7 end the run in their group. *)
Lemma exact_groups_survive_run_witness :
  ∃ out,
    DedupAgent.run Examples.text_embeddings Examples.same_text Examples.silent
      Examples.parse_score Examples.silent MoreExamples.keys_and_names_frame
    = Ok out ∧
    Forall2 group_final
      (rows (ExactMatchStep.process MoreExamples.keys_and_names_frame)) (rows out).
Proof.
  eexists. split; [vm_compute; reflexivity|].
  refine (exact_groups_survive_run Examples.text_embeddings Examples.same_text
            Examples.silent Examples.parse_score Examples.silent
            MoreExamples.keys_and_names_frame _ _ _ _ _).
  - by_compute.
  - intros _. by_compute.
  - intros _. by_compute.
  - vm_compute. reflexivity.
Defined.

(** The pair frame: a pair is confirmed, and the run returns. *)
Lemma run_returns_iff_pair_witness :
  ∃ st,
    FuzzyMatchStep.process_chunked Examples.text_embeddings Examples.same_text
      0.90%float 5000 (ExactMatchStep.process Examples.pair_frame) = Ok st ∧
    ((∃ out, DedupAgent.run Examples.text_embeddings Examples.same_text
               Examples.silent Examples.parse_score Examples.silent
               Examples.pair_frame = Ok out)
     ↔ FuzzyMatchStep.confirmed st ≠ []).
Proof.
  eexists. split; [vm_compute; reflexivity|].
  refine (run_returns_iff_pair Examples.text_embeddings Examples.same_text
            Examples.silent Examples.parse_score Examples.silent
            Examples.pair_frame _ _ _).
  - reflexivity.
  - vm_compute. reflexivity.
Defined.
